(** * remix-studies: the schema-driven generator, its codecs and [safeRedirect]

    A shallow embedding of [app/utils.ts] ([safeRedirect]) and of the quotation
    route (the [getProps] accessor, the [generate] function, the three branded
    io-ts codecs [Uuid], [CurrencyFromString], [DateFromISOString] and the
    [loader]).

    JavaScript values are an inductive type, exceptions are an explicit
    outcome, and the random source ([Math.random], faker) is threaded as an
    explicit state.  Third-party code the route calls (io-ts validators,
    date-fns, decimal.js, fp-ts [record.map]) is modelled from the libraries'
    documented behaviour and kept apart from the repository's own functions. *)

From Stdlib Require Import ZArith QArith Qround Qabs Qpower Lqa List String Ascii Bool Lia.
Import ListNotations.

#[local] Set Warnings "-register-all".

Local Open Scope string_scope.
Local Open Scope Z_scope.

(* ================================================================== *)
(** * app/utils.ts *)

Module Utils.

(** A [File] entry of a form: only its name is kept. *)
Record File : Type := mkFile { file_name : string }.

(** [FormDataEntryValue | string | null | undefined], the type of [to]. *)
Inductive RedirectTo : Type :=
| ToNull
| ToUndefined
| ToString (s : string)
| ToFile (f : File).

Definition DEFAULT_REDIRECT : string := "/".

(** [!to]: null, undefined and the empty string are falsy, a [File] is an
    object and so truthy. *)
Definition falsy (to : RedirectTo) : bool :=
  match to with
  | ToNull | ToUndefined => true
  | ToString s => String.eqb s ""
  | ToFile _ => false
  end.

(** [typeof to] *)
Definition typeof_to (to : RedirectTo) : string :=
  match to with
  | ToNull => "object"
  | ToUndefined => "undefined"
  | ToString _ => "string"
  | ToFile _ => "object"
  end.

(** [String.prototype.startsWith] *)
Definition startsWith (s searchString : string) : bool :=
  String.prefix searchString s.

(** [safeRedirect(to, defaultRedirect)] *)
Definition safeRedirect (to : RedirectTo) (defaultRedirect : string) : string :=
  if falsy to || negb (String.eqb (typeof_to to) "string") then defaultRedirect
  else
    match to with
    | ToString path =>
        if negb (startsWith path "/") || startsWith path "//"
        then defaultRedirect
        else path
    | _ => defaultRedirect
    end.

(** The call with the second argument left out. *)
Definition safeRedirect_default (to : RedirectTo) : string :=
  safeRedirect to DEFAULT_REDIRECT.

(** The claim's own words: [to] is a non-empty string that starts with "/"
    and does not start with "//".  Stated with concatenation, not with the
    prefix test the code runs. *)
Definition begins_with (p s : string) : Prop := exists rest, s = p ++ rest.

Definition safe_path (to : RedirectTo) (path : string) : Prop :=
  to = ToString path /\ path <> "" /\ begins_with "/" path /\ ~ begins_with "//" path.

End Utils.

(* ================================================================== *)
(** * JavaScript values and outcomes *)

Module JS.

(** A Number: a finite one by its rational value (the sign of zero is not
    kept), NaN and the two infinities.  A Number of the language is a binary64
    value; the model asks that of the operand of the route's one arithmetic
    operation, the product [Math.random() * 10], whose exact result is rounded
    to binary64: see [multiply] and [is_binary64]. *)
Inductive number : Type :=
| Finite (q : Q)
| NaN
| Infinity (negative : bool).

(** A [Date] object: its time value is NaN (an Invalid Date) or an integral
    number of milliseconds since the epoch (of magnitude at most 8.64e15 in a
    [Date] the language builds; the type does not carry the bound). *)
Inductive Date : Type :=
| InvalidDate
| TimeValue (t : Z).

(** A decimal.js [Decimal]: NaN, an infinity, or sign, coefficient and
    decimal exponent. *)
Inductive Decimal : Type :=
| DecimalNaN
| DecimalInfinity (negative : bool)
| DecimalFinite (negative : bool) (coefficient : N) (exponent : Z).

Inductive value : Type :=
| VUndefined
| VNull
| VBoolean (b : bool)
| VNumber (n : number)
| VString (s : string)
| VStringObject (s : string)          (* new String(s) *)
| VArray (elements : list value)
| VObject (fields : list (string * value))
| VDate (d : Date)
| VDecimal (d : Decimal).

Inductive exn : Type :=
| TypeError (message : string)
| RangeError (message : string).

(** What a call does: it returns or it throws. *)
Inductive outcome (A : Type) : Type :=
| Returned (a : A)
| Threw (e : exn).
Arguments Returned {A} a.
Arguments Threw {A} e.

Definition typeof (u : value) : string :=
  match u with
  | VUndefined => "undefined"
  | VBoolean _ => "boolean"
  | VNumber _ => "number"
  | VString _ => "string"
  | VNull | VStringObject _ | VArray _ | VObject _ | VDate _ | VDecimal _ => "object"
  end.

(** [u instanceof String], [u instanceof Date], [u instanceof Decimal] *)
Definition instanceof_String (u : value) : bool :=
  match u with VStringObject _ => true | _ => false end.
Definition instanceof_Date (u : value) : bool :=
  match u with VDate _ => true | _ => false end.
Definition instanceof_Decimal (u : value) : bool :=
  match u with VDecimal _ => true | _ => false end.

(** Own properties of a plain object, in iteration order. *)
Definition object := list (string * value).

(** [Object.prototype.hasOwnProperty.call(a, k)] *)
Fixpoint hasOwnProperty (a : object) (k : string) : bool :=
  match a with
  | [] => false
  | (k', _) :: rest => String.eqb k' k || hasOwnProperty rest k
  end.

(** [a[k]]: undefined when [k] is no own property. *)
Fixpoint get (a : object) (k : string) : value :=
  match a with
  | [] => VUndefined
  | (k', v) :: rest => if String.eqb k' k then v else get rest k
  end.

(** [a[k] = v]: overwrites in place, or adds the property at the end. *)
Fixpoint set (a : object) (k : string) (v : value) : object :=
  match a with
  | [] => [(k, v)]
  | (k', v') :: rest =>
      if String.eqb k' k then (k', v) :: rest else (k', v') :: set rest k v
  end.

(** ** Decimal rendering of integers, as [String(n)] and the padding helpers need it *)

Definition digit_of (n : N) : ascii :=
  ascii_of_N (48 + n mod 10).

Fixpoint digits_from (fuel : nat) (n : N) (acc : string) : string :=
  match fuel with
  | O => acc
  | S fuel' =>
      let acc' := String (digit_of n) acc in
      if (n / 10 =? 0)%N then acc' else digits_from fuel' (n / 10)%N acc'
  end.

(** [String(n)] for a natural number. *)
Definition string_of_N (n : N) : string :=
  digits_from (S (N.to_nat (N.size n))) n "".

Fixpoint zeros (k : nat) : string :=
  match k with
  | O => ""
  | S k' => String "0" (zeros k')
  end.

(** [s.padStart(targetLength, "0")] *)
Definition padStart0 (targetLength : nat) (s : string) : string :=
  zeros (targetLength - String.length s) ++ s.

Definition is_digit (c : ascii) : bool :=
  let n := N_of_ascii c in ((48 <=? n) && (n <=? 57))%N.

Fixpoint string_forallb (p : ascii -> bool) (s : string) : bool :=
  match s with
  | EmptyString => true
  | String c rest => p c && string_forallb p rest
  end.

Fixpoint string_mem (c : ascii) (s : string) : bool :=
  match s with
  | EmptyString => false
  | String c' rest => Ascii.eqb c' c || string_mem c rest
  end.

(** ** Dates *)

Definition msPerDay : Z := 86400000.

(** Year, month (1..12) and day of month of a day number counted from the
    epoch, in the proleptic Gregorian calendar (the ECMAScript functions
    [YearFromTime], [MonthFromTime], [DateFromTime] in one pass). *)
Definition civil_from_days (z : Z) : Z * Z * Z :=
  let z := z + 719468 in
  let era := z / 146097 in
  let doe := z - era * 146097 in
  let yoe := (doe - doe / 1460 + doe / 36524 - doe / 146096) / 365 in
  let doy := doe - (365 * yoe + yoe / 4 - yoe / 100) in
  let mp := (5 * doy + 2) / 153 in
  let d := doy - (153 * mp + 2) / 5 + 1 in
  let m := if mp <? 10 then mp + 3 else mp - 9 in
  let y := yoe + era * 400 + (if m <=? 2 then 1 else 0) in
  (y, m, d).

(** The inverse: the day number of a calendar date. *)
Definition days_from_civil (y m d : Z) : Z :=
  let y := if m <=? 2 then y - 1 else y in
  let era := y / 400 in
  let yoe := y - era * 400 in
  let doy := (153 * (if m >? 2 then m - 3 else m + 9) + 2) / 5 + d - 1 in
  let doe := yoe * 365 + yoe / 4 - yoe / 100 + doy in
  era * 146097 + doe - 719468.

Definition pad (width : nat) (n : Z) : string :=
  padStart0 width (string_of_N (Z.to_N n)).

(** The year of [toISOString]: four digits, or a sign and six digits outside
    0..9999. *)
Definition iso_year (y : Z) : string :=
  if (0 <=? y) && (y <=? 9999) then pad 4 y
  else (if y <? 0 then "-" else "+") ++ pad 6 (Z.abs y).

(** [Date.prototype.toISOString]: YYYY-MM-DDTHH:mm:ss.sssZ in UTC; a
    RangeError on an Invalid Date. *)
Definition toISOString (d : Date) : outcome string :=
  match d with
  | InvalidDate => Threw (RangeError "Invalid time value")
  | TimeValue t =>
      let '(y, m, dd) := civil_from_days (t / msPerDay) in
      let ms := t mod msPerDay in
      Returned (iso_year y ++ "-" ++ pad 2 m ++ "-" ++ pad 2 dd ++ "T"
                ++ pad 2 (ms / 3600000) ++ ":" ++ pad 2 (ms / 60000 mod 60) ++ ":"
                ++ pad 2 (ms / 1000 mod 60) ++ "." ++ pad 3 (ms mod 1000) ++ "Z")
  end.

(** ** Binary64 arithmetic *)

Definition pow2 (k : Z) : Q := (2 ^ k)%Q.

(** The binary exponent of a positive rational: the [e] with
    [2^e <= x < 2^(e+1)]. *)
Definition exponent (x : Q) : Z :=
  if Qle_bool 1 x then Z.log2 (Qfloor x) else - Z.log2_up (Qceiling (/ x)).

(** The integer nearest to [y], a tie going to the even one. *)
Definition round_half_even (y : Q) : Z :=
  let f := Qfloor y in
  match (y - inject_Z f ?= 1 # 2)%Q with
  | Lt => f
  | Gt => f + 1
  | Eq => if Z.even f then f else f + 1
  end.

(** The exponent of the gap between the binary64 numbers around [x]: 52 bits
    below the exponent of [x], and no less than -1074 (the subnormals). *)
Definition spacing (x : Q) : Z := Z.max (exponent (Qabs x) - 52) (-1074).

(** The multiple of the gap that is nearest to [x], ties to even. *)
Definition binary64_nearest (x : Q) : Q :=
  if Qeq_bool x 0 then 0%Q
  else
    let k := spacing x in
    let n := round_half_even (Qabs x * pow2 (- k)) in
    ((if Qle_bool 0 x then 1 else -1) * (inject_Z n * pow2 k))%Q.

(** Round to nearest, ties to even, of IEEE 754 binary64: a result of
    magnitude 2^1024 is an infinity. *)
Definition binary64_round (x : Q) : number :=
  let q := binary64_nearest x in
  if Qle_bool (pow2 1024) (Qabs q) then Infinity (negb (Qle_bool 0 x)) else Finite q.

(** [x] is the value of a finite binary64 number. *)
Definition is_binary64 (x : Q) : Prop :=
  (binary64_nearest x == x)%Q /\ (Qabs x < pow2 1024)%Q.

Definition is_binary64b (x : Q) : bool :=
  Qeq_bool (binary64_nearest x) x && negb (Qle_bool (pow2 1024) (Qabs x)).

(** [a * b] on two finite Numbers: the exact product, rounded. *)
Definition multiply (a b : Q) : number := binary64_round (a * b).

(** [Math.floor] *)
Definition Math_floor (n : number) : number :=
  match n with
  | Finite q => Finite (inject_Z (Qfloor q))
  | NaN | Infinity _ => n
  end.

(** The integer a finite integral Number holds. *)
Definition integer_of (n : number) : Z :=
  match n with
  | Finite q => Qfloor q
  | NaN | Infinity _ => 0
  end.

(** [[...Array(range).keys()]]: the indices 0 .. range-1; [Array(range)] throws
    a RangeError unless the number [range] is an array length, an integer of
    0 .. 2^32 - 1. *)
Definition Array_keys (range : number) : outcome (list Z) :=
  match range with
  | Finite q =>
      let n := Qfloor q in
      if Qeq_bool q (inject_Z n) && (0 <=? n) && (n <? 2 ^ 32)
      then Returned (map Z.of_nat (seq 0 (Z.to_nat n)))
      else Threw (RangeError "Invalid array length")
  | NaN | Infinity _ => Threw (RangeError "Invalid array length")
  end.

(** [v.filter(predicate)] as the route calls it.  Only an array has a
    [filter] method; on undefined and null the property read throws, on
    anything else [filter] is undefined (no generated value is a function,
    also where an object has an own property of that name) and the call
    throws. *)
Definition call_filter (v : value) (predicate : value -> bool) : outcome value :=
  match v with
  | VArray elements => Returned (VArray (filter predicate elements))
  | VUndefined | VNull =>
      Threw (TypeError "Cannot read properties of undefined (reading 'filter')")
  | _ => Threw (TypeError "generate(...).filter is not a function")
  end.

End JS.

(* ================================================================== *)
(** * date-fns, as far as the route calls it *)

Module DateFns.
Import JS.

(** [isValid(date)]: the time value is not NaN. *)
Definition isValid (d : Date) : bool :=
  match d with
  | TimeValue _ => true
  | InvalidDate => false
  end.

(** [new Date(n)] for a number: the time value is clipped. *)
Definition Date_of_number (n : number) : Date :=
  match n with
  | Finite q =>
      if Qle_bool (Qabs q) 8640000000000000
      then TimeValue (if Qle_bool 0 q then Qfloor q else Qceiling q)
      else InvalidDate
  | _ => InvalidDate
  end.

(** [toDate(argument)]: a Date is cloned, a number is a time value, anything
    else gives an Invalid Date. *)
Definition toDate (argument : value) : Date :=
  match argument with
  | VDate d => d
  | VNumber n => Date_of_number n
  | _ => InvalidDate
  end.

(** [addLeadingZeros(number, targetLength)] *)
Definition addLeadingZeros (number : Z) (targetLength : nat) : string :=
  (if number <? 0 then "-" else "")
  ++ padStart0 targetLength (string_of_N (Z.abs_N number)).

(** A format string cut into runs of one repeated letter and single other
    characters (quoting is not modelled). *)
Inductive token : Type :=
| Run (letter : ascii) (length : nat)
| Literal (c : ascii).

Definition is_letter (c : ascii) : bool :=
  let n := N_of_ascii c in
  (((65 <=? n) && (n <=? 90)) || ((97 <=? n) && (n <=? 122)))%N.

Fixpoint tokens (formatStr : string) : list token :=
  match formatStr with
  | EmptyString => []
  | String c rest =>
      if is_letter c then
        match tokens rest with
        | Run c' n :: ts =>
            if Ascii.eqb c c' then Run c (S n) :: ts else Run c 1 :: Run c' n :: ts
        | ts => Run c 1 :: ts
        end
      else Literal c :: tokens rest
  end.

(** One token on the calendar fields of the local date.  Modelled: [y] (the
    year of the era, [yy] its last two digits), numeric [M] and [d].  The
    route's only pattern uses no other letter; on any other run this model
    raises, as date-fns does on a letter it does not know. *)
Definition format_token (y m d : Z) (t : token) : outcome string :=
  match t with
  | Literal c => Returned (String c "")
  | Run "y"%char n =>
      let year := if y >? 0 then y else 1 - y in
      Returned (addLeadingZeros (if (n =? 2)%nat then year mod 100 else year) n)
  | Run "M"%char 1 => Returned (string_of_N (Z.to_N m))
  | Run "M"%char 2 => Returned (addLeadingZeros m 2)
  | Run "d"%char n => Returned (addLeadingZeros d n)
  | Run _ _ =>
      Threw (RangeError "Format string contains a token outside the model")
  end.

Fixpoint format_tokens (y m d : Z) (ts : list token) : outcome string :=
  match ts with
  | [] => Returned ""
  | t :: rest =>
      match format_token y m d t with
      | Threw e => Threw e
      | Returned s =>
          match format_tokens y m d rest with
          | Threw e => Threw e
          | Returned s' => Returned (s ++ s')
          end
      end
  end.

(** [format(date, formatStr)]: throws a RangeError on an Invalid Date;
    otherwise formats the fields of the date in local time, which is the time
    value shifted by the zone offset ([getTimezoneOffset], in minutes) that
    the host reports for it. *)
Definition format (getTimezoneOffset : Z -> Z) (date : value) (formatStr : string)
  : outcome string :=
  match toDate date with
  | InvalidDate => Threw (RangeError "Invalid time value")
  | TimeValue t =>
      let local := t - getTimezoneOffset t * 60000 in
      let '(y, m, d) := civil_from_days (local / msPerDay) in
      format_tokens y m d (tokens formatStr)
  end.

(** The date portion a local calendar date is written as: the year of the era
    on four digits at least, month and day on two. *)
Definition yyyy_MM_dd (y m d : Z) : string :=
  addLeadingZeros (if y >? 0 then y else 1 - y) 4 ++ "-"
  ++ addLeadingZeros m 2 ++ "-" ++ addLeadingZeros d 2.

(** The calendar date of a time value in the zone of the host. *)
Definition local_date (getTimezoneOffset : Z -> Z) (t : Z) : Z * Z * Z :=
  civil_from_days ((t - getTimezoneOffset t * 60000) / msPerDay).

(** A wire string carries a time of day when it has the separator T. *)
Definition has_time_of_day (wire : string) : bool := string_mem "T" wire.

(** Digits and hyphens only. *)
Definition date_only (s : string) : bool :=
  string_forallb (fun c => is_digit c || Ascii.eqb c "-") s.

End DateFns.

(* ================================================================== *)
(** * io-ts: validations, schema nodes and the validators of the kinds used *)

Module IoTs.
Import JS.

(** The path to the value under validation (keys only). *)
Definition Context := list string.

Record ValidationError : Type :=
  mkValidationError { error_value : value; error_context : Context }.

(** [Validation<A>], an Either of errors and a decoded value. *)
Inductive Validation : Type :=
| Success (a : value)
| Failure (errors : list ValidationError).

Definition success (a : value) : Validation := Success a.
Definition failure (u : value) (c : Context) : Validation :=
  Failure [mkValidationError u c].
Definition failures (errors : list ValidationError) : Validation := Failure errors.

Definition appendContext (c : Context) (key : string) : Context :=
  (c ++ [key])%list.

(** fp-ts [pipe(ma, chain(f))] on an Either. *)
Definition chain (f : value -> Validation) (ma : Validation) : Validation :=
  match ma with
  | Failure errors => Failure errors
  | Success a => f a
  end.

(** The [_tag]s of [HasArbitrary] for which [generate] has no case. *)
Inductive OtherTag : Type :=
| UnknownType | UndefinedType | NullType | VoidType | KeyofType | LiteralType
| DictionaryType | TupleType | UnionType | IntersectionType.

(** A schema node.  Every node has a [name]; the io-ts classes add a [_tag] and
    their attributes.  A node built with [new t.Type(name, is, validate,
    encode)] has no [_tag].  For the kinds [generate] does not implement only
    the tag, the name and the node's own validator are kept: [generate] reads
    nothing else of them. *)
Inductive codec : Type :=
| Type_ (name : string) (is_ : value -> bool)
        (validate : value -> Context -> Validation)
        (encode : value -> outcome value)
| OtherType (tag : OtherTag) (name : string)
            (validate : value -> Context -> Validation)
| StringType (name : string)
| NumberType (name : string)
| BooleanType (name : string)
| ArrayType (name : string) (type : codec)
| InterfaceType (name : string) (props : list (string * codec))
| PartialType (name : string) (props : list (string * codec))
| ExactType (name : string) (type : codec)
| RefinementType (name : string) (type : codec) (predicate : value -> bool).

Definition Props := list (string * codec).

Definition name (c : codec) : string :=
  match c with
  | Type_ n _ _ _ | OtherType _ n _ | StringType n | NumberType n | BooleanType n
  | ArrayType n _ | InterfaceType n _ | PartialType n _ | ExactType n _
  | RefinementType n _ _ => n
  end.

Definition OtherTag_name (t : OtherTag) : string :=
  match t with
  | UnknownType => "UnknownType" | UndefinedType => "UndefinedType"
  | NullType => "NullType" | VoidType => "VoidType" | KeyofType => "KeyofType"
  | LiteralType => "LiteralType" | DictionaryType => "DictionaryType"
  | TupleType => "TupleType" | UnionType => "UnionType"
  | IntersectionType => "IntersectionType"
  end.

(** [codec._tag]; [None] is undefined. *)
Definition _tag (c : codec) : option string :=
  match c with
  | Type_ _ _ _ _ => None
  | OtherType t _ _ => Some (OtherTag_name t)
  | StringType _ => Some "StringType"
  | NumberType _ => Some "NumberType"
  | BooleanType _ => Some "BooleanType"
  | ArrayType _ _ => Some "ArrayType"
  | InterfaceType _ _ => Some "InterfaceType"
  | PartialType _ _ => Some "PartialType"
  | ExactType _ _ => Some "ExactType"
  | RefinementType _ _ _ => Some "RefinementType"
  end.

(** [t.string.validate], [t.number.validate], [t.boolean.validate] *)
Definition string_validate (u : value) (c : Context) : Validation :=
  if String.eqb (typeof u) "string" then success u else failure u c.
Definition number_validate (u : value) (c : Context) : Validation :=
  if String.eqb (typeof u) "number" then success u else failure u c.
Definition boolean_validate (u : value) (c : Context) : Validation :=
  if String.eqb (typeof u) "boolean" then success u else failure u c.

Section Loops.

Variable item : value -> Context -> Validation.
Variable validate : codec -> value -> Context -> Validation.

(** The loop of an array validator: every element is validated under its
    index, the errors are collected, the decoded elements replace the
    inputs. *)
Fixpoint validate_elements (us : list value) (i : N) (c : Context)
  : list ValidationError * list value :=
  match us with
  | [] => ([], [])
  | ui :: rest =>
      let result := item ui (appendContext c (string_of_N i)) in
      let '(errors, as_) := validate_elements rest (i + 1)%N c in
      match result with
      | Failure e => ((e ++ errors)%list, ui :: as_)
      | Success ai => (errors, ai :: as_)
      end
  end.

(** The loop of [t.type]: every declared key is read from the object and
    validated; a decoded value is written back. *)
Fixpoint validate_props (props : list (string * codec)) (a : object) (c : Context)
  : list ValidationError * object :=
  match props with
  | [] => ([], a)
  | (k, type) :: rest =>
      let ak := get a k in
      match validate type ak (appendContext c k) with
      | Failure e =>
          let '(errors, a') := validate_props rest a c in
          ((e ++ errors)%list, a')
      | Success vak => validate_props rest (set a k vak) c
      end
  end.

(** The loop of [t.partial]: as above, but a failure on an undefined value is
    no error, and an undefined result is not written to an absent key. *)
Fixpoint validate_partial_props (props : list (string * codec)) (a : object)
    (c : Context) : list ValidationError * object :=
  match props with
  | [] => ([], a)
  | (k, type) :: rest =>
      let ak := get a k in
      match validate type ak (appendContext c k) with
      | Failure e =>
          let '(errors, a') := validate_partial_props rest a c in
          match ak with
          | VUndefined => (errors, a')
          | _ => ((e ++ errors)%list, a')
          end
      | Success vak =>
          match vak with
          | VUndefined =>
              validate_partial_props rest
                (if hasOwnProperty a k then set a k vak else a) c
          | _ => validate_partial_props rest (set a k vak) c
          end
      end
  end.

End Loops.

(** io-ts's own accessor of the props behind [t.exact]'s argument. *)
Fixpoint exact_props (c : codec) : Props :=
  match c with
  | InterfaceType _ props | PartialType _ props => props
  | RefinementType _ type _ => exact_props type
  | _ => []
  end.

(** [stripKeys(o, props)]: the own keys of [o] that [props] declares. *)
Definition stripKeys (o : object) (props : Props) : object :=
  filter (fun kv => existsb (fun p => String.eqb (fst p) (fst kv)) props) o.

(** [errors.length > 0 ? failures(errors) : success(a)] *)
Definition of_errors (errors : list ValidationError) (a : value) : Validation :=
  match errors with
  | [] => success a
  | _ => failures errors
  end.

(** [codec.validate(u, c)] for every node kind. *)
Fixpoint validate (codec : codec) (u : value) (c : Context) : Validation :=
  match codec with
  | Type_ _ _ validate_ _ => validate_ u c
  | OtherType _ _ validate_ => validate_ u c
  | StringType _ => string_validate u c
  | NumberType _ => number_validate u c
  | BooleanType _ => boolean_validate u c
  | ArrayType _ item =>
      match u with
      | VArray us =>
          let '(errors, as_) := validate_elements (validate item) us 0%N c in
          of_errors errors (VArray as_)
      | _ => failure u c
      end
  | InterfaceType _ props =>
      match u with
      | VObject o =>
          let '(errors, a) := validate_props validate props o c in
          of_errors errors (VObject a)
      | _ => failure u c
      end
  | PartialType _ props =>
      match u with
      | VObject o =>
          let '(errors, a) := validate_partial_props validate props o c in
          of_errors errors (VObject a)
      | _ => failure u c
      end
  | ExactType _ type =>
      match u with
      | VObject _ =>
          match validate type u c with
          | Failure errors => Failure errors
          | Success (VObject a) => success (VObject (stripKeys a (exact_props type)))
          | Success a => success a
          end
      | _ => failure u c
      end
  | RefinementType _ type predicate =>
      match validate type u c with
      | Failure errors => Failure errors
      | Success a => if predicate a then success a else failure a c
      end
  end.

(** A validator accepts [u]: under every context the result is a success. *)
Definition accepts (validate : value -> Context -> Validation) (u : value) : Prop :=
  forall c : Context, exists a, validate u c = Success a.

(** [codec.decode(u)]: validation at the root context. *)
Definition decode (codec : codec) (u : value) : Validation :=
  validate codec u [].

(** The default names io-ts gives to [t.type] and [t.array] nodes. *)
Fixpoint join_props (props : Props) : string :=
  match props with
  | [] => ""
  | [(k, type)] => k ++ ": " ++ name type
  | (k, type) :: rest => k ++ ": " ++ name type ++ ", " ++ join_props rest
  end.

Definition t_string : codec := StringType "string".
Definition t_number : codec := NumberType "number".
Definition t_boolean : codec := BooleanType "boolean".
Definition t_array (item : codec) : codec :=
  ArrayType ("Array<" ++ name item ++ ">") item.
Definition t_type (props : Props) : codec :=
  InterfaceType ("{ " ++ join_props props ++ " }") props.
Definition t_partial (props : Props) : codec :=
  PartialType ("Partial<{ " ++ join_props props ++ " }>") props.

End IoTs.

(* ================================================================== *)
(** * The random source and the generator's effects *)

Module Random.
Import JS.

(** The primitives the generator draws from, over a state [S] of the
    process-wide random source: [Math.random()] and the faker calls of the
    route.  Each takes the state and returns its result and the next state. *)
Record RandomSource (S : Type) : Type := mkRandomSource {
  Math_random : S -> Q * S;                        (* the value of the Number *)
  faker_date_past : S -> Date * S;
  faker_datatype_uuid : S -> string * S;
  faker_datatype_float : Q -> S -> number * S;     (* the [precision] option *)
  faker_datatype_string : S -> string * S;
  faker_datatype_number : S -> number * S;
  faker_datatype_boolean : S -> bool * S
}.
Arguments Math_random {S} _ _.
Arguments faker_date_past {S} _ _.
Arguments faker_datatype_uuid {S} _ _.
Arguments faker_datatype_float {S} _ _ _.
Arguments faker_datatype_string {S} _ _.
Arguments faker_datatype_number {S} _ _.
Arguments faker_datatype_boolean {S} _ _.

(** faker's contract for [float]: the result is a multiple of the precision
    it was given. *)
Definition float_has_precision {S : Type} (rng : RandomSource S) : Prop :=
  forall (precision : Q) (s : S),
    exists (k : Z) (q : Q),
      fst (faker_datatype_float rng precision s) = Finite q
      /\ q == inject_Z k * precision.

(** A computation that consumes randomness and returns or throws. *)
Definition Gen (S A : Type) : Type := S -> outcome A * S.

Definition ret {S A : Type} (a : A) : Gen S A := fun s => (Returned a, s).

Definition bind {S A B : Type} (m : Gen S A) (k : A -> Gen S B) : Gen S B :=
  fun s =>
    match m s with
    | (Returned a, s') => k a s'
    | (Threw e, s') => (Threw e, s')
    end.

(** A draw from the source never throws. *)
Definition draw {S A : Type} (f : S -> A * S) : Gen S A :=
  fun s => let '(a, s') := f s in (Returned a, s').

(** A call that uses no randomness. *)
Definition lift {S A : Type} (o : outcome A) : Gen S A := fun s => (o, s).

Notation "x <- m ;; k" := (bind m (fun x => k))
  (at level 61, m at next level, right associativity).

Section Traversals.

Context {S A B : Type}.
Variable f : A -> Gen S B.

(** [xs.map(f)], the calls made from left to right. *)
Fixpoint Array_map (xs : list A) : Gen S (list B) :=
  match xs with
  | [] => ret []
  | x :: rest =>
      b <- f x ;;
      bs <- Array_map rest ;;
      ret (b :: bs)
  end.

(** fp-ts [record.map(fa, f)]: [f] on every own property, in iteration
    order, into a new object with the same keys. *)
Fixpoint record_map (fa : list (string * A)) : Gen S (list (string * B)) :=
  match fa with
  | [] => ret []
  | (k, a) :: rest =>
      b <- f a ;;
      out <- record_map rest ;;
      ret ((k, b) :: out)
  end.

End Traversals.

End Random.

(* ================================================================== *)
(** * The quotation route: [getProps], [generate], the branded codecs, [loader] *)

Module Route.
Import JS IoTs Random.

(** What the route takes from its host and from decimal.js: [parseISO] of
    date-fns (not modelled: any function from strings to dates), the zone
    offset of the host, [new Decimal(n)] on a number and [Decimal.toNumber]. *)
Record Env : Type := mkEnv {
  parseISO : string -> Date;
  getTimezoneOffset : Z -> Z;
  new_Decimal : number -> outcome Decimal;
  toNumber : Decimal -> number
}.

(** [getProps(codec)]: [None] is the undefined the function returns when no
    case of its switch matches. *)
Fixpoint getProps (codec : codec) : option Props :=
  match codec with
  | InterfaceType _ props | PartialType _ props => Some props
  | ExactType _ type => getProps type
  | _ => None
  end.

(** [record.map] iterates with [for .. in], which runs no step on undefined
    and so returns an empty object. *)
Definition props_or_empty (props : option Props) : Props :=
  match props with
  | Some props => props
  | None => []
  end.

(** The three struct kinds. *)
Definition struct_kind (c : codec) : bool :=
  match c with
  | InterfaceType _ _ | PartialType _ _ | ExactType _ _ => true
  | _ => false
  end.

(** The three names [generate] tests before its switch. *)
Definition reserved (n : string) : bool :=
  String.eqb n "DateFromStringISO" || String.eqb n "Uuid"
  || String.eqb n "CurrencyFromString".

Section Generate.

Context {S : Type} (rng : RandomSource S).

(** [generate(codec)].  The three name tests come first, then the switch on
    the tag; a node no case matches falls out of the switch and the function
    returns undefined.  The struct case reads [getProps(type)]: for an
    [ExactType] the local [unwrap] walks to the props as [getProps] does, so
    that the recursion stays structural. *)
Fixpoint generate (codec : codec) : Gen S value :=
  if String.eqb (name codec) "DateFromStringISO" then
    date <- draw (faker_date_past rng) ;;
    iso <- lift (toISOString date) ;;
    ret (VString iso)
  else if String.eqb (name codec) "Uuid" then
    uuid <- draw (faker_datatype_uuid rng) ;;
    ret (VString uuid)
  else if String.eqb (name codec) "CurrencyFromString" then
    float <- draw (faker_datatype_float rng (1 # 100)) ;;
    ret (VNumber float)
  else
    match codec with
    | StringType _ =>
        s <- draw (faker_datatype_string rng) ;;
        ret (VString s)
    | NumberType _ =>
        n <- draw (faker_datatype_number rng) ;;
        ret (VNumber n)
    | BooleanType _ =>
        b <- draw (faker_datatype_boolean rng) ;;
        ret (VBoolean b)
    | ArrayType _ type =>
        r <- draw (Math_random rng) ;;
        let range := Math_floor (multiply r 10) in
        keys <- lift (Array_keys range) ;;
        elements <- Array_map (fun _ => generate type) keys ;;
        ret (VArray elements)
    | InterfaceType _ props | PartialType _ props =>
        fields <- record_map generate props ;;
        ret (VObject fields)
    | ExactType _ type =>
        fields <-
          (fix unwrap (inner : IoTs.codec) : Gen S (list (string * value)) :=
             match inner with
             | InterfaceType _ props | PartialType _ props =>
                 record_map generate props
             | ExactType _ type' => unwrap type'
             | _ => ret []
             end) type ;;
        ret (VObject fields)
    | RefinementType _ type predicate =>
        candidate <- generate type ;;
        lift (call_filter candidate predicate)
    | Type_ _ _ _ _ | OtherType _ _ _ => ret VUndefined
    end.

End Generate.

Section Codecs.

Variable env : Env.

(** [Uuid]: recognises [String] objects, validates as [t.string], encodes by
    identity. *)
Definition Uuid_is (u : value) : bool := instanceof_String u.
Definition Uuid_validate (u : value) (c : Context) : Validation :=
  string_validate u c.
Definition Uuid_encode (a : value) : outcome value := Returned a.

Definition Uuid : codec := Type_ "Uuid" Uuid_is Uuid_validate Uuid_encode.

(** [CurrencyFromString]: a number from which [new Decimal] constructs a
    [Decimal] without throwing; encoded with [toNumber]. *)
Definition CurrencyFromString_is (u : value) : bool := instanceof_Decimal u.
Definition CurrencyFromString_validate (s : value) (c : Context) : Validation :=
  chain (fun s =>
           match s with
           | VNumber n =>
               match new_Decimal env n with
               | Returned d => success (VDecimal d)
               | Threw _ => failure s c
               end
           | _ => failure s c
           end)
        (number_validate s c).
Definition CurrencyFromString_encode (a : value) : outcome value :=
  match a with
  | VDecimal d => Returned (VNumber (toNumber env d))
  | _ => Threw (TypeError "a.toNumber is not a function")
  end.

Definition CurrencyFromString : codec :=
  Type_ "CurrencyFromString" CurrencyFromString_is CurrencyFromString_validate
    CurrencyFromString_encode.

(** [DateFromISOString]: a string that [parseISO] turns into a valid date;
    encoded by [format] with the pattern yyyy-MM-dd. *)
Definition DateFromISOString_is (u : value) : bool := instanceof_Date u.
Definition DateFromISOString_validate (s : value) (c : Context) : Validation :=
  chain (fun s =>
           match s with
           | VString str =>
               let parsedDate := parseISO env str in
               if DateFns.isValid parsedDate
               then success (VDate parsedDate)
               else failure s c
           | _ => failure s c
           end)
        (string_validate s c).
Definition DateFromISOString_encode (date : value) : outcome value :=
  match DateFns.format (getTimezoneOffset env) date "yyyy-MM-dd" with
  | Returned s => Returned (VString s)
  | Threw e => Threw e
  end.

Definition DateFromISOString : codec :=
  Type_ "DateFromStringISO" DateFromISOString_is DateFromISOString_validate
    DateFromISOString_encode.

Definition QuotationCodec : codec :=
  t_type
    [ ("id", Uuid);
      ("createdAt", DateFromISOString);
      ("productComboId", Uuid);
      ("totalAmount", CurrencyFromString);
      ("validUntil", DateFromISOString);
      ("productQuotations",
        t_array
          (t_type
             [ ("amountNetOfIof", CurrencyFromString);
               ("totalAmount", CurrencyFromString);
               ("iofAmount", CurrencyFromString) ])) ].

End Codecs.

(** The contract of [Math.random]: a number in [0, 1). *)
Definition random_in_unit_interval {S : Type} (rng : RandomSource S) : Prop :=
  forall s : S, (0 <= fst (Math_random rng s) /\ fst (Math_random rng s) < 1)%Q.

(** The integer [range] of an array node, [Math.floor(Math.random() * 10)],
    that [generate] computes from the state [s]. *)
Definition range_at {S : Type} (rng : RandomSource S) (s : S) : Z :=
  integer_of (Math_floor (multiply (fst (Math_random rng s)) 10)).

(** What [Math.random] returns is a Number: the value of a binary64. *)
Definition random_is_binary64 {S : Type} (rng : RandomSource S) : Prop :=
  forall s : S, is_binary64 (fst (Math_random rng s)).

(** [v] is what [generate(type)] returns from some state of the source. *)
Definition generated_by {S : Type} (rng : RandomSource S) (type : codec) (v : value)
  : Prop :=
  exists s s' : S, generate rng type s = (Returned v, s').

(** [generate(type)] returns (does not throw) from every state. *)
Definition always_returns {S : Type} (rng : RandomSource S) (type : codec) : Prop :=
  forall s : S, exists v s', generate rng type s = (Returned v, s').

(** A field of a generated object against its declaration: the same key,
    bound to a value generated from the field's node. *)
Definition field_generated {S : Type} (rng : RandomSource S)
    (declared : string * codec) (field : string * value) : Prop :=
  fst field = fst declared /\ generated_by rng (snd declared) (snd field).

(** ** The nodes the round-trip contract speaks of *)

Section Supported.

Variable env : Env.

(** One of the three branded codecs of the route. *)
Definition branded (c : codec) : Prop :=
  c = Uuid \/ c = CurrencyFromString env \/ c = DateFromISOString env.

(** A node built only from the supported kinds, as the contract lists them:
    string, number and boolean leaves, arrays, the three struct kinds
    (an exact node wrapping an interface or a partial node), refinements and
    the three branded codecs.  The keys of a struct are distinct, being the
    own keys of an object. *)
Fixpoint supported_kinds (c : codec) : Prop :=
  match c with
  | Type_ _ _ _ _ => branded c
  | OtherType _ _ _ => False
  | StringType _ | NumberType _ | BooleanType _ => True
  | ArrayType _ type => supported_kinds type
  | InterfaceType _ props | PartialType _ props =>
      NoDup (map fst props)
      /\ (fix fields (ps : Props) : Prop :=
            match ps with
            | [] => True
            | (_, type) :: rest => supported_kinds type /\ fields rest
            end) props
  | ExactType _ type =>
      match type with
      | InterfaceType _ props | PartialType _ props =>
          NoDup (map fst props)
          /\ (fix fields (ps : Props) : Prop :=
                match ps with
                | [] => True
                | (_, type) :: rest => supported_kinds type /\ fields rest
                end) props
      | _ => False
      end
  | RefinementType _ type _ => supported_kinds type
  end.

(** A node that [generate] dispatches on carries a reserved name whose
    short-circuit yields another type of value than the node decodes: a number
    for a string leaf, a string for a number leaf, a string or a number for a
    boolean leaf, an array or a struct.  (A string leaf named ["Uuid"] or
    ["DateFromStringISO"] and a number leaf named ["CurrencyFromString"] do
    not clash: the short-circuit yields a string, respectively a number.) *)
Definition name_clash (c : codec) : bool :=
  match c with
  | StringType n => String.eqb n "CurrencyFromString"
  | NumberType n => String.eqb n "DateFromStringISO" || String.eqb n "Uuid"
  | BooleanType n | ArrayType n _ | InterfaceType n _ | PartialType n _
  | ExactType n _ => reserved n
  | Type_ _ _ _ _ | RefinementType _ _ _ | OtherType _ _ _ => false
  end.

(** The same without refinements, and with no name clash on a leaf, an array
    or a struct node that [generate] dispatches on.  (The struct node inside
    an exact node is never dispatched on: only its props are read.) *)
Fixpoint supported (c : codec) : Prop :=
  match c with
  | Type_ _ _ _ _ => branded c
  | OtherType _ _ _ => False
  | StringType n => String.eqb n "CurrencyFromString" = false
  | NumberType n => String.eqb n "DateFromStringISO" || String.eqb n "Uuid" = false
  | BooleanType n => reserved n = false
  | ArrayType n type => reserved n = false /\ supported type
  | InterfaceType n props | PartialType n props =>
      reserved n = false
      /\ NoDup (map fst props)
      /\ (fix fields (ps : Props) : Prop :=
            match ps with
            | [] => True
            | (_, type) :: rest => supported type /\ fields rest
            end) props
  | ExactType n type =>
      reserved n = false
      /\ match type with
         | InterfaceType _ props | PartialType _ props =>
             NoDup (map fst props)
             /\ (fix fields (ps : Props) : Prop :=
                   match ps with
                   | [] => True
                   | (_, type) :: rest => supported type /\ fields rest
                   end) props
         | _ => False
         end
  | RefinementType _ _ _ => False
  end.

(** The fields behind a struct node, whatever the node's own name. *)
Definition struct_body_supported (c : codec) : Prop :=
  match c with
  | InterfaceType _ props | PartialType _ props =>
      NoDup (map fst props) /\ Forall (fun p => supported (snd p)) props
  | _ => False
  end.

(** decimal.js constructs a [Decimal] from every number. *)
Definition Decimal_constructs : Prop :=
  forall n : number, exists d, new_Decimal env n = Returned d.

End Supported.

(** [faker.date.past()] is a valid date. *)
Definition dates_valid {S : Type} (rng : RandomSource S) : Prop :=
  forall s : S, DateFns.isValid (fst (faker_date_past rng s)) = true.

(** date-fns reads the ISO string of every date [faker.date.past()] draws:
    [parseISO] of it is a valid date. *)
Definition parseISO_reads_drawn_dates {S : Type} (rng : RandomSource S) (env : Env)
  : Prop :=
  forall (s : S) (iso : string),
    toISOString (fst (faker_date_past rng s)) = Returned iso ->
    DateFns.isValid (parseISO env iso) = true.

(** The validator of [c] accepts every value [generate(c)] returns. *)
Definition decodes {S : Type} (rng : RandomSource S) (c : codec) : Prop :=
  forall v : value, generated_by rng c v -> accepts (validate c) v.

(** What the round-trip induction carries for a node: the round trip when the
    node is supported, and, for a struct node read through [getProps] only,
    the round trip of its fields. *)
Definition node_ok {S : Type} (rng : RandomSource S) (env : Env) (c : codec) : Prop :=
  (supported env c -> always_returns rng c /\ decodes rng c)
  /\ (struct_body_supported env c ->
      (forall s, exists fields s',
          record_map (generate rng) (props_or_empty (getProps c)) s
          = (Returned fields, s'))
      /\ (forall fields,
             Forall2 (field_generated rng) (props_or_empty (getProps c)) fields ->
             accepts (validate c) (VObject fields))).

(** [codec.decode] accepts what [generate(codec)] returns, from every state. *)
Definition round_trips {S : Type} (rng : RandomSource S) (c : codec) : Prop :=
  forall s : S,
    exists (v : value) (s' : S) (a : value),
      generate rng c s = (Returned v, s') /\ decode c v = Success a.

(** How the promise of [loader] settles: resolved with the decoded quotation
    (which [superjson] wraps in the response), rejected with the decode
    errors, or rejected with what [generate] threw. *)
Inductive settled : Type :=
| Resolved (quotation : value)
| RejectedDecode (errors : list ValidationError)
| RejectedThrow (e : exn).

(** [loader]: generate a value for [QuotationCodec] and decode it. *)
Definition loader {S : Type} (rng : RandomSource S) (env : Env) (s : S)
  : settled * S :=
  match generate rng (QuotationCodec env) s with
  | (Threw e, s') => (RejectedThrow e, s')
  | (Returned wire, s') =>
      match decode (QuotationCodec env) wire with
      | Success quotation => (Resolved quotation, s')
      | Failure errors => (RejectedDecode errors, s')
      end
  end.

End Route.

(* ================================================================== *)
(** * A seeded random source and a host, for running the route *)

Module Sample.
Import JS IoTs Random Route.

(** A linear congruential generator on 31 bits. *)
Definition next (s : Z) : Z := (1103515245 * s + 12345) mod 2147483648.

Definition hex_digit (n : Z) : ascii :=
  let d := Z.to_N (n mod 16) in
  if (d <? 10)%N then ascii_of_N (48 + d) else ascii_of_N (87 + d).

Fixpoint hex (width : nat) (n : Z) : string :=
  match width with
  | O => ""
  | S w => hex w (n / 16) ++ String (hex_digit n) ""
  end.

Fixpoint printable (len : nat) (s : Z) : string :=
  match len with
  | O => ""
  | S len' => String (ascii_of_N (33 + Z.to_N (next s mod 94))) (printable len' (next s))
  end.

(** The binary64 number nearest to [k] thousandths, as the literal [0.655]
    denotes one. *)
Definition thousandth (k : Z) : Q := binary64_nearest (k # 1000).

(** The reference date of [faker.date.past()]: 2022-11-02T00:00:00.000Z. *)
Definition refDate : Z := 1667347200000.
Definition msPerYear : Z := 365 * msPerDay.

Definition seeded : RandomSource Z := {|
  Math_random := fun s => (thousandth ((next s / 65536) mod 1000), next s);
  faker_date_past := fun s =>
    (TimeValue (refDate - 1 - (next s * 65536) mod msPerYear), next s);
  faker_datatype_uuid := fun s =>
    let a := next s in let b := next a in let c := next b in
    (hex 8 a ++ "-" ++ hex 4 b ++ "-4" ++ hex 3 (b / 65536) ++ "-a"
     ++ hex 3 c ++ "-" ++ hex 12 (c * 65536 + a), c);
  faker_datatype_float := fun precision s =>
    (Finite (inject_Z (next s mod 9999901) * precision), next s);
  faker_datatype_string := fun s => (printable 10 s, next s);
  faker_datatype_number := fun s => (Finite (inject_Z (next s mod 100000)), next s);
  faker_datatype_boolean := fun s => (Z.odd (next s / 65536), next s)
|}.

(** Reading the format that [toISOString] writes: an optional sign, then runs
    of digits between the separators.  The fields are not range-checked. *)
Fixpoint take_digits (s : string) : string * string :=
  match s with
  | EmptyString => ("", "")
  | String c rest =>
      if is_digit c
      then let '(ds, rest') := take_digits rest in (String c ds, rest')
      else ("", s)
  end.

Fixpoint number_of_digits (acc : Z) (ds : string) : Z :=
  match ds with
  | EmptyString => acc
  | String c rest => number_of_digits (10 * acc + (Z.of_N (N_of_ascii c) - 48)) rest
  end.

(** A run of digits followed by the separator [sep]. *)
Definition field (sep : ascii) (s : string) : option (Z * string) :=
  match take_digits s with
  | (EmptyString, _) => None
  | (ds, String c rest) =>
      if Ascii.eqb c sep then Some (number_of_digits 0 ds, rest) else None
  | (_, EmptyString) => None
  end.

Definition signed (s : string) : Z * string :=
  match s with
  | String "-"%char rest => (-1, rest)
  | String "+"%char rest => (1, rest)
  | _ => (1, s)
  end.

Definition parseISO_basic (s : string) : Date :=
  let '(sign, s) := signed s in
  match field "-" s with
  | None => InvalidDate
  | Some (y, s) =>
  match field "-" s with
  | None => InvalidDate
  | Some (m, s) =>
  match field "T" s with
  | None => InvalidDate
  | Some (d, s) =>
  match field ":" s with
  | None => InvalidDate
  | Some (hh, s) =>
  match field ":" s with
  | None => InvalidDate
  | Some (mm, s) =>
  match field "." s with
  | None => InvalidDate
  | Some (ss, s) =>
  match field "Z" s with
  | Some (ms, EmptyString) =>
      TimeValue (days_from_civil (sign * y) m d * msPerDay
                 + hh * 3600000 + mm * 60000 + ss * 1000 + ms)
  | _ => InvalidDate
  end end end end end end end.

(** A sample conversion to a decimal that keeps two decimal places. *)
Definition Decimal_of_number (n : number) : Decimal :=
  match n with
  | Finite q =>
      DecimalFinite (negb (Qle_bool 0 q)) (Z.abs_N (Qfloor (Qabs q * 100))) (-2)
  | NaN => DecimalNaN
  | Infinity negative => DecimalInfinity negative
  end.

Definition number_of_Decimal (d : Decimal) : number :=
  match d with
  | DecimalNaN => NaN
  | DecimalInfinity negative => Infinity negative
  | DecimalFinite negative coefficient exponent =>
      let c := (if negative then -1 else 1) * Z.of_N coefficient in
      Finite (if 0 <=? exponent
              then inject_Z (c * 10 ^ exponent)
              else Qred (c # Z.to_pos (10 ^ (- exponent))))
  end.

(** A host three hours behind UTC. *)
Definition host : Env := {|
  parseISO := parseISO_basic;
  getTimezoneOffset := fun _ => 180;
  new_Decimal := fun n => Returned (Decimal_of_number n);
  toNumber := number_of_Decimal
|}.

End Sample.

(* ================================================================== *)
(** * app/utils.ts: [validateEmail] and the user helpers *)

Module Accounts.
Import JS.

(** [String.prototype.includes] *)
Fixpoint includes (s searchString : string) : bool :=
  String.prefix searchString s
  || match s with
     | EmptyString => false
     | String _ rest => includes rest searchString
     end.

(** [validateEmail(email)]; a string is the sequence of its code units, so
    [email.length] is the length of that sequence. *)
Definition validateEmail (email : value) : bool :=
  String.eqb (typeof email) "string"
  && match email with
     | VString s => (3 <? Z.of_nat (String.length s)) && includes s "@"
     | _ => false
     end.

(** Whether a value counts as true in a condition. *)
Definition truthy (v : value) : bool :=
  match v with
  | VUndefined | VNull => false
  | VBoolean b => b
  | VNumber (Finite q) => negb (Qeq_bool q 0)
  | VNumber NaN => false
  | VNumber (Infinity _) => true
  | VString s => negb (String.eqb s "")
  | VStringObject _ | VArray _ | VObject _ | VDate _ | VDecimal _ => true
  end.

(** [v.key] for a key that no built-in object has ([user] and [email] are
    such keys), read from a value that is not undefined or null: an own
    property of a plain object, undefined on anything else. *)
Definition member (v : value) (key : string) : value :=
  match v with
  | VObject a => get a key
  | _ => VUndefined
  end.

(** A matched route, as [useMatches()] lists them: its id and its loader
    data. *)
Record RouteMatch : Type := mkRouteMatch { id : string; data : value }.

(** [useMatchesData(id)], on the routes [useMatches()] returned:
    [route?.data] of the first route with that id. *)
Definition useMatchesData (matchingRoutes : list RouteMatch) (id_ : string) : value :=
  match find (fun route => String.eqb (id route) id_) matchingRoutes with
  | Some route => data route
  | None => VUndefined
  end.

(** [isUser(user)]: the value of
    [user && typeof user === "object" && typeof user.email === "string"],
    which is [user] itself when [user] is falsy. *)
Definition isUser (user : value) : value :=
  if truthy user
  then VBoolean (String.eqb (typeof user) "object"
                 && String.eqb (typeof (member user "email")) "string")
  else user.

(** [useOptionalUser()] *)
Definition useOptionalUser (matchingRoutes : list RouteMatch) : value :=
  let data := useMatchesData matchingRoutes "root" in
  if negb (truthy data) || negb (truthy (isUser (member data "user")))
  then VUndefined
  else member data "user".

(** A call that returns, or throws an [Error] with a message. *)
Inductive completion : Type :=
| Returns (v : value)
| ThrowsError (message : string).

(** [useUser()] *)
Definition useUser (matchingRoutes : list RouteMatch) : completion :=
  let maybeUser := useOptionalUser matchingRoutes in
  if negb (truthy maybeUser)
  then ThrowsError "No user found in root loader, but user is required by useUser. If user is optional, try useOptionalUser instead."
  else Returns maybeUser.

(** What the properties call a user: an object whose [email] is a string. *)
Definition has_string_email (user : value) : Prop :=
  typeof user = "object" /\ user <> VNull /\ exists email, member user "email" = VString email.

End Accounts.

(* ================================================================== *)
(** * app/utils.ts: the [superjson] and [redirect] responses *)

Module Responses.
Import JS.

Definition lowercase_char (c : ascii) : ascii :=
  let n := N_of_ascii c in
  if ((65 <=? n) && (n <=? 90))%N then ascii_of_N (n + 32) else c.

Fixpoint lowercase (s : string) : string :=
  match s with
  | EmptyString => EmptyString
  | String c rest => String (lowercase_char c) (lowercase rest)
  end.

(** The header list of a [Headers] object: names in lower case (they are
    compared without regard to case), in the order they were added. *)
Definition Headers := list (string * string).

(** [{status?, statusText?, headers?}], the headers given as a record or as a
    list of pairs, the status an integer.  (A [Headers] object as [headers]
    and a status that is no integer are not modelled.) *)
Record ResponseInit : Type := mkResponseInit {
  status : option Z;
  statusText : option string;
  headers : option (list (string * string))
}.

(** [number | ResponseInit] *)
Inductive Init : Type :=
| InitNumber (n : Z)
| InitObject (o : ResponseInit).

(** A response: its body ([None] is null), status, status text and header
    list. *)
Record Response : Type := mkResponse {
  body : option string;
  response_status : Z;
  response_statusText : string;
  response_headers : Headers
}.

(** The conversion of an integer to the [unsigned short] of [init.status]. *)
Definition unsigned_short (n : Z) : Z := n mod 65536.

(** A status with which a response has no body. *)
Definition null_body_status (st : Z) : bool :=
  (st =? 101) || (st =? 103) || (st =? 204) || (st =? 205) || (st =? 304).

(** A byte of a reason phrase: a tab, a space, a visible character or a byte
    above 127. *)
Definition reason_phrase_char (c : ascii) : bool :=
  let n := N_of_ascii c in
  ((n =? 9) || (n =? 32) || ((33 <=? n) && (n <=? 126)) || (128 <=? n))%N.

Section Platform.

(** What the platform's [Headers] does with a name and a value: whether it
    accepts them (it throws a TypeError otherwise) and the value it stores. *)
Variable valid : string -> string -> bool.
Variable normalize : string -> string.

(** [_superjson.stringify] *)
Variable stringify : value -> string.

(** [headers.has(name)] *)
Definition Headers_has (h : Headers) (name : string) : bool :=
  existsb (fun e => String.eqb (fst e) (lowercase name)) h.


(** [headers.append(name, value)] *)
Definition Headers_append (h : Headers) (name value : string) : outcome Headers :=
  if valid name value
  then Returned (h ++ [(lowercase name, normalize value)])%list
  else Threw (TypeError "Invalid header").

(** The first header of the name takes the value, the others of that name
    are removed. *)
Fixpoint set_first (h : Headers) (name value : string) : Headers :=
  match h with
  | [] => []
  | (n, v) :: rest =>
      if String.eqb n name
      then (n, value) :: filter (fun e => negb (String.eqb (fst e) name)) rest
      else (n, v) :: set_first rest name value
  end.

(** [headers.set(name, value)] *)
Definition Headers_set (h : Headers) (name value : string) : outcome Headers :=
  if valid name value
  then Returned (if Headers_has h name
                 then set_first h (lowercase name) (normalize value)
                 else (h ++ [(lowercase name, normalize value)])%list)
  else Threw (TypeError "Invalid header").

(** Filling a header list from the entries of an init, in order. *)
Fixpoint fill (h : Headers) (entries : list (string * string)) : outcome Headers :=
  match entries with
  | [] => Returned h
  | (name, value) :: rest =>
      match Headers_append h name value with
      | Returned h' => fill h' rest
      | Threw e => Threw e
      end
  end.

(** [new Headers(init)]; [None] is undefined. *)
Definition new_Headers (init : option (list (string * string))) : outcome Headers :=
  match init with
  | None => Returned []
  | Some entries => fill [] entries
  end.

(** [new Response(body, {status, statusText, headers})] with a string or
    null as body and a [Headers] object as headers, as the Fetch standard
    initialises a response: the status defaults to 200 and the status text to
    the empty string; a RangeError unless the status is in 200..599; a
    TypeError when the status text is no reason phrase; the headers are
    copied; a TypeError when there is a body and the status is a null body
    status; a string body adds its content type when the headers have none. *)
Definition new_Response (body : option string) (status : option Z)
    (statusText : option string) (headers : Headers) : outcome Response :=
  let st := match status with Some n => unsigned_short n | None => 200 end in
  let text := match statusText with Some t => t | None => "" end in
  if negb ((200 <=? st) && (st <=? 599)) then
    Threw (RangeError "init[status] must be in the range of 200 to 599, inclusive.")
  else if negb (string_forallb reason_phrase_char text) then
    Threw (TypeError "Invalid statusText")
  else
    match body with
    | None => Returned (mkResponse None st text headers)
    | Some b =>
        if null_body_status st then
          Threw (TypeError "Response with null body status cannot have body")
        else
          Returned
            (mkResponse (Some b) st text
               (if Headers_has headers "Content-Type" then headers
                else (headers ++ [("content-type", "text/plain;charset=UTF-8")])%list))
    end.

(** [superjson(data, init)] *)
Definition superjson (data : value) (init : Init) : outcome Response :=
  let responseInit :=
    match init with
    | InitNumber n => mkResponseInit (Some n) None None
    | InitObject o => o
    end in
  match new_Headers (headers responseInit) with
  | Threw e => Threw e
  | Returned h =>
      match (if negb (Headers_has h "Content-Type")
             then Headers_set h "Content-Type" "application/json; charset=utf-8"
             else Returned h) with
      | Threw e => Threw e
      | Returned h' =>
          new_Response (Some (stringify data)) (status responseInit)
            (statusText responseInit) h'
      end
  end.

(** The call with [init] left out: [init = {}]. *)
Definition superjson_default (data : value) : outcome Response :=
  superjson data (InitObject (mkResponseInit None None None)).

(** [redirect(url, init)]: what the call does, and the caller's [init]
    after the call (the function writes [status] into an init object that
    has none). *)
Definition redirect (url : string) (init : Init) : outcome Response * Init :=
  let responseInit :=
    match init with
    | InitNumber n => mkResponseInit (Some n) None None
    | InitObject o =>
        match status o with
        | None => mkResponseInit (Some 302) (statusText o) (headers o)
        | Some _ => o
        end
    end in
  let init_after :=
    match init with
    | InitNumber n => InitNumber n
    | InitObject _ => InitObject responseInit
    end in
  match new_Headers (headers responseInit) with
  | Threw e => (Threw e, init_after)
  | Returned h =>
      match Headers_set h "Location" url with
      | Threw e => (Threw e, init_after)
      | Returned h' =>
          (new_Response None (status responseInit) (statusText responseInit) h',
           init_after)
      end
  end.

(** The call with [init] left out: [init = 302]. *)
Definition redirect_default (url : string) : outcome Response * Init :=
  redirect url (InitNumber 302).

End Platform.

End Responses.

(* ================================================================== *)
(** * Shapes of schema nodes and of the loader's quotation *)

Module Shapes.
Import JS IoTs Random Route.

(** No refinement node anywhere in the schema. *)
Fixpoint refinement_free (c : codec) : Prop :=
  match c with
  | Type_ _ _ _ _ | OtherType _ _ _
  | StringType _ | NumberType _ | BooleanType _ => True
  | ArrayType _ type | ExactType _ type => refinement_free type
  | InterfaceType _ props | PartialType _ props =>
      (fix fields (ps : Props) : Prop :=
         match ps with
         | [] => True
         | (_, type) :: rest => refinement_free type /\ fields rest
         end) props
  | RefinementType _ _ _ => False
  end.

Definition is_array (v : value) : bool :=
  match v with VArray _ => true | _ => false end.

(** The predicate [a => a.length > 0] on the values the generator applies it
    to, arrays and strings: the array has an element, the string a code unit.
    (A boolean or a number has no [length], and [undefined > 0] is false.) *)
Definition length_positive (a : value) : bool :=
  match a with
  | VArray elements => negb (Nat.eqb (List.length elements) 0)
  | VString s | VStringObject s => negb (Nat.eqb (String.length s) 0)
  | _ => false
  end.

(** A node for which [generate] cannot return an array: one with a reserved
    name, or any node that is neither an array nor a refinement node. *)
Definition never_array (c : codec) : bool :=
  reserved (name c)
  || match c with
     | ArrayType _ _ | RefinementType _ _ _ => false
     | _ => true
     end.

(** The schema of one product quotation, as [QuotationCodec] has it under
    [productQuotations]. *)
Definition item_codec (env : Env) : codec :=
  t_type
    [ ("amountNetOfIof", CurrencyFromString env);
      ("totalAmount", CurrencyFromString env);
      ("iofAmount", CurrencyFromString env) ].

(** One decoded product quotation: three decimals under the declared keys. *)
Definition product_quotation_shape (v : value) : Prop :=
  exists amountNetOfIof totalAmount iofAmount : Decimal,
    v = VObject [ ("amountNetOfIof", VDecimal amountNetOfIof);
                  ("totalAmount", VDecimal totalAmount);
                  ("iofAmount", VDecimal iofAmount) ].

(** The decoded quotation: strings for the ids, valid dates, decimals for the
    amounts, fewer than ten product quotations. *)
Definition quotation_shape (v : value) : Prop :=
  exists (id productComboId : string) (createdAt validUntil : Z)
         (totalAmount : Decimal) (productQuotations : list value),
    v = VObject [ ("id", VString id);
                  ("createdAt", VDate (TimeValue createdAt));
                  ("productComboId", VString productComboId);
                  ("totalAmount", VDecimal totalAmount);
                  ("validUntil", VDate (TimeValue validUntil));
                  ("productQuotations", VArray productQuotations) ]
    /\ (List.length productQuotations < 10)%nat
    /\ Forall product_quotation_shape productQuotations.

End Shapes.

(* ================================================================== *)
(** * Properties of [safeRedirect] *)

Module UtilsFacts.
Import Utils.

Lemma prefix_begins_with (p s : string) :
  String.prefix p s = true <-> begins_with p s.
Proof.
  unfold begins_with. revert s.
  induction p as [|a p IH]; intros s; simpl.
  - split; [intros _; now exists s | intros _; now destruct s].
  - destruct s as [|b s].
    + split; [discriminate | intros [rest H]; discriminate].
    + simpl. destruct (ascii_dec a b) as [Hab|Hab].
      * subst b. rewrite IH. split; intros [rest H]; exists rest.
        -- simpl. now rewrite H.
        -- simpl in H. now injection H.
      * split; [discriminate|].
        intros [rest H]. simpl in H. injection H as H1 _. congruence.
Qed.

Lemma safeRedirect_string (path defaultRedirect : string) :
  safeRedirect (ToString path) defaultRedirect =
  if String.eqb path "" || negb (startsWith path "/") || startsWith path "//"
  then defaultRedirect else path.
Proof.
  unfold safeRedirect. cbn [falsy typeof_to].
  destruct (String.eqb path ""); cbn; [reflexivity|].
  destruct (startsWith path "/"); cbn; [|reflexivity].
  destruct (startsWith path "//"); reflexivity.
Qed.

Lemma safeRedirect_not_string (to : RedirectTo) (defaultRedirect : string) :
  (forall s, to <> ToString s) -> safeRedirect to defaultRedirect = defaultRedirect.
Proof.
  intros H. destruct to; try reflexivity. now destruct (H s).
Qed.

(** C10.  [safeRedirect] returns [defaultRedirect] or [to]; it returns [to]
    when [to] is a non-empty string that starts with "/" and does not start
    with "//", and [defaultRedirect] unchanged for every other input (null,
    undefined, a file, the empty string, a path that does not start with "/"
    or that starts with "//"). *)
Theorem safeRedirect_open_redirect_guard :
  forall (to : RedirectTo) (defaultRedirect : string),
    (safeRedirect to defaultRedirect = defaultRedirect
     \/ to = ToString (safeRedirect to defaultRedirect))
    /\ (forall path, safe_path to path -> safeRedirect to defaultRedirect = path)
    /\ ((forall path, ~ safe_path to path) ->
        safeRedirect to defaultRedirect = defaultRedirect).
Proof.
  intros to d. split; [|split].
  - destruct to as [| |s|f]; try (left; reflexivity).
    rewrite safeRedirect_string.
    destruct (String.eqb s "" || negb (startsWith s "/") || startsWith s "//");
      [now left | now right].
  - intros path (-> & Hne & Hone & Htwo).
    rewrite safeRedirect_string.
    apply prefix_begins_with in Hone.
    assert (Htwo' : String.prefix "//" path = false).
    { destruct (String.prefix "//" path) eqn:E; [|reflexivity].
      apply prefix_begins_with in E. contradiction. }
    apply String.eqb_neq in Hne.
    unfold startsWith. now rewrite Hne, Hone, Htwo'.
  - intros Hunsafe. destruct to as [| |s|f]; try reflexivity.
    rewrite safeRedirect_string.
    destruct (String.eqb s "") eqn:Hempty; [reflexivity|].
    destruct (startsWith s "/") eqn:Hone; [|reflexivity].
    destruct (startsWith s "//") eqn:Htwo; [reflexivity|].
    exfalso. apply (Hunsafe s). repeat split.
    + now apply String.eqb_neq.
    + now apply prefix_begins_with.
    + intros H. apply prefix_begins_with in H. unfold startsWith in Htwo. congruence.
Qed.

(** The guard at a safe path, and at a protocol-relative URL. *)
Lemma safeRedirect_open_redirect_guard_witness :
  safeRedirect (ToString "/notes") "/" = "/notes"
  /\ safeRedirect (ToString "//evil.example") "/" = "/".
Proof.
  split.
  - apply (proj1 (proj2 (safeRedirect_open_redirect_guard (ToString "/notes") "/"))).
    repeat split.
    + discriminate.
    + now exists "notes".
    + intros [rest H]. discriminate.
  - reflexivity.
Defined.

End UtilsFacts.

(* ================================================================== *)
(** * Binary64 rounding of the product [Math.random() * 10] *)

Module FloatFacts.
Import JS.

Lemma round_half_even_le (y : Q) : (inject_Z (round_half_even y) <= y + (1 # 2))%Q.
Proof.
  unfold round_half_even.
  pose proof (Qfloor_le y) as Hlo. pose proof (Qlt_floor y) as Hhi.
  rewrite inject_Z_plus in Hhi. change (inject_Z 1) with 1%Q in Hhi.
  destruct (Qcompare_spec (y - inject_Z (Qfloor y)) (1 # 2)) as [He|Hl|Hg].
  - destruct (Z.even (Qfloor y)); [lra|].
    rewrite inject_Z_plus. change (inject_Z 1) with 1%Q. lra.
  - lra.
  - rewrite inject_Z_plus. change (inject_Z 1) with 1%Q. lra.
Qed.

Lemma round_half_even_ge (y : Q) : (y - (1 # 2) <= inject_Z (round_half_even y))%Q.
Proof.
  unfold round_half_even.
  pose proof (Qfloor_le y) as Hlo. pose proof (Qlt_floor y) as Hhi.
  rewrite inject_Z_plus in Hhi. change (inject_Z 1) with 1%Q in Hhi.
  destruct (Qcompare_spec (y - inject_Z (Qfloor y)) (1 # 2)) as [He|Hl|Hg].
  - destruct (Z.even (Qfloor y)); [lra|].
    rewrite inject_Z_plus. change (inject_Z 1) with 1%Q. lra.
  - lra.
  - rewrite inject_Z_plus. change (inject_Z 1) with 1%Q. lra.
Qed.

Lemma round_half_even_le_int (y : Q) (M : Z) :
  (y <= inject_Z M)%Q -> round_half_even y <= M.
Proof.
  intros H. pose proof (round_half_even_le y) as Hr.
  assert (Hlt : (inject_Z (round_half_even y) < inject_Z (M + 1))%Q).
  { rewrite inject_Z_plus. change (inject_Z 1) with 1%Q. lra. }
  rewrite <- Zlt_Qlt in Hlt. lia.
Qed.

Lemma round_half_even_nonneg (y : Q) : (0 <= y)%Q -> 0 <= round_half_even y.
Proof.
  intros H. pose proof (round_half_even_ge y) as Hr.
  assert (Hlt : (inject_Z (-1) < inject_Z (round_half_even y))%Q).
  { change (inject_Z (-1)) with (-1)%Q. lra. }
  rewrite <- Zlt_Qlt in Hlt. lia.
Qed.

Lemma Qabs_nonneg_eq (x : Q) : (0 <= x)%Q -> Qabs x = x.
Proof.
  destruct x as [n d]. unfold Qle, Qabs. cbn. intros H.
  f_equal. apply Z.abs_eq. lia.
Qed.

Lemma inv_le (x b : Q) : (0 < x)%Q -> (1 <= b * x)%Q -> (/ x <= b)%Q.
Proof.
  intros Hx H. apply (Qmult_le_r _ _ x Hx).
  rewrite (Qmult_comm (/ x)), Qmult_inv_r; [exact H|].
  intros E. rewrite E in Hx. discriminate.
Qed.

Lemma inv_lt (x b : Q) : (0 < x)%Q -> (b * x < 1)%Q -> (b < / x)%Q.
Proof.
  intros Hx H. apply (Qmult_lt_r _ _ x Hx).
  rewrite (Qmult_comm (/ x)), Qmult_inv_r; [exact H|].
  intros E. rewrite E in Hx. discriminate.
Qed.

Lemma Qle_bool_false (a b : Q) : (b < a)%Q -> Qle_bool a b = false.
Proof.
  intros H. destruct (Qle_bool a b) eqn:E; [|reflexivity].
  apply Qle_bool_iff in E. lra.
Qed.

Lemma Qle_bool_true (a b : Q) : (a <= b)%Q -> Qle_bool a b = true.
Proof. apply Qle_bool_iff. Qed.

(** The exponent of a number of [lo, 2 lo) with lo = 2^e, e >= 0 *)
Lemma exponent_above_one (x : Q) (e : Z) :
  0 <= e -> (inject_Z (2 ^ e) <= x)%Q -> (x < inject_Z (2 ^ (e + 1)))%Q ->
  exponent x = e.
Proof.
  intros He Hlo Hhi. unfold exponent.
  assert (H1 : (1 <= x)%Q).
  { apply Qle_trans with (inject_Z (2 ^ e)); [|exact Hlo].
    change 1%Q with (inject_Z 1). rewrite <- Zle_Qle.
    pose proof (Z.pow_pos_nonneg 2 e). lia. }
  rewrite (Qle_bool_true _ _ H1).
  pose proof (Qfloor_le x) as Hf. pose proof (Qlt_floor x) as Hc.
  apply Z.log2_unique; [exact He|]. split.
  - assert (H : (inject_Z (2 ^ e) < inject_Z (Qfloor x + 1))%Q).
    { apply Qle_lt_trans with x; assumption. }
    rewrite <- Zlt_Qlt in H. lia.
  - rewrite Zlt_Qlt. apply Qle_lt_trans with x; assumption.
Qed.

(** The exponent of a number of [2^-j, 2^-(j-1)), j >= 1 *)
Lemma exponent_below_one (x : Q) (j : Z) :
  0 < j -> (1 <= inject_Z (2 ^ j) * x)%Q -> (inject_Z (2 ^ (j - 1)) * x < 1)%Q ->
  exponent x = - j.
Proof.
  intros Hj Hlo Hhi. unfold exponent.
  assert (Hp : 0 < 2 ^ (j - 1)) by (apply Z.pow_pos_nonneg; lia).
  assert (Hp' : (0 < inject_Z (2 ^ (j - 1)))%Q).
  { change 0%Q with (inject_Z 0). now rewrite <- Zlt_Qlt. }
  assert (Hx : (0 < x)%Q).
  { destruct (Qlt_le_dec 0 x) as [H|H]; [exact H|].
    assert (Hq : (0 < inject_Z (2 ^ j))%Q).
    { change 0%Q with (inject_Z 0). rewrite <- Zlt_Qlt. apply Z.pow_pos_nonneg; lia. }
    exfalso. revert Hlo Hq H. generalize (inject_Z (2 ^ j)). intros q Hlo Hq H. nra. }
  assert (H1 : (x < 1)%Q).
  { assert (Hq : (1 <= inject_Z (2 ^ (j - 1)))%Q).
    { change 1%Q with (inject_Z 1). rewrite <- Zle_Qle. lia. }
    revert Hhi Hq. generalize (inject_Z (2 ^ (j - 1))). intros q Hhi Hq. nra. }
  rewrite (Qle_bool_false _ _ H1). f_equal.
  pose proof (Qle_ceiling (/ x)) as Hc. pose proof (Qceiling_lt (/ x)) as Hf.
  pose proof (inv_le x _ Hx Hlo) as Hi. pose proof (inv_lt x _ Hx Hhi) as Hi'.
  apply Z.log2_up_unique; [exact Hj|]. split.
  - rewrite Zlt_Qlt. apply Qlt_le_trans with (/ x); assumption.
  - assert (H : (inject_Z (Qceiling (/ x) - 1) < inject_Z (2 ^ j))%Q).
    { apply Qlt_le_trans with (/ x); assumption. }
    rewrite <- Zlt_Qlt in H. lia.
Qed.

Lemma exponent_fraction (x : Q) : (0 < x)%Q -> (x < 1)%Q -> exponent x <= -1.
Proof.
  intros Hx H1. unfold exponent. rewrite (Qle_bool_false _ _ H1).
  pose proof (Qle_ceiling (/ x)) as Hc.
  assert (Hi : (1 < / x)%Q) by (apply inv_lt; [exact Hx | lra]).
  assert (H2 : 1 < Qceiling (/ x)).
  { rewrite Zlt_Qlt. change (inject_Z 1) with 1%Q. lra. }
  pose proof (Z.log2_up_pos _ H2). lia.
Qed.

Lemma exponent_below (x : Q) (e : Z) :
  0 <= e -> (0 < x)%Q -> (x < inject_Z (2 ^ (e + 1)))%Q -> exponent x <= e.
Proof.
  intros He Hx Hhi. destruct (Qlt_le_dec x 1) as [H1|H1].
  - pose proof (exponent_fraction x Hx H1). lia.
  - unfold exponent. rewrite (Qle_bool_true _ _ H1).
    pose proof (Qfloor_le x) as Hf.
    assert (H : Qfloor x < 2 ^ (e + 1)).
    { rewrite Zlt_Qlt. apply Qle_lt_trans with x; assumption. }
    assert (Hpos : 0 < Qfloor x).
    { pose proof (Qlt_floor x) as Hc.
      assert (H' : (inject_Z 0 < inject_Z (Qfloor x + 1))%Q).
      { change (inject_Z 0) with 0%Q. lra. }
      rewrite <- Zlt_Qlt in H'.
      assert (Qfloor x <> 0).
      { intros E. rewrite E in Hc. change (inject_Z (0 + 1)) with 1%Q in Hc. lra. }
      lia. }
    apply Z.log2_lt_pow2 in H; [lia | exact Hpos].
Qed.

Lemma pow2_pos (k : Z) : (0 < pow2 k)%Q.
Proof. apply Qpower_0_lt. reflexivity. Qed.

Lemma pow2_nonneg_exp (k : Z) : 0 <= k -> (pow2 k == inject_Z (2 ^ k))%Q.
Proof. intros H. unfold pow2. now rewrite Zpower_Qpower. Qed.

Lemma pow2_opp (k : Z) : (pow2 (- k) == / pow2 k)%Q.
Proof. unfold pow2. apply Qpower_opp. Qed.

Lemma inject_pow_pos (k : Z) : 0 <= k -> (0 < inject_Z (2 ^ k))%Q.
Proof.
  intros H. change 0%Q with (inject_Z 0). rewrite <- Zlt_Qlt.
  apply Z.pow_pos_nonneg; lia.
Qed.

Lemma binary64_nearest_zero (x : Q) : (x == 0)%Q -> binary64_nearest x = 0%Q.
Proof.
  intros H. unfold binary64_nearest.
  now replace (Qeq_bool x 0) with true by (symmetry; now apply Qeq_bool_iff).
Qed.

Lemma binary64_nearest_pos (x : Q) :
  (0 < x)%Q ->
  (binary64_nearest x ==
   inject_Z (round_half_even (x * pow2 (- spacing x))) * pow2 (spacing x))%Q.
Proof.
  intros H. unfold binary64_nearest.
  replace (Qeq_bool x 0) with false.
  - rewrite (Qle_bool_true 0 x) by lra.
    rewrite (Qabs_nonneg_eq x) by lra. ring.
  - symmetry. destruct (Qeq_bool x 0) eqn:E; [|reflexivity].
    apply Qeq_bool_iff in E. lra.
Qed.

Lemma spacing_pos (x : Q) : (0 <= x)%Q -> spacing x = Z.max (exponent x - 52) (-1074).
Proof. intros H. unfold spacing. now rewrite Qabs_nonneg_eq. Qed.

Lemma binary64_nearest_nonneg (x : Q) : (0 <= x)%Q -> (0 <= binary64_nearest x)%Q.
Proof.
  intros H. destruct (Qeq_dec x 0) as [E|E].
  - rewrite (binary64_nearest_zero x E). lra.
  - assert (Hx : (0 < x)%Q) by lra.
    rewrite (binary64_nearest_pos x Hx).
    apply Qmult_le_0_compat.
    + change 0%Q with (inject_Z 0). rewrite <- Zle_Qle.
      apply round_half_even_nonneg. apply Qmult_le_0_compat; [lra|].
      apply Qlt_le_weak, pow2_pos.
    + apply Qlt_le_weak, pow2_pos.
Qed.

(** Rounding does not cross a number that is a multiple of the spacing. *)
Lemma binary64_nearest_le_dyadic (x : Q) (M j : Z) :
  (0 < x)%Q -> 0 <= j -> spacing x <= - j ->
  (x * inject_Z (2 ^ j) <= inject_Z M)%Q ->
  (binary64_nearest x * inject_Z (2 ^ j) <= inject_Z M)%Q.
Proof.
  intros Hx Hj Hk Hle. rewrite (binary64_nearest_pos x Hx).
  set (k := spacing x) in *. set (d := - k - j).
  assert (Hd : 0 <= d) by (unfold d; lia).
  pose proof (inject_pow_pos j Hj) as Ha. pose proof (inject_pow_pos d Hd) as Hb.
  assert (Hp : (pow2 (- k) == inject_Z (2 ^ j) * inject_Z (2 ^ d))%Q).
  { rewrite pow2_nonneg_exp by lia. rewrite <- inject_Z_mult.
    rewrite <- Z.pow_add_r by lia. now replace (j + d) with (- k) by (unfold d; lia). }
  assert (Hq : (pow2 k == / (inject_Z (2 ^ j) * inject_Z (2 ^ d)))%Q).
  { rewrite <- Hp, <- pow2_opp. now rewrite Z.opp_involutive. }
  assert (Hn : round_half_even (x * pow2 (- k)) <= M * 2 ^ d).
  { apply round_half_even_le_int. rewrite Hp, inject_Z_mult, Qmult_assoc.
    apply Qmult_le_compat_r; [exact Hle | now apply Qlt_le_weak]. }
  rewrite Zle_Qle, inject_Z_mult in Hn. rewrite Hq.
  revert Hn. generalize (inject_Z (round_half_even (x * pow2 (- k)))).
  revert Ha Hb. generalize (inject_Z (2 ^ j)) (inject_Z (2 ^ d)).
  intros a b Ha Hb n Hn.
  setoid_replace (n * / (a * b) * a)%Q with (n / b)%Q by (field; split; lra).
  apply Qle_shift_div_r; assumption.
Qed.

(** The product of a draw of [0, 1) and 10, rounded, is in [0, 10]. *)
Lemma product_bounds (r : Q) :
  (0 <= r)%Q -> (r < 1)%Q ->
  (0 <= binary64_nearest (r * 10) <= 10)%Q.
Proof.
  intros H0 H1. split; [apply binary64_nearest_nonneg; lra|].
  destruct (Qeq_dec (r * 10) 0) as [E|E].
  - rewrite (binary64_nearest_zero _ E). lra.
  - assert (Hx : (0 < r * 10)%Q) by lra.
    pose proof (binary64_nearest_le_dyadic (r * 10) 10 0 Hx (Z.le_refl 0)) as H.
    change (inject_Z (2 ^ 0)) with 1%Q in H. change (inject_Z 10) with 10%Q in H.
    rewrite !Qmult_1_r in H. apply H; [|lra].
    rewrite spacing_pos by lra.
    assert (He : exponent (r * 10) <= 3).
    { apply exponent_below; [lia | exact Hx |]. change (inject_Z (2 ^ (3 + 1))) with 16%Q. lra. }
    lia.
Qed.

(** A binary64 number below 1 is at most 1 - 2^-53. *)
Lemma binary64_below_one (r : Q) :
  is_binary64 r -> (0 <= r)%Q -> (r < 1)%Q ->
  (r <= 1 - (1 # 9007199254740992))%Q.
Proof.
  intros [Hr _] H0 H1. destruct (Qlt_le_dec r (1 # 2)) as [Hh|Hh]; [lra|].
  assert (Hx : (0 < r)%Q) by lra.
  rewrite (binary64_nearest_pos r Hx) in Hr.
  assert (He : exponent r = -1).
  { apply (exponent_below_one r 1); [lia | |].
    - change (inject_Z (2 ^ 1)) with 2%Q. lra.
    - change (inject_Z (2 ^ (1 - 1))) with 1%Q. lra. }
  rewrite (spacing_pos r) in Hr by lra. rewrite He in Hr.
  change (Z.max (-1 - 52) (-1074)) with (-53) in Hr.
  change (pow2 (- -53)) with (9007199254740992 # 1)%Q in Hr.
  change (pow2 (-53)) with (1 # 9007199254740992)%Q in Hr.
  revert Hr. generalize (round_half_even (r * (9007199254740992 # 1))). intros n Hr.
  assert (Hn : n < 9007199254740992).
  { rewrite Zlt_Qlt. change (inject_Z 9007199254740992) with (9007199254740992 # 1)%Q. lra. }
  assert (Hn' : (inject_Z n <= inject_Z 9007199254740991)%Q) by (rewrite <- Zle_Qle; lia).
  change (inject_Z 9007199254740991) with (9007199254740991 # 1)%Q in Hn'. lra.
Qed.

(** The product of a binary64 draw of [0, 1) and 10, rounded, is below 10. *)
Lemma product_below_ten (r : Q) :
  is_binary64 r -> (0 <= r)%Q -> (r < 1)%Q ->
  (binary64_nearest (r * 10) < 10)%Q.
Proof.
  intros Hb H0 H1. pose proof (binary64_below_one r Hb H0 H1) as Hr.
  destruct (Qeq_dec (r * 10) 0) as [E|E].
  { rewrite (binary64_nearest_zero _ E). lra. }
  assert (Hx : (0 < r * 10)%Q) by lra.
  destruct (Qlt_le_dec (r * 10) 8) as [H8|H8].
  - pose proof (binary64_nearest_le_dyadic (r * 10) 8 0 Hx (Z.le_refl 0)) as H.
    change (inject_Z (2 ^ 0)) with 1%Q in H. change (inject_Z 8) with 8%Q in H.
    rewrite !Qmult_1_r in H. apply Qle_lt_trans with 8%Q; [|lra]. apply H; [|lra].
    rewrite spacing_pos by lra.
    assert (He : exponent (r * 10) <= 3).
    { apply exponent_below; [lia | exact Hx |]. change (inject_Z (2 ^ (3 + 1))) with 16%Q. lra. }
    lia.
  - rewrite (binary64_nearest_pos _ Hx). rewrite spacing_pos by lra.
    assert (He : exponent (r * 10) = 3).
    { apply exponent_above_one; [lia | |].
      - change (inject_Z (2 ^ 3)) with 8%Q. exact H8.
      - change (inject_Z (2 ^ (3 + 1))) with 16%Q. lra. }
    rewrite He. change (Z.max (3 - 52) (-1074)) with (-49).
    change (pow2 (- -49)) with (562949953421312 # 1)%Q.
    change (pow2 (-49)) with (1 # 562949953421312)%Q.
    pose proof (round_half_even_le (r * 10 * (562949953421312 # 1))) as Hn.
    revert Hn. generalize (round_half_even (r * 10 * (562949953421312 # 1))). intros n Hn.
    assert (Hn' : n < 5629499534213120).
    { rewrite Zlt_Qlt. change (inject_Z 5629499534213120) with (5629499534213120 # 1)%Q. lra. }
    assert (Hn'' : (inject_Z n <= inject_Z 5629499534213119)%Q) by (rewrite <- Zle_Qle; lia).
    change (inject_Z 5629499534213119) with (5629499534213119 # 1)%Q in Hn''. lra.
Qed.

(** The product of a binary64 draw below 1/10 and 10, rounded, is below 1. *)
Lemma product_below_one (r : Q) :
  is_binary64 r -> (0 <= r)%Q -> (r < 1 # 10)%Q ->
  (binary64_nearest (r * 10) < 1)%Q.
Proof.
  intros [Hb _] H0 H1.
  destruct (Qeq_dec (r * 10) 0) as [E|E].
  { rewrite (binary64_nearest_zero _ E). lra. }
  assert (Hx : (0 < r * 10)%Q) by lra.
  destruct (Qlt_le_dec r (1 # 16)) as [Hs|Hs].
  - pose proof (binary64_nearest_le_dyadic (r * 10) 5 3 Hx ltac:(lia)) as H.
    change (inject_Z (2 ^ 3)) with 8%Q in H. change (inject_Z 5) with 5%Q in H.
    assert (Hle : (binary64_nearest (r * 10) * 8 <= 5)%Q).
    { apply H; [|lra]. rewrite spacing_pos by lra.
      pose proof (exponent_fraction (r * 10) Hx ltac:(lra)). lia. }
    lra.
  - assert (Hr : (0 < r)%Q) by lra.
    rewrite (binary64_nearest_pos r Hr) in Hb.
    assert (He : exponent r = -4).
    { apply (exponent_below_one r 4); [lia | |].
      - change (inject_Z (2 ^ 4)) with 16%Q. lra.
      - change (inject_Z (2 ^ (4 - 1))) with 8%Q. lra. }
    rewrite (spacing_pos r) in Hb by lra. rewrite He in Hb.
    change (Z.max (-4 - 52) (-1074)) with (-56) in Hb.
    change (pow2 (- -56)) with (72057594037927936 # 1)%Q in Hb.
    change (pow2 (-56)) with (1 # 72057594037927936)%Q in Hb.
    revert Hb. generalize (round_half_even (r * (72057594037927936 # 1))). intros m Hb.
    assert (Hm : m < 7205759403792794).
    { rewrite Zlt_Qlt. change (inject_Z 7205759403792794) with (7205759403792794 # 1)%Q. lra. }
    assert (Hm' : (inject_Z m <= inject_Z 7205759403792793)%Q) by (rewrite <- Zle_Qle; lia).
    change (inject_Z 7205759403792793) with (7205759403792793 # 1)%Q in Hm'.
    rewrite (binary64_nearest_pos _ Hx). rewrite spacing_pos by lra.
    assert (He' : exponent (r * 10) = -1).
    { apply (exponent_below_one (r * 10) 1); [lia | |].
      - change (inject_Z (2 ^ 1)) with 2%Q. lra.
      - change (inject_Z (2 ^ (1 - 1))) with 1%Q. lra. }
    rewrite He'. change (Z.max (-1 - 52) (-1074)) with (-53).
    change (pow2 (- -53)) with (9007199254740992 # 1)%Q.
    change (pow2 (-53)) with (1 # 9007199254740992)%Q.
    pose proof (round_half_even_le (r * 10 * (9007199254740992 # 1))) as Hn.
    revert Hn. generalize (round_half_even (r * 10 * (9007199254740992 # 1))). intros n Hn.
    assert (Hn' : n < 9007199254740992).
    { rewrite Zlt_Qlt. change (inject_Z 9007199254740992) with (9007199254740992 # 1)%Q. lra. }
    assert (Hn'' : (inject_Z n <= inject_Z 9007199254740991)%Q) by (rewrite <- Zle_Qle; lia).
    change (inject_Z 9007199254740991) with (9007199254740991 # 1)%Q in Hn''. lra.
Qed.

Lemma is_binary64b_spec (x : Q) : is_binary64b x = true -> is_binary64 x.
Proof.
  unfold is_binary64b, is_binary64. intros H. apply andb_true_iff in H as [H1 H2].
  split; [now apply Qeq_bool_iff|].
  apply negb_true_iff in H2.
  destruct (Qlt_le_dec (Qabs x) (pow2 1024)) as [L|L]; [exact L|].
  apply Qle_bool_iff in L. congruence.
Qed.

Lemma ten_below_overflow : (10 < pow2 1024)%Q.
Proof. vm_compute. reflexivity. Qed.

(** [Math.floor(r * 10)] of a draw of [0, 1) is a finite integer. *)
Lemma floor_of_product (r : Q) :
  (0 <= r)%Q -> (r < 1)%Q ->
  Math_floor (multiply r 10) = Finite (inject_Z (integer_of (Math_floor (multiply r 10)))).
Proof.
  intros H0 H1. destruct (product_bounds r H0 H1) as [Hlo Hhi].
  unfold multiply, binary64_round.
  rewrite Qle_bool_false.
  - cbn [Math_floor integer_of]. now rewrite Qfloor_Z.
  - rewrite Qabs_nonneg_eq by exact Hlo.
    apply Qle_lt_trans with 10%Q; [exact Hhi | exact ten_below_overflow].
Qed.

Lemma integer_of_product (r : Q) :
  (0 <= r)%Q -> (r < 1)%Q ->
  integer_of (Math_floor (multiply r 10)) = Qfloor (binary64_nearest (r * 10)).
Proof.
  intros H0 H1. destruct (product_bounds r H0 H1) as [Hlo Hhi].
  unfold multiply, binary64_round.
  rewrite Qle_bool_false.
  - cbn [Math_floor integer_of]. now rewrite Qfloor_Z.
  - rewrite Qabs_nonneg_eq by exact Hlo.
    apply Qle_lt_trans with 10%Q; [exact Hhi | exact ten_below_overflow].
Qed.

(** The count [Math.floor(Math.random() * 10)] of a draw in [0, 1): at most
    ten, whatever rational the draw is. *)
Lemma count_at_most_ten (r : Q) :
  (0 <= r)%Q -> (r < 1)%Q -> 0 <= integer_of (Math_floor (multiply r 10)) <= 10.
Proof.
  intros H0 H1. rewrite (integer_of_product r H0 H1).
  destruct (product_bounds r H0 H1) as [Hlo Hhi]. split.
  - change 0 with (Qfloor 0). now apply Qfloor_resp_le.
  - change 10 with (Qfloor 10). now apply Qfloor_resp_le.
Qed.

(** The count of a binary64 draw in [0, 1): below ten. *)
Lemma count_in_range (r : Q) :
  is_binary64 r -> (0 <= r)%Q -> (r < 1)%Q ->
  0 <= integer_of (Math_floor (multiply r 10)) < 10.
Proof.
  intros Hb H0 H1. split; [apply (count_at_most_ten r H0 H1)|].
  rewrite (integer_of_product r H0 H1).
  rewrite Zlt_Qlt. apply Qle_lt_trans with (binary64_nearest (r * 10)).
  - apply Qfloor_le.
  - exact (product_below_ten r Hb H0 H1).
Qed.

(** The count of a binary64 draw below 1/10: zero. *)
Lemma count_zero (r : Q) :
  is_binary64 r -> (0 <= r)%Q -> (r < 1 # 10)%Q ->
  integer_of (Math_floor (multiply r 10)) = 0.
Proof.
  intros Hb H0 H1.
  assert (H1' : (r < 1)%Q) by lra.
  pose proof (count_at_most_ten r H0 H1') as Hc.
  rewrite (integer_of_product r H0 H1') in *.
  assert (Hlt : Qfloor (binary64_nearest (r * 10)) < 1).
  { rewrite Zlt_Qlt. apply Qle_lt_trans with (binary64_nearest (r * 10)).
    - apply Qfloor_le.
    - exact (product_below_one r Hb H0 H1). }
  lia.
Qed.

Lemma Array_keys_of_count (n : Z) :
  0 <= n <= 10 ->
  Array_keys (Finite (inject_Z n)) = Returned (map Z.of_nat (seq 0 (Z.to_nat n))).
Proof.
  intros H. unfold Array_keys. rewrite Qfloor_Z.
  replace (Qeq_bool (inject_Z n) (inject_Z n)) with true
    by (symmetry; apply Qeq_bool_iff; reflexivity).
  replace (0 <=? n) with true by (symmetry; apply Z.leb_le; lia).
  replace (n <? 2 ^ 32) with true by (symmetry; apply Z.ltb_lt; lia).
  reflexivity.
Qed.

End FloatFacts.

(* ================================================================== *)
(** * The seeded source keeps the contracts *)

Module SampleFacts.
Import JS IoTs Random Route Sample.

(** Each of the thousand draws of the seeded source, by computation: a
    binary64 number of [0, 1). *)
Lemma thousandths_checked :
  forallb (fun k => is_binary64b (thousandth (Z.of_nat k))
                    && Qle_bool 0 (thousandth (Z.of_nat k))
                    && negb (Qle_bool 1 (thousandth (Z.of_nat k))))
          (seq 0 1000) = true.
Proof. vm_compute. reflexivity. Qed.

Lemma thousandth_checked (k : Z) :
  0 <= k < 1000 ->
  is_binary64 (thousandth k) /\ (0 <= thousandth k /\ thousandth k < 1)%Q.
Proof.
  intros H. pose proof thousandths_checked as Hall. rewrite forallb_forall in Hall.
  specialize (Hall (Z.to_nat k)). rewrite Z2Nat.id in Hall by lia.
  assert (Hin : In (Z.to_nat k) (seq 0 1000)) by (apply in_seq; lia).
  apply Hall in Hin. apply andb_true_iff in Hin as [Hin Hlt].
  apply andb_true_iff in Hin as [Hb Hle].
  split; [now apply FloatFacts.is_binary64b_spec|]. split.
  - now apply Qle_bool_iff.
  - apply negb_true_iff in Hlt.
    destruct (Qlt_le_dec (thousandth k) 1) as [L|L]; [exact L|].
    apply Qle_bool_iff in L. congruence.
Qed.

Lemma seeded_random_in_unit_interval : random_in_unit_interval seeded.
Proof.
  intros s. cbn [seeded Math_random fst].
  apply thousandth_checked. apply Z.mod_pos_bound. reflexivity.
Qed.

Lemma seeded_random_is_binary64 : random_is_binary64 seeded.
Proof.
  intros s. cbn [seeded Math_random fst].
  apply thousandth_checked. apply Z.mod_pos_bound. reflexivity.
Qed.

Lemma seeded_float_has_precision : float_has_precision seeded.
Proof.
  intros precision s. cbn [seeded faker_datatype_float fst].
  exists (next s mod 9999901), (inject_Z (next s mod 9999901) * precision)%Q.
  split; reflexivity.
Qed.

End SampleFacts.

(* ================================================================== *)
(** * The model on concrete inputs *)

Module Examples.
Import JS IoTs Random Route Sample.

Example toISOString_2023 :
  toISOString (TimeValue 1700000000123) = Returned "2023-11-14T22:13:20.123Z".
Proof. vm_compute. reflexivity. Qed.

Example toISOString_before_epoch :
  toISOString (TimeValue (-1)) = Returned "1969-12-31T23:59:59.999Z".
Proof. vm_compute. reflexivity. Qed.

Example toISOString_last_time_value :
  toISOString (TimeValue 8640000000000000) = Returned "+275760-09-13T00:00:00.000Z".
Proof. vm_compute. reflexivity. Qed.

(** The literals 0.7 and 0.3 denote binary64 numbers just below 7/10 and
    3/10; their products with 10 round to 7 and to 3. *)
Example floor_of_seven_tenths :
  (binary64_nearest (7 # 10) < 7 # 10)%Q
  /\ Math_floor (multiply (binary64_nearest (7 # 10)) 10) = Finite 7.
Proof. split; vm_compute; reflexivity. Qed.

Example floor_of_three_tenths :
  (binary64_nearest (3 # 10) < 3 # 10)%Q
  /\ Math_floor (multiply (binary64_nearest (3 # 10)) 10) = Finite 3.
Proof. split; vm_compute; reflexivity. Qed.

Example binary64_round_ties_to_even :
  binary64_round 9007199254740993 = Finite 9007199254740992
  /\ binary64_round 9007199254740995 = Finite 9007199254740996
  /\ binary64_round (pow2 1024) = Infinity false.
Proof. repeat split; vm_compute; reflexivity. Qed.

Example format_in_local_time :
  DateFns.format (fun _ => 180) (VDate (TimeValue 3600000)) "yyyy-MM-dd"
  = Returned "1969-12-31".
Proof. vm_compute. reflexivity. Qed.

Example parseISO_basic_inverts_toISOString :
  parseISO_basic "2023-11-14T22:13:20.123Z" = TimeValue 1700000000123
  /\ parseISO_basic "2023-11-14" = InvalidDate.
Proof. split; vm_compute; reflexivity. Qed.

Example QuotationCodec_name (env : Env) :
  name (QuotationCodec env) =
  "{ id: Uuid, createdAt: DateFromStringISO, productComboId: Uuid, totalAmount: CurrencyFromString, validUntil: DateFromStringISO, productQuotations: Array<{ amountNetOfIof: CurrencyFromString, totalAmount: CurrencyFromString, iofAmount: CurrencyFromString }> }".
Proof. reflexivity. Qed.

Example generate_quotation :
  fst (generate seeded (QuotationCodec host) 1) =
  Returned
    (VObject
       [("id", VString "41c67ea6-b0e7-467e-a494-2782265a7ea6");
        ("createdAt", VString "2022-05-05T11:35:44.383Z");
        ("productComboId", VString "794bdf32-7483-45fb-a600-59e32f4bdf32");
        ("totalAmount", VNumber (Finite (6260937 # 100)));
        ("validUntil", VString "2022-10-13T12:10:23.103Z");
        ("productQuotations", VArray [])]).
Proof. vm_compute. reflexivity. Qed.

Example loader_quotation :
  fst (loader seeded host 1) =
  Resolved
    (VObject
       [("id", VString "41c67ea6-b0e7-467e-a494-2782265a7ea6");
        ("createdAt", VDate (TimeValue 1651750544383));
        ("productComboId", VString "794bdf32-7483-45fb-a600-59e32f4bdf32");
        ("totalAmount", VDecimal (DecimalFinite false 6260937 (-2)));
        ("validUntil", VDate (TimeValue 1665663023103));
        ("productQuotations", VArray [])]).
Proof. vm_compute. reflexivity. Qed.

Example generate_exact_of_exact :
  fst (generate seeded (ExactType "e" (ExactType "e'" (t_type [("x", t_boolean)]))) 5)
  = Returned (VObject [("x", VBoolean true)]).
Proof. vm_compute. reflexivity. Qed.

Example decode_rejects_missing_field :
  decode (t_type [("a", t_string)]) (VObject [])
  = Failure [mkValidationError VUndefined ["a"]].
Proof. vm_compute. reflexivity. Qed.

Example decode_partial_accepts_missing_field :
  decode (t_partial [("a", t_string)]) (VObject []) = Success (VObject []).
Proof. vm_compute. reflexivity. Qed.

End Examples.

(* ================================================================== *)
(** * Properties of the generator's dispatch *)

Module DispatchFacts.
Import JS IoTs Random Route.

Section WithSource.

Context {S : Type} (rng : RandomSource S).

Lemma reserved_false (n : string) :
  reserved n = false ->
  String.eqb n "DateFromStringISO" = false
  /\ String.eqb n "Uuid" = false
  /\ String.eqb n "CurrencyFromString" = false.
Proof.
  unfold reserved. intros H.
  destruct (String.eqb n "DateFromStringISO"); [discriminate|].
  destruct (String.eqb n "Uuid"); [discriminate|].
  destruct (String.eqb n "CurrencyFromString"); [discriminate|].
  now repeat split.
Qed.

(** The three name tests, whatever the node is. *)
Lemma generate_date (c : codec) :
  name c = "DateFromStringISO" ->
  generate rng c =
  (date <- draw (faker_date_past rng) ;;
   iso <- lift (toISOString date) ;;
   ret (VString iso)).
Proof.
  intros H. destruct c; cbn [name] in H; subst; reflexivity.
Qed.

Lemma generate_uuid (c : codec) :
  name c = "Uuid" ->
  generate rng c = (uuid <- draw (faker_datatype_uuid rng) ;; ret (VString uuid)).
Proof.
  intros H. destruct c; cbn [name] in H; subst; reflexivity.
Qed.

Lemma generate_currency (c : codec) :
  name c = "CurrencyFromString" ->
  generate rng c =
  (float <- draw (faker_datatype_float rng (1 # 100)) ;; ret (VNumber float)).
Proof.
  intros H. destruct c; cbn [name] in H; subst; reflexivity.
Qed.

(** Past the name tests, the switch on the tag. *)
Ltac past_names H :=
  destruct (reserved_false _ H) as (Hd & Hu & Hc);
  cbn [generate name]; rewrite Hd, Hu, Hc.

Lemma generate_string (n : string) :
  reserved n = false ->
  generate rng (StringType n) =
  (s <- draw (faker_datatype_string rng) ;; ret (VString s)).
Proof. intros H. past_names H. reflexivity. Qed.

Lemma generate_number (n : string) :
  reserved n = false ->
  generate rng (NumberType n) =
  (x <- draw (faker_datatype_number rng) ;; ret (VNumber x)).
Proof. intros H. past_names H. reflexivity. Qed.

Lemma generate_boolean (n : string) :
  reserved n = false ->
  generate rng (BooleanType n) =
  (b <- draw (faker_datatype_boolean rng) ;; ret (VBoolean b)).
Proof. intros H. past_names H. reflexivity. Qed.

Lemma generate_array (n : string) (type : codec) :
  reserved n = false ->
  generate rng (ArrayType n type) =
  (r <- draw (Math_random rng) ;;
   keys <- lift (Array_keys (Math_floor (multiply r 10))) ;;
   elements <- Array_map (fun _ => generate rng type) keys ;;
   ret (VArray elements)).
Proof. intros H. past_names H. reflexivity. Qed.

Lemma generate_refinement (n : string) (type : codec) (predicate : value -> bool) :
  reserved n = false ->
  generate rng (RefinementType n type predicate) =
  (candidate <- generate rng type ;; lift (call_filter candidate predicate)).
Proof. intros H. past_names H. reflexivity. Qed.

(** The struct case as the source has it: [record.map(getProps(type), generate)]. *)
Lemma unwrap_getProps (inner : codec) :
  (fix unwrap (inner : codec) : Gen S (list (string * value)) :=
     match inner with
     | InterfaceType _ props | PartialType _ props =>
         record_map (generate rng) props
     | ExactType _ type' => unwrap type'
     | _ => ret []
     end) inner
  = record_map (generate rng) (props_or_empty (getProps inner)).
Proof.
  induction inner; try reflexivity. cbn [getProps]. exact IHinner.
Qed.

Lemma generate_struct (c : codec) :
  reserved (name c) = false ->
  struct_kind c = true ->
  generate rng c =
  (fields <- record_map (generate rng) (props_or_empty (getProps c)) ;;
   ret (VObject fields)).
Proof.
  intros H Hk. destruct c; try discriminate; cbn [name] in H; past_names H;
    try reflexivity.
  cbn [getProps]. now rewrite unwrap_getProps.
Qed.

End WithSource.

End DispatchFacts.

(* ================================================================== *)
(** * Named short-circuits, unsupported kinds, the UUID decoder *)

Module DispatchClaims.
Import JS IoTs Random Route DispatchFacts.

Section WithSource.

Context {S : Type} (rng : RandomSource S).

(** C2.  A node whose name is one of the three reserved names is generated
    by the short-circuit of that name, whatever its tag: the ISO string of a
    past date, a uuid, or a float drawn with precision 0.01.  In particular a
    [NumberType] node named as the currency type returns the float that
    [faker.datatype.float({precision: 0.01})] draws (a multiple of 1/100 when
    faker keeps its precision), and the number draw is not consulted. *)
Theorem named_short_circuits_take_precedence :
  forall (c : codec) (s : S),
    (name c = "DateFromStringISO" ->
     generate rng c s =
     (match toISOString (fst (faker_date_past rng s)) with
      | Returned iso => Returned (VString iso)
      | Threw e => Threw e
      end, snd (faker_date_past rng s)))
    /\ (name c = "Uuid" ->
        generate rng c s =
        (Returned (VString (fst (faker_datatype_uuid rng s))),
         snd (faker_datatype_uuid rng s)))
    /\ (name c = "CurrencyFromString" ->
        generate rng c s =
        (Returned (VNumber (fst (faker_datatype_float rng (1 # 100) s))),
         snd (faker_datatype_float rng (1 # 100) s)))
    /\ generate rng (NumberType "CurrencyFromString") s =
       (Returned (VNumber (fst (faker_datatype_float rng (1 # 100) s))),
        snd (faker_datatype_float rng (1 # 100) s))
    /\ (float_has_precision rng ->
        exists (k : Z) (q : Q) (s' : S),
          generate rng (NumberType "CurrencyFromString") s
          = (Returned (VNumber (Finite q)), s')
          /\ q == k # 100).
Proof.
  intros c s.
  assert (Hcur : forall c', name c' = "CurrencyFromString" ->
                 generate rng c' s =
                 (Returned (VNumber (fst (faker_datatype_float rng (1 # 100) s))),
                  snd (faker_datatype_float rng (1 # 100) s))).
  { intros c' H. rewrite (generate_currency rng c' H).
    unfold bind, draw, ret.
    now destruct (faker_datatype_float rng (1 # 100) s). }
  repeat split.
  - intros H. rewrite (generate_date rng c H).
    unfold bind, draw, lift, ret.
    destruct (faker_date_past rng s) as [d s']. cbn [fst snd].
    now destruct (toISOString d).
  - intros H. rewrite (generate_uuid rng c H).
    unfold bind, draw, ret.
    now destruct (faker_datatype_uuid rng s).
  - apply Hcur.
  - now apply Hcur.
  - intros Hprec. destruct (Hprec (1 # 100) s) as (k & q & Hq & Hk).
    exists k, q, (snd (faker_datatype_float rng (1 # 100) s)). split.
    + rewrite Hcur by reflexivity. now rewrite Hq.
    + rewrite Hk. unfold Qeq, Qmult, inject_Z. cbn. lia.
Qed.

(** C9.  A node whose name is not reserved and whose tag is one of the kinds
    without a case (unknown, undefined, void, null, keyof, literal,
    dictionary, tuple, union, intersection) makes [generate] return
    undefined; nothing is thrown and no randomness is consumed. *)
Theorem unsupported_kinds_return_undefined :
  forall (c : codec) (tag : OtherTag) (s : S),
    reserved (name c) = false ->
    _tag c = Some (OtherTag_name tag) ->
    generate rng c s = (Returned VUndefined, s).
Proof.
  intros c tag s Hname Htag.
  destruct c; cbn [_tag] in Htag;
    try (destruct tag; discriminate).
  cbn [name] in Hname.
  destruct (reserved_false _ Hname) as (Hd & Hu & Hc).
  cbn [generate name]. now rewrite Hd, Hu, Hc.
Qed.

End WithSource.

(** The currency short-circuit on a number leaf, run on the seeded source:
    the value is the float draw, not the number draw of a plain number leaf. *)
Lemma named_short_circuits_take_precedence_witness :
  generate Sample.seeded (NumberType "CurrencyFromString") 1
  = (Returned (VNumber (Finite (3538480 # 100))), 1103527590)
  /\ generate Sample.seeded t_number 1
     = (Returned (VNumber (Finite (27590 # 1))), 1103527590)
  /\ exists (k : Z) (q : Q) (s' : Z),
       generate Sample.seeded (NumberType "CurrencyFromString") 1
       = (Returned (VNumber (Finite q)), s')
       /\ q == k # 100.
Proof.
  split; [|split].
  - rewrite (proj1 (proj2 (proj2
      (named_short_circuits_take_precedence Sample.seeded
         (NumberType "CurrencyFromString") 1))) eq_refl).
    vm_compute. reflexivity.
  - vm_compute. reflexivity.
  - apply (proj2 (proj2 (proj2 (proj2
      (named_short_circuits_take_precedence Sample.seeded
         (NumberType "CurrencyFromString") 1))))).
    exact SampleFacts.seeded_float_has_precision.
Defined.

(** A union node and a tuple node with plain names, on the seeded source. *)
Lemma unsupported_kinds_return_undefined_witness :
  generate Sample.seeded
    (OtherType UnionType "(string | number)" (fun u _ => Success u)) 7
  = (Returned VUndefined, 7).
Proof.
  apply (unsupported_kinds_return_undefined Sample.seeded
           (OtherType UnionType "(string | number)" (fun u _ => Success u))
           UnionType 7); reflexivity.
Defined.

Section UuidDecoder.

(** C7.  Decoding with the UUID-like codec checks only that the input is a
    string: it succeeds, returning the input unchanged, exactly when
    [typeof] gives "string", on any string at all, and fails on every other
    value (a [String] object included). *)
Theorem Uuid_decode_accepts_exactly_strings :
  forall u : value,
    (decode Uuid u = Success u <-> exists s, u = VString s)
    /\ ((forall s, u <> VString s) -> decode Uuid u = failure u [])
    /\ (forall s, decode Uuid (VString s) = Success (VString s)).
Proof.
  intros u. unfold decode. cbn [validate Uuid]. unfold Uuid_validate, string_validate.
  repeat split.
  - destruct u; cbn; intros H; try discriminate. now exists s.
  - intros [s ->]. reflexivity.
  - intros H. destruct u; try reflexivity. now destruct (H s).
Qed.

End UuidDecoder.

(** A string of no UUID shape is accepted; a number is not. *)
Lemma Uuid_decode_accepts_exactly_strings_witness :
  decode Uuid (VString "not a uuid") = Success (VString "not a uuid")
  /\ decode Uuid (VNumber (Finite 1)) = failure (VNumber (Finite 1)) [].
Proof.
  split.
  - apply (proj1 (Uuid_decode_accepts_exactly_strings (VString "not a uuid"))).
    now exists "not a uuid".
  - apply (proj1 (proj2 (Uuid_decode_accepts_exactly_strings (VNumber (Finite 1))))).
    intros s. discriminate.
Defined.

End DispatchClaims.

(* ================================================================== *)
(** * Arrays, structs and refinements *)

Module ContainerFacts.
Import JS IoTs Random Route DispatchFacts FloatFacts.

Section WithSource.

Context {S : Type} (rng : RandomSource S).

Lemma bind_returned {A B : Type} (m : Gen S A) (k : A -> Gen S B) (s s' : S) (b : B) :
  bind m k s = (Returned b, s') ->
  exists a s1, m s = (Returned a, s1) /\ k a s1 = (Returned b, s').
Proof.
  unfold bind. destruct (m s) as [[a|e] s1]; intros H.
  - now exists a, s1.
  - discriminate.
Qed.

Lemma bind_eq {A B : Type} (m : Gen S A) (k : A -> Gen S B) (s s1 : S) (a : A) :
  m s = (Returned a, s1) -> bind m k s = k a s1.
Proof. unfold bind. now intros ->. Qed.

Lemma ret_returned {A : Type} (a b : A) (s s' : S) :
  ret a s = (Returned b, s') -> a = b /\ s = s'.
Proof. unfold ret. intros H. now injection H. Qed.

(** [xs.map(f)] returns one result per element, each a result of [f]. *)
Lemma Array_map_returned {A B : Type} (f : A -> Gen S B) (xs : list A) :
  forall (s s' : S) (bs : list B),
    Array_map f xs s = (Returned bs, s') ->
    Forall2 (fun x b => exists s1 s2, f x s1 = (Returned b, s2)) xs bs.
Proof.
  induction xs as [|x xs IH]; intros s s' bs H; cbn [Array_map] in H.
  - apply ret_returned in H as [<- _]. constructor.
  - apply bind_returned in H as (b & s1 & Hb & H).
    apply bind_returned in H as (bs' & s2 & Hbs & H).
    apply ret_returned in H as [<- _].
    constructor; [now exists s, s1 | now apply (IH s1 s2)].
Qed.

Lemma Array_map_returns {A B : Type} (f : A -> Gen S B) (xs : list A) :
  (forall x s, In x xs -> exists b s', f x s = (Returned b, s')) ->
  forall s, exists bs s', Array_map f xs s = (Returned bs, s').
Proof.
  induction xs as [|x xs IH]; intros Hf s; cbn [Array_map].
  - now exists [], s.
  - destruct (Hf x s (or_introl eq_refl)) as (b & s1 & Hb).
    destruct (IH (fun y t Hy => Hf y t (or_intror Hy)) s1) as (bs & s2 & Hbs).
    exists (b :: bs), s2.
    erewrite bind_eq by exact Hb. erewrite bind_eq by exact Hbs. reflexivity.
Qed.

(** [record.map] keeps the keys, in order, and binds each to a result of [f]. *)
Lemma record_map_returned {A B : Type} (f : A -> Gen S B) (fa : list (string * A)) :
  forall (s s' : S) (out : list (string * B)),
    record_map f fa s = (Returned out, s') ->
    Forall2 (fun p o => fst o = fst p
                        /\ exists s1 s2, f (snd p) s1 = (Returned (snd o), s2))
            fa out.
Proof.
  induction fa as [|[k a] fa IH]; intros s s' out H; cbn [record_map] in H.
  - apply ret_returned in H as [<- _]. constructor.
  - apply bind_returned in H as (b & s1 & Hb & H).
    apply bind_returned in H as (out' & s2 & Hout & H).
    apply ret_returned in H as [<- _].
    constructor; [split; [reflexivity | now exists s, s1] | now apply (IH s1 s2)].
Qed.

Lemma record_map_returns {A B : Type} (f : A -> Gen S B) (fa : list (string * A)) :
  (forall k a s, In (k, a) fa -> exists b s', f a s = (Returned b, s')) ->
  forall s, exists out s', record_map f fa s = (Returned out, s').
Proof.
  induction fa as [|[k a] fa IH]; intros Hf s; cbn [record_map].
  - now exists [], s.
  - destruct (Hf k a s (or_introl eq_refl)) as (b & s1 & Hb).
    destruct (IH (fun k' y t Hy => Hf k' y t (or_intror Hy)) s1) as (out & s2 & Hout).
    exists ((k, b) :: out), s2.
    erewrite bind_eq by exact Hb. erewrite bind_eq by exact Hout. reflexivity.
Qed.

Lemma Forall2_keys {A B : Type} (R : string * A -> string * B -> Prop)
    (fa : list (string * A)) (out : list (string * B)) :
  Forall2 (fun p o => fst o = fst p /\ R p o) fa out ->
  map fst out = map fst fa.
Proof.
  induction 1 as [|p o fa out [Hk _] _ IH]; cbn; [reflexivity | now rewrite Hk, IH].
Qed.

Lemma generate_array_elements (n : string) (type : codec) (s s' : S) (v : value) :
  reserved n = false ->
  generate rng (ArrayType n type) s = (Returned v, s') ->
  exists elements, v = VArray elements /\ Forall (generated_by rng type) elements.
Proof.
  intros Hn H. rewrite (generate_array rng n type Hn) in H.
  apply bind_returned in H as (r & s0 & _ & H).
  apply bind_returned in H as (keys & s1 & _ & H).
  apply bind_returned in H as (elements & s2 & Hmap & H).
  apply ret_returned in H as [<- _].
  exists elements. split; [reflexivity|].
  apply Array_map_returned in Hmap. clear - Hmap.
  induction Hmap as [|x b xs bs (t1 & t2 & Hb) _ IH]; constructor.
  - now exists t1, t2.
  - exact IH.
Qed.

Lemma generate_array_run (n : string) (type : codec) (s : S) :
  reserved n = false ->
  random_in_unit_interval rng ->
  generate rng (ArrayType n type) s =
  (elements <-
     Array_map (fun _ => generate rng type)
       (map Z.of_nat (seq 0 (Z.to_nat (range_at rng s)))) ;;
   ret (VArray elements)) (snd (Math_random rng s)).
Proof.
  intros Hn Hr. rewrite (generate_array rng n type Hn).
  destruct (Hr s) as [H0 H1]. unfold range_at.
  unfold bind at 1. unfold draw at 1.
  destruct (Math_random rng s) as [r s1]. cbn [fst snd] in *.
  unfold bind at 1. unfold lift.
  pose proof (floor_of_product r H0 H1) as Hf.
  pose proof (count_at_most_ten r H0 H1) as Hc. revert Hf Hc.
  generalize (integer_of (Math_floor (multiply r 10))). intros range Hf Hc.
  now rewrite Hf, (Array_keys_of_count range Hc).
Qed.

Lemma generate_array_returned (n : string) (type : codec) (s s' : S) (v : value) :
  reserved n = false ->
  random_in_unit_interval rng ->
  generate rng (ArrayType n type) s = (Returned v, s') ->
  exists elements,
    v = VArray elements
    /\ Z.of_nat (List.length elements) = range_at rng s
    /\ Forall (generated_by rng type) elements.
Proof.
  intros Hn Hr H. rewrite (generate_array_run n type s Hn Hr) in H.
  apply bind_returned in H as (elements & s2 & Hmap & H).
  apply ret_returned in H as [<- _].
  exists elements. split; [reflexivity|].
  apply Array_map_returned in Hmap.
  destruct (Hr s) as [H0 H1]. pose proof (count_at_most_ten _ H0 H1) as Hc.
  split.
  - rewrite <- (Forall2_length Hmap), length_map, length_seq. unfold range_at. lia.
  - clear - Hmap. induction Hmap as [|x b xs bs (s1 & s2 & Hb) _ IH]; constructor.
    + now exists s1, s2.
    + exact IH.
Qed.

Lemma generate_array_returns (n : string) (type : codec) (s : S) :
  reserved n = false ->
  random_in_unit_interval rng ->
  always_returns rng type ->
  exists elements s', generate rng (ArrayType n type) s = (Returned (VArray elements), s').
Proof.
  intros Hn Hr Ht. rewrite (generate_array_run n type s Hn Hr).
  destruct (Array_map_returns (fun _ : Z => generate rng type)
              (map Z.of_nat (seq 0 (Z.to_nat (range_at rng s))))
              (fun _ t _ => Ht t) (snd (Math_random rng s))) as (elements & s' & H).
  exists elements, s'. erewrite bind_eq by exact H. reflexivity.
Qed.

Lemma generate_string_returns (n : string) (s : S) :
  reserved n = false ->
  generate rng (StringType n) s =
  (Returned (VString (fst (faker_datatype_string rng s))),
   snd (faker_datatype_string rng s)).
Proof.
  intros Hn. rewrite (generate_string rng n Hn). unfold bind, draw, ret.
  now destruct (faker_datatype_string rng s).
Qed.

Lemma generate_number_returns (n : string) (s : S) :
  reserved n = false ->
  generate rng (NumberType n) s =
  (Returned (VNumber (fst (faker_datatype_number rng s))),
   snd (faker_datatype_number rng s)).
Proof.
  intros Hn. rewrite (generate_number rng n Hn). unfold bind, draw, ret.
  now destruct (faker_datatype_number rng s).
Qed.

Lemma generate_boolean_returns (n : string) (s : S) :
  reserved n = false ->
  generate rng (BooleanType n) s =
  (Returned (VBoolean (fst (faker_datatype_boolean rng s))),
   snd (faker_datatype_boolean rng s)).
Proof.
  intros Hn. rewrite (generate_boolean rng n Hn). unfold bind, draw, ret.
  now destruct (faker_datatype_boolean rng s).
Qed.

Lemma t_string_always_returns : always_returns rng t_string.
Proof.
  intros s. unfold t_string. rewrite generate_string_returns by reflexivity. eauto.
Qed.

Lemma t_number_always_returns : always_returns rng t_number.
Proof.
  intros s. unfold t_number. rewrite generate_number_returns by reflexivity. eauto.
Qed.

Lemma t_boolean_always_returns : always_returns rng t_boolean.
Proof.
  intros s. unfold t_boolean. rewrite generate_boolean_returns by reflexivity. eauto.
Qed.

End WithSource.

End ContainerFacts.

(* ================================================================== *)
(** * Array bounds, struct fields, refinements *)

Module ContainerClaims.
Import JS IoTs Random Route DispatchFacts FloatFacts ContainerFacts.

Section WithSource.

Context {S : Type} (rng : RandomSource S).

(** C5, amended.  For an array node whose name is not reserved, and a
    [Math.random] that returns a binary64 number of [0, 1): the count
    [Math.floor(Math.random() * 10)], the floor of the binary64 product, is an
    integer of [0, 10); [generate] recurses into the element node once per
    index, in order; when it returns, it returns an array of exactly that many
    values, each generated from the element node; it returns whenever the
    element node generates; and a draw below 1/10 gives the empty array. *)
Theorem array_count_in_range :
  forall (n : string) (type : codec) (s : S),
    reserved n = false ->
    random_in_unit_interval rng ->
    random_is_binary64 rng ->
    let range := Math_floor (multiply (fst (Math_random rng s)) 10) in
    range = Finite (inject_Z (integer_of range))
    /\ 0 <= integer_of range < 10
    /\ generate rng (ArrayType n type) s =
       (elements <-
          Array_map (fun _ => generate rng type)
            (map Z.of_nat (seq 0 (Z.to_nat (integer_of range)))) ;;
        ret (VArray elements)) (snd (Math_random rng s))
    /\ (forall v s',
          generate rng (ArrayType n type) s = (Returned v, s') ->
          exists elements,
            v = VArray elements
            /\ Z.of_nat (List.length elements) = integer_of range
            /\ Forall (generated_by rng type) elements)
    /\ (always_returns rng type ->
        exists elements s',
          generate rng (ArrayType n type) s = (Returned (VArray elements), s'))
    /\ ((fst (Math_random rng s) < 1 # 10)%Q ->
        generate rng (ArrayType n type) s = (Returned (VArray []), snd (Math_random rng s))).
Proof.
  intros n type s Hn Hr Hb range. destruct (Hr s) as [H0 H1].
  split; [exact (floor_of_product _ H0 H1)|].
  split; [exact (count_in_range _ (Hb s) H0 H1)|].
  split; [exact (generate_array_run rng n type s Hn Hr)|].
  split; [intros v s'; exact (generate_array_returned rng n type s s' v Hn Hr)|].
  split; [exact (generate_array_returns rng n type s Hn Hr)|].
  intros Hsmall. rewrite (generate_array_run rng n type s Hn Hr).
  unfold range_at. now rewrite (count_zero _ (Hb s) H0 Hsmall).
Qed.

(** C4, amended.  For a struct-kind node whose name is not reserved and whose
    field mapping [getProps] finds ([props] of an interface or partial node,
    or of the struct node an exact node wraps): [generate] maps [generate]
    over the fields; when it returns, it returns an object whose keys are
    exactly the field names, in order, each bound to a value generated from
    that field's node; and it returns whenever every field's node
    generates. *)
Theorem struct_fields_complete :
  forall (c : codec) (props : Props) (s : S),
    reserved (name c) = false ->
    getProps c = Some props ->
    generate rng c s =
      (fields <- record_map (generate rng) props ;; ret (VObject fields)) s
    /\ (forall v s',
          generate rng c s = (Returned v, s') ->
          exists fields,
            v = VObject fields
            /\ map fst fields = map fst props
            /\ Forall2 (field_generated rng) props fields)
    /\ ((forall k type, In (k, type) props -> always_returns rng type) ->
        exists fields s', generate rng c s = (Returned (VObject fields), s')).
Proof.
  intros c props s Hn Hp.
  assert (Hk : struct_kind c = true) by (destruct c; try discriminate; reflexivity).
  assert (Heq : generate rng c s =
                (fields <- record_map (generate rng) props ;; ret (VObject fields)) s).
  { rewrite (generate_struct rng c Hn Hk), Hp. reflexivity. }
  split; [exact Heq|]. split.
  - intros v s' H. rewrite Heq in H.
    apply bind_returned in H as (fields & s1 & Hmap & H).
    apply ret_returned in H as [<- _].
    apply record_map_returned in Hmap.
    exists fields. split; [reflexivity|]. split.
    + exact (Forall2_keys _ _ _ Hmap).
    + clear - Hmap.
      induction Hmap as [|p o fa out [Hkey (s1 & s2 & Hv)] _ IH]; constructor.
      * split; [exact Hkey | now exists s1, s2].
      * exact IH.
  - intros Hfields.
    destruct (record_map_returns (generate rng) props
                (fun k type t Hin => Hfields k type Hin t) s) as (fields & s' & H).
    exists fields, s'. rewrite Heq. erewrite bind_eq by exact H. reflexivity.
Qed.

(** C3, the code at refinement nodes.  [generate] calls [filter] on the
    candidate instead of testing the candidate.  On a refined number the call
    throws a TypeError, from every state and for every predicate.  On a
    refinement of [t.array(t.string)] by [a => a.length > 0] the predicate is
    applied to the elements, not to the array: what [generate] returns is the
    array of the generated strings that are not empty; and when the draw of
    [Math.random] is below 1/10 it returns the empty array, which the
    refinement's own decoder rejects. *)
Theorem refinement_calls_filter_on_candidate :
  forall (predicate : value -> bool) (s : S),
    let NonEmpty := RefinementType "NonEmpty" (t_array t_string) Shapes.length_positive in
    generate rng (RefinementType "NonNegative" t_number predicate) s =
      (Threw (TypeError "generate(...).filter is not a function"),
       snd (faker_datatype_number rng s))
    /\ (forall v s',
          generate rng NonEmpty s = (Returned v, s') ->
          exists elements,
            generate rng (t_array t_string) s = (Returned (VArray elements), s')
            /\ v = VArray (filter Shapes.length_positive elements))
    /\ (random_in_unit_interval rng ->
        random_is_binary64 rng ->
        (fst (Math_random rng s) < 1 # 10)%Q ->
        generate rng NonEmpty s = (Returned (VArray []), snd (Math_random rng s))
        /\ Shapes.length_positive (VArray []) = false
        /\ decode NonEmpty (VArray []) = Failure [mkValidationError (VArray []) []]).
Proof.
  intros predicate s NonEmpty. split; [|split].
  - rewrite generate_refinement by reflexivity.
    unfold bind, t_number. rewrite generate_number_returns by reflexivity.
    reflexivity.
  - intros v s' H. unfold NonEmpty in H. rewrite generate_refinement in H by reflexivity.
    apply bind_returned in H as (candidate & s1 & Hc & H).
    pose proof Hc as Hc'. unfold t_array in Hc'. cbn [name t_string] in Hc'.
    destruct (generate_array_elements rng "Array<string>" t_string s s1 _ eq_refl Hc')
      as (els & -> & _).
    unfold lift in H. cbn [call_filter] in H. injection H as <- <-.
    now exists els.
  - intros Hr Hb Hsmall. split; [|split; reflexivity].
    destruct (Hr s) as [H0 _].
    unfold NonEmpty. rewrite generate_refinement by reflexivity.
    unfold bind at 1. change (t_array t_string) with (ArrayType "Array<string>" t_string).
    rewrite (generate_array_run rng "Array<string>" t_string s eq_refl Hr).
    unfold range_at. rewrite (count_zero _ (Hb s) H0 Hsmall). reflexivity.
Qed.

End WithSource.

(** The seeded source at a state whose draw is 0: the empty array; and at a
    state whose draw is the binary64 number 0.655: six strings. *)
Lemma array_count_in_range_witness :
  generate Sample.seeded (t_array t_string) 0 = (Returned (VArray []), 12345)
  /\ exists elements s',
       generate Sample.seeded (t_array t_string) 5 = (Returned (VArray elements), s')
       /\ List.length elements = 6%nat.
Proof.
  split.
  - apply (proj2 (proj2 (proj2 (proj2 (proj2
      (array_count_in_range Sample.seeded "Array<string>" t_string 0 eq_refl
         SampleFacts.seeded_random_in_unit_interval
         SampleFacts.seeded_random_is_binary64)))))).
    vm_compute. reflexivity.
  - destruct (proj1 (proj2 (proj2 (proj2 (proj2
      (array_count_in_range Sample.seeded "Array<string>" t_string 5 eq_refl
         SampleFacts.seeded_random_in_unit_interval
         SampleFacts.seeded_random_is_binary64)))))) as (elements & s' & H).
    { apply t_string_always_returns. }
    exists elements, s'. split; [exact H|].
    destruct (proj1 (proj2 (proj2 (proj2
      (array_count_in_range Sample.seeded "Array<string>" t_string 5 eq_refl
         SampleFacts.seeded_random_in_unit_interval
         SampleFacts.seeded_random_is_binary64)))) _ _ H) as (els & Heq & Hlen & _).
    injection Heq as <-. apply Nat2Z.inj. rewrite Hlen. vm_compute. reflexivity.
Defined.

(** C5 as stated fails on an array node that carries a reserved name:
    [t.array(t.string, "Uuid")] is generated by the uuid short-circuit, so what
    [generate] returns is a string and no array. *)
Lemma array_named_Uuid_generates_no_array :
  ~ (forall (n : string) (type : codec) (s : Z) (v : value) (s' : Z),
       generate Sample.seeded (ArrayType n type) s = (Returned v, s') ->
       exists elements, v = VArray elements /\ (List.length elements < 10)%nat).
Proof.
  intros H.
  destruct (H "Uuid" t_string 1 _ _ eq_refl) as (elements & Heq & _).
  discriminate Heq.
Qed.

(** [exact(interface({x: boolean}))] on the seeded source: the key x only. *)
Lemma struct_fields_complete_witness :
  exists fields s',
    generate Sample.seeded (ExactType "{| x: boolean |}" (t_type [("x", t_boolean)])) 5
    = (Returned (VObject fields), s')
    /\ map fst fields = ["x"].
Proof.
  pose proof (struct_fields_complete Sample.seeded
                (ExactType "{| x: boolean |}" (t_type [("x", t_boolean)]))
                [("x", t_boolean)] 5 eq_refl eq_refl) as (_ & Hshape & Hreturns).
  destruct Hreturns as (fields & s' & H).
  { intros k type [Hin|[]]. injection Hin as _ <-. apply t_boolean_always_returns. }
  exists fields, s'. split; [exact H|].
  destruct (Hshape _ _ H) as (fields' & Heq & Hkeys & _).
  injection Heq as <-. exact Hkeys.
Defined.

(** C4 as stated fails on a struct node that carries a reserved name:
    [t.type({a: t.string, b: t.number}, "Uuid")] is generated by the uuid
    short-circuit, so what [generate] returns is a string and no mapping. *)
Lemma struct_named_Uuid_generates_no_mapping :
  ~ (forall (c : codec) (props : Props) (s : Z) (v : value) (s' : Z),
       getProps c = Some props ->
       generate Sample.seeded c s = (Returned v, s') ->
       exists fields, v = VObject fields /\ map fst fields = map fst props).
Proof.
  intros H.
  destruct (H (InterfaceType "Uuid" [("a", t_string); ("b", t_number)])
              _ 1 _ _ eq_refl eq_refl) as (fields & Heq & _).
  discriminate Heq.
Qed.

(** The two refinements on the seeded source: the refined number throws; at
    a state whose draw is 0 the refinement to non-empty arrays returns the
    empty array. *)
Lemma refinement_calls_filter_on_candidate_witness :
  generate Sample.seeded
    (RefinementType "NonNegative" t_number (fun _ => true)) 5
  = (Threw (TypeError "generate(...).filter is not a function"), 1222621274)
  /\ generate Sample.seeded
       (RefinementType "NonEmpty" (t_array t_string) Shapes.length_positive) 0
     = (Returned (VArray []), 12345).
Proof.
  split.
  - exact (proj1 (refinement_calls_filter_on_candidate Sample.seeded (fun _ => true) 5)).
  - apply (proj2 (proj2 (refinement_calls_filter_on_candidate Sample.seeded
                           (fun _ => true) 0))
             SampleFacts.seeded_random_in_unit_interval
             SampleFacts.seeded_random_is_binary64).
    vm_compute. reflexivity.
Defined.

End ContainerClaims.

(* ================================================================== *)
(** * Strings of digits *)

Module StringFacts.
Import JS.

Lemma forallb_app (p : ascii -> bool) (a b : string) :
  string_forallb p (a ++ b) = string_forallb p a && string_forallb p b.
Proof.
  induction a as [|c a IH]; cbn; [reflexivity|].
  now rewrite IH, andb_assoc.
Qed.

Lemma mem_app (c : ascii) (a b : string) :
  string_mem c (a ++ b) = string_mem c a || string_mem c b.
Proof.
  induction a as [|c' a IH]; cbn; [reflexivity|].
  now rewrite IH, orb_assoc.
Qed.

Lemma mem_skip (c : ascii) (a b : string) :
  string_mem c b = true -> string_mem c (a ++ b) = true.
Proof. intros H. now rewrite mem_app, H, orb_true_r. Qed.

Lemma forallb_weaken (p q : ascii -> bool) (s : string) :
  (forall c, p c = true -> q c = true) ->
  string_forallb p s = true -> string_forallb q s = true.
Proof.
  intros Hpq. induction s as [|c s IH]; cbn; [reflexivity|].
  intros H. apply andb_true_iff in H as [Hc Hs].
  now rewrite (Hpq c Hc), (IH Hs).
Qed.

Lemma forallb_not_mem (p : ascii -> bool) (c : ascii) (s : string) :
  p c = false -> string_forallb p s = true -> string_mem c s = false.
Proof.
  intros Hc. induction s as [|c' s IH]; cbn; [reflexivity|].
  intros H. apply andb_true_iff in H as [Hc' Hs].
  rewrite (IH Hs), orb_false_r.
  destruct (Ascii.eqb_spec c' c) as [->|]; [congruence | reflexivity].
Qed.

Lemma append_empty (s : string) : s ++ "" = s.
Proof. induction s as [|c s IH]; cbn; [reflexivity | now rewrite IH]. Qed.

Lemma digit_of_is_digit (n : N) : is_digit (digit_of n) = true.
Proof.
  unfold is_digit, digit_of.
  pose proof (N.mod_upper_bound n 10 ltac:(discriminate)) as H.
  generalize dependent (n mod 10)%N. intros m H.
  rewrite N_ascii_embedding by lia.
  apply andb_true_iff. split; apply N.leb_le; lia.
Qed.

Lemma digits_from_digits (fuel : nat) :
  forall (n : N) (acc : string),
    string_forallb is_digit acc = true ->
    string_forallb is_digit (digits_from fuel n acc) = true.
Proof.
  induction fuel as [|fuel IH]; intros n acc Hacc; cbn [digits_from]; [exact Hacc|].
  assert (H : string_forallb is_digit (String (digit_of n) acc) = true).
  { cbn. now rewrite digit_of_is_digit, Hacc. }
  destruct (n / 10 =? 0)%N; [exact H | now apply IH].
Qed.

Lemma digits_from_nonempty (fuel : nat) (n : N) (acc : string) :
  acc <> "" -> digits_from fuel n acc <> "".
Proof.
  revert n acc. induction fuel as [|fuel IH]; intros n acc Hacc; cbn [digits_from];
    [exact Hacc|].
  destruct (n / 10 =? 0)%N; [discriminate | apply IH; discriminate].
Qed.

Lemma string_of_N_digits (n : N) : string_forallb is_digit (string_of_N n) = true.
Proof. unfold string_of_N. now apply digits_from_digits. Qed.

Lemma string_of_N_nonempty (n : N) : string_of_N n <> "".
Proof.
  unfold string_of_N. cbn [digits_from].
  destruct (n / 10 =? 0)%N; [discriminate | apply digits_from_nonempty; discriminate].
Qed.

Lemma zeros_digits (k : nat) : string_forallb is_digit (zeros k) = true.
Proof. induction k as [|k IH]; cbn; [reflexivity | exact IH]. Qed.

Lemma padStart0_digits (w : nat) (s : string) :
  string_forallb is_digit s = true -> string_forallb is_digit (padStart0 w s) = true.
Proof.
  intros H. unfold padStart0. now rewrite forallb_app, zeros_digits, H.
Qed.

Lemma padStart0_nonempty (w : nat) (s : string) : s <> "" -> padStart0 w s <> "".
Proof.
  intros H. unfold padStart0. destruct (zeros (w - String.length s)); cbn;
    [exact H | discriminate].
Qed.

Lemma pad_digits (w : nat) (n : Z) : string_forallb is_digit (pad w n) = true.
Proof. unfold pad. apply padStart0_digits, string_of_N_digits. Qed.

Lemma pad_nonempty (w : nat) (n : Z) : pad w n <> "".
Proof. unfold pad. apply padStart0_nonempty, string_of_N_nonempty. Qed.

End StringFacts.

(* ================================================================== *)
(** * The branded codecs: dates on the wire and in the domain, encoders *)

Module CodecFacts.
Import JS IoTs Random Route DateFns StringFacts.

Lemma addLeadingZeros_date_only (n : Z) (w : nat) :
  date_only (addLeadingZeros n w) = true.
Proof.
  unfold date_only, addLeadingZeros. rewrite forallb_app.
  apply andb_true_iff. split.
  - now destruct (n <? 0).
  - apply forallb_weaken with (p := is_digit).
    + intros c Hc. now rewrite Hc.
    + apply padStart0_digits, string_of_N_digits.
Qed.

Lemma yyyy_MM_dd_date_only (y m d : Z) : date_only (yyyy_MM_dd y m d) = true.
Proof.
  unfold yyyy_MM_dd.
  pose proof (addLeadingZeros_date_only (if y >? 0 then y else 1 - y) 4) as Hy.
  pose proof (addLeadingZeros_date_only m 2) as Hm.
  pose proof (addLeadingZeros_date_only d 2) as Hd.
  unfold date_only in *.
  rewrite forallb_app, Hy. cbn [append string_forallb].
  rewrite forallb_app, Hm. cbn [append string_forallb].
  now rewrite Hd.
Qed.

Lemma date_only_no_time_of_day (s : string) :
  date_only s = true -> has_time_of_day s = false.
Proof. intros H. apply (forallb_not_mem _ "T" s eq_refl H). Qed.

(** [format(date, "yyyy-MM-dd")] on a valid date. *)
Lemma format_yyyy_MM_dd (getTimezoneOffset : Z -> Z) (t : Z) :
  format getTimezoneOffset (VDate (TimeValue t)) "yyyy-MM-dd" =
  Returned (let '(y, m, d) := local_date getTimezoneOffset t in yyyy_MM_dd y m d).
Proof.
  unfold format, local_date. cbn [toDate].
  destruct (civil_from_days ((t - getTimezoneOffset t * 60000) / msPerDay))
    as [[y m] d].
  change (tokens "yyyy-MM-dd")
    with [Run "y" 4; Literal "-"; Run "M" 2; Literal "-"; Run "d" 2].
  cbn [format_tokens format_token Nat.eqb]. unfold yyyy_MM_dd.
  now rewrite append_empty.
Qed.

Lemma toISOString_has_time_of_day (d : Date) (iso : string) :
  toISOString d = Returned iso -> has_time_of_day iso = true.
Proof.
  destruct d as [|t]; cbn [toISOString]; [discriminate|].
  destruct (civil_from_days (t / msPerDay)) as [[y m] dd].
  intros H. injection H as <-. unfold has_time_of_day.
  apply mem_skip. apply (mem_skip "T" "-"). apply mem_skip.
  apply (mem_skip "T" "-"). apply mem_skip.
  cbn [append string_mem]. now rewrite Ascii.eqb_refl.
Qed.

Lemma generate_DateFromISOString {S : Type} (rng : RandomSource S) (env : Env)
    (s s' : S) (v : value) :
  generate rng (DateFromISOString env) s = (Returned v, s') ->
  exists date wire,
    fst (faker_date_past rng s) = date
    /\ toISOString date = Returned wire
    /\ v = VString wire.
Proof.
  rewrite (DispatchFacts.generate_date rng (DateFromISOString env) eq_refl).
  unfold bind, draw, lift, ret.
  destruct (faker_date_past rng s) as [date s1]. cbn [fst].
  destruct (toISOString date) as [wire|e] eqn:Hiso; intros H; [|discriminate].
  injection H as <- _. now exists date, wire.
Qed.

End CodecFacts.

Module CodecClaims.
Import JS IoTs Random Route DateFns StringFacts CodecFacts.

(** C6.  Decoding a string with the ISO-date codec fails exactly when
    [parseISO] of the string is no valid date; encoding a valid date formats
    its local calendar date with the pattern yyyy-MM-dd; so for a wire string
    with a time of day, encoding the decoded date gives a string of digits
    and hyphens only, different from the wire string; and every string
    [generate] returns for the date codec has a time of day. *)
Theorem DateFromISOString_wire_domain_asymmetry :
  forall env : Env,
    (forall s : string,
        (exists errors, decode (DateFromISOString env) (VString s) = Failure errors)
        <-> isValid (parseISO env s) = false)
    /\ (forall t : Z,
          DateFromISOString_encode env (VDate (TimeValue t)) =
          Returned (VString (let '(y, m, d) := local_date (getTimezoneOffset env) t in
                             yyyy_MM_dd y m d)))
    /\ (forall (wire : string) (d : Date),
          has_time_of_day wire = true ->
          decode (DateFromISOString env) (VString wire) = Success (VDate d) ->
          exists out,
            DateFromISOString_encode env (VDate d) = Returned (VString out)
            /\ date_only out = true
            /\ out <> wire)
    /\ (forall (S : Type) (rng : RandomSource S) (s s' : S) (v : value),
          generate rng (DateFromISOString env) s = (Returned v, s') ->
          exists wire, v = VString wire /\ has_time_of_day wire = true).
Proof.
  intros env.
  assert (Hdec : forall s,
            decode (DateFromISOString env) (VString s) =
            if isValid (parseISO env s) then Success (VDate (parseISO env s))
            else failure (VString s) []).
  { intros s. reflexivity. }
  assert (Henc : forall t,
            DateFromISOString_encode env (VDate (TimeValue t)) =
            Returned (VString (let '(y, m, d) := local_date (getTimezoneOffset env) t in
                               yyyy_MM_dd y m d))).
  { intros t. unfold DateFromISOString_encode. now rewrite format_yyyy_MM_dd. }
  split; [|split; [exact Henc|split]].
  - intros s. rewrite Hdec. destruct (isValid (parseISO env s)); split.
    + intros [errors H]. discriminate.
    + discriminate.
    + reflexivity.
    + intros _. eexists. reflexivity.
  - intros wire d Hwire Hd. rewrite Hdec in Hd.
    destruct (isValid (parseISO env wire)) eqn:Hvalid; [|discriminate].
    injection Hd as <-.
    destruct (parseISO env wire) as [|t]; [discriminate|].
    rewrite Henc.
    destruct (local_date (getTimezoneOffset env) t) as [[y m] dd].
    exists (yyyy_MM_dd y m dd). split; [reflexivity|]. split.
    + apply yyyy_MM_dd_date_only.
    + intros Heq.
      pose proof (date_only_no_time_of_day _ (yyyy_MM_dd_date_only y m dd)) as Hno.
      rewrite Heq in Hno. congruence.
  - intros S rng s s' v H.
    apply generate_DateFromISOString in H as (date & wire & _ & Hiso & ->).
    exists wire. split; [reflexivity|].
    exact (toISOString_has_time_of_day _ _ Hiso).
Qed.

(** On the host three hours behind UTC: a generated wire string, its decoded
    date and the encoded date portion, which here is the day before the one
    the wire string names. *)
Lemma DateFromISOString_wire_domain_asymmetry_witness :
  decode (DateFromISOString Sample.host) (VString "2022-05-05T01:35:44.383Z")
  = Success (VDate (TimeValue 1651714544383))
  /\ DateFromISOString_encode Sample.host (VDate (TimeValue 1651714544383))
     = Returned (VString "2022-05-04")
  /\ exists out,
       DateFromISOString_encode Sample.host (VDate (TimeValue 1651714544383))
       = Returned (VString out)
       /\ date_only out = true
       /\ out <> "2022-05-05T01:35:44.383Z".
Proof.
  split; [vm_compute; reflexivity|]. split; [vm_compute; reflexivity|].
  apply (proj1 (proj2 (proj2 (DateFromISOString_wire_domain_asymmetry Sample.host)))
           "2022-05-05T01:35:44.383Z" (TimeValue 1651714544383)).
  - reflexivity.
  - vm_compute. reflexivity.
Defined.




End CodecClaims.

(* ================================================================== *)
(** * The round trip: what [generate] returns, the decoder accepts *)

Module RoundTripFacts.
Import JS IoTs Random Route DispatchFacts ContainerFacts.

(** Induction over schema nodes that reaches the fields of struct nodes. *)
Lemma codec_nested_ind (P : codec -> Prop) :
  (forall n i v e, P (Type_ n i v e)) ->
  (forall t n v, P (OtherType t n v)) ->
  (forall n, P (StringType n)) ->
  (forall n, P (NumberType n)) ->
  (forall n, P (BooleanType n)) ->
  (forall n type, P type -> P (ArrayType n type)) ->
  (forall n props, Forall (fun p => P (snd p)) props -> P (InterfaceType n props)) ->
  (forall n props, Forall (fun p => P (snd p)) props -> P (PartialType n props)) ->
  (forall n type, P type -> P (ExactType n type)) ->
  (forall n type predicate, P type -> P (RefinementType n type predicate)) ->
  forall c, P c.
Proof.
  intros HT HO HS HN HB HA HI HP HE HR.
  fix IH 1. intros [n i v e|t n v|n|n|n|n type|n props|n props|n type|n type predicate].
  - apply HT.
  - apply HO.
  - apply HS.
  - apply HN.
  - apply HB.
  - apply HA, IH.
  - apply HI. induction props as [|[k type] props IHprops]; constructor;
      [apply IH | exact IHprops].
  - apply HP. induction props as [|[k type] props IHprops]; constructor;
      [apply IH | exact IHprops].
  - apply HE, IH.
  - apply HR, IH.
Qed.

(** ** Objects *)

Lemma get_set_other (a : object) (k k' : string) (v : value) :
  k <> k' -> get (set a k v) k' = get a k'.
Proof.
  intros Hk. induction a as [|[k0 v0] a IH]; cbn [set get].
  - destruct (String.eqb_spec k k'); [contradiction | reflexivity].
  - destruct (String.eqb_spec k0 k) as [->|Hk0]; cbn [get].
    + destruct (String.eqb_spec k k'); [contradiction | reflexivity].
    + now rewrite IH.
Qed.

(** ** The validation loops on values that validate *)

Lemma validate_elements_accepts (item : value -> Context -> Validation)
    (us : list value) :
  Forall (accepts item) us ->
  forall i c, exists as_, validate_elements item us i c = ([], as_).
Proof.
  induction 1 as [|u us Hu _ IH]; intros i c; cbn [validate_elements].
  - now exists [].
  - destruct (Hu (appendContext c (string_of_N i))) as [a ->].
    destruct (IH (i + 1)%N c) as [as_ ->].
    now exists (a :: as_).
Qed.

Lemma validate_props_accepts (validate : codec -> value -> Context -> Validation)
    (props : Props) :
  forall (a : object) (c : Context),
    NoDup (map fst props) ->
    (forall k type, In (k, type) props -> accepts (validate type) (get a k)) ->
    exists a', validate_props validate props a c = ([], a').
Proof.
  induction props as [|[k type] props IH]; intros a c Hnd Hall; cbn [validate_props].
  - now exists a.
  - destruct (Hall k type (or_introl eq_refl) (appendContext c k)) as [vak ->].
    cbn [map fst] in Hnd. apply NoDup_cons_iff in Hnd as [Hk Hnd].
    apply IH; [exact Hnd|].
    intros k' type' Hin. rewrite get_set_other.
    + apply Hall. now right.
    + intros ->. apply Hk. apply (in_map fst) in Hin. exact Hin.
Qed.

Lemma validate_partial_props_accepts
    (validate : codec -> value -> Context -> Validation) (props : Props) :
  forall (a : object) (c : Context),
    NoDup (map fst props) ->
    (forall k type, In (k, type) props -> accepts (validate type) (get a k)) ->
    exists a', validate_partial_props validate props a c = ([], a').
Proof.
  induction props as [|[k type] props IH]; intros a c Hnd Hall;
    cbn [validate_partial_props].
  - now exists a.
  - destruct (Hall k type (or_introl eq_refl) (appendContext c k)) as [vak ->].
    cbn [map fst] in Hnd. apply NoDup_cons_iff in Hnd as [Hk Hnd].
    assert (Hset : forall k' type', In (k', type') props ->
                   accepts (validate type') (get (set a k vak) k')).
    { intros k' type' Hin. rewrite get_set_other.
      - apply Hall. now right.
      - intros ->. apply Hk. apply (in_map fst) in Hin. exact Hin. }
    destruct vak; try (apply IH; [exact Hnd | exact Hset]).
    destruct (hasOwnProperty a k); apply IH; try exact Hnd; try exact Hset.
    intros k' type' Hin. apply Hall. now right.
Qed.

(** ** Fields *)

Lemma supported_fields_Forall (env : Env) (props : Props) :
  (fix fields (ps : Props) : Prop :=
     match ps with
     | [] => True
     | (_, type) :: rest => supported env type /\ fields rest
     end) props
  <-> Forall (fun p => supported env (snd p)) props.
Proof.
  induction props as [|[k type] props IH].
  - split; [constructor | exact (fun _ => I)].
  - rewrite Forall_cons_iff, <- IH. reflexivity.
Qed.

Lemma supported_interface (env : Env) (n : string) (props : Props) :
  supported env (InterfaceType n props)
  <-> reserved n = false /\ struct_body_supported env (InterfaceType n props).
Proof. cbn [supported struct_body_supported]. now rewrite supported_fields_Forall. Qed.

Lemma supported_partial (env : Env) (n : string) (props : Props) :
  supported env (PartialType n props)
  <-> reserved n = false /\ struct_body_supported env (PartialType n props).
Proof. cbn [supported struct_body_supported]. now rewrite supported_fields_Forall. Qed.

Lemma supported_exact (env : Env) (n : string) (type : codec) :
  supported env (ExactType n type)
  <-> reserved n = false /\ struct_body_supported env type.
Proof.
  destruct type; cbn [supported struct_body_supported]; try reflexivity;
    now rewrite supported_fields_Forall.
Qed.

Section WithSource.

Context {S : Type} (rng : RandomSource S).

(** Reading a declared key from a generated object gives the value generated
    for that field. *)
Lemma fields_accept (props : Props) (fields : object) :
  Forall2 (field_generated rng) props fields ->
  NoDup (map fst props) ->
  Forall (fun p => decodes rng (snd p)) props ->
  forall k type, In (k, type) props -> accepts (validate type) (get fields k).
Proof.
  induction 1 as [|[k0 t0] [k0' v0] props fields [Hkey Hgen] _ IH];
    intros Hnd Hdec k type Hin; [destruct Hin|].
  cbn [fst snd] in Hkey, Hgen. subst k0'.
  cbn [map fst] in Hnd. apply NoDup_cons_iff in Hnd as [Hk0 Hnd].
  apply Forall_cons_iff in Hdec as [Hd0 Hdec]. cbn [snd] in Hd0.
  cbn [get]. destruct Hin as [Heq|Hin].
  - injection Heq as <- <-. rewrite String.eqb_refl. now apply Hd0.
  - destruct (String.eqb_spec k0 k) as [->|_].
    + exfalso. apply Hk0. apply (in_map fst) in Hin. exact Hin.
    + now apply IH.
Qed.

Lemma record_map_generated (props : Props) (s s' : S) (fields : object) :
  record_map (generate rng) props s = (Returned fields, s') ->
  Forall2 (field_generated rng) props fields.
Proof.
  intros H. apply record_map_returned in H.
  induction H as [|p o fa out [Hkey (s1 & s2 & Hv)] _ IH]; constructor.
  - split; [exact Hkey | now exists s1, s2].
  - exact IH.
Qed.

Lemma of_errors_nil (a : value) : of_errors [] a = Success a.
Proof. reflexivity. Qed.

End WithSource.

End RoundTripFacts.

Module RoundTrip.
Import JS IoTs Random Route DispatchFacts ContainerFacts RoundTripFacts.

Section Contracts.

Context {S : Type} (rng : RandomSource S) (env : Env).

Hypothesis random_contract : random_in_unit_interval rng.
Hypothesis dates_contract : dates_valid rng.
Hypothesis parseISO_contract : parseISO_reads_drawn_dates rng env.
Hypothesis Decimal_contract : Decimal_constructs env.

(** What the three short-circuits return, whatever the node is. *)
Lemma date_named_returns (c : codec) (s : S) :
  name c = "DateFromStringISO" ->
  exists iso,
    toISOString (fst (faker_date_past rng s)) = Returned iso
    /\ generate rng c s = (Returned (VString iso), snd (faker_date_past rng s)).
Proof.
  intros Hn. rewrite (generate_date rng c Hn).
  unfold bind, draw, lift, ret. pose proof (dates_contract s) as Hvalid.
  destruct (faker_date_past rng s) as [[|t] s1]; [discriminate|]. cbn [fst snd].
  destruct (toISOString (TimeValue t)) as [iso|e] eqn:Hiso.
  - now exists iso.
  - cbn [toISOString] in Hiso.
    destruct (civil_from_days (t / msPerDay)) as [[y m] dd]. discriminate.
Qed.

Lemma uuid_named_returns (c : codec) (s : S) :
  name c = "Uuid" ->
  generate rng c s =
  (Returned (VString (fst (faker_datatype_uuid rng s))), snd (faker_datatype_uuid rng s)).
Proof.
  intros Hn. rewrite (generate_uuid rng c Hn).
  unfold bind, draw, ret. now destruct (faker_datatype_uuid rng s).
Qed.

Lemma currency_named_returns (c : codec) (s : S) :
  name c = "CurrencyFromString" ->
  generate rng c s =
  (Returned (VNumber (fst (faker_datatype_float rng (1 # 100) s))),
   snd (faker_datatype_float rng (1 # 100) s)).
Proof.
  intros Hn. rewrite (generate_currency rng c Hn).
  unfold bind, draw, ret. now destruct (faker_datatype_float rng (1 # 100) s).
Qed.

(** A string leaf generates a string unless it is named as the currency
    codec; a number leaf generates a number unless it is named as the date or
    the uuid codec. *)
Lemma string_leaf_returns (n : string) (s : S) :
  String.eqb n "CurrencyFromString" = false ->
  exists str s', generate rng (StringType n) s = (Returned (VString str), s').
Proof.
  intros Hc.
  destruct (String.eqb_spec n "DateFromStringISO") as [Hd|Hd].
  { destruct (date_named_returns (StringType n) s Hd) as (iso & _ & H). eauto. }
  destruct (String.eqb_spec n "Uuid") as [Hu|Hu].
  { rewrite (uuid_named_returns (StringType n) s Hu). eauto. }
  rewrite generate_string_returns; [eauto|].
  unfold reserved. rewrite Hc.
  apply String.eqb_neq in Hd, Hu. now rewrite Hd, Hu.
Qed.

Lemma number_leaf_returns (n : string) (s : S) :
  String.eqb n "DateFromStringISO" || String.eqb n "Uuid" = false ->
  exists x s', generate rng (NumberType n) s = (Returned (VNumber x), s').
Proof.
  intros Hn. apply orb_false_iff in Hn as [Hd Hu].
  destruct (String.eqb_spec n "CurrencyFromString") as [Hc|Hc].
  { rewrite (currency_named_returns (NumberType n) s Hc). eauto. }
  rewrite generate_number_returns; [eauto|].
  unfold reserved. rewrite Hd, Hu. now apply String.eqb_neq in Hc as ->.
Qed.

Lemma Uuid_round_trip : always_returns rng Uuid /\ decodes rng Uuid.
Proof.
  split.
  - intros s. rewrite (generate_uuid rng Uuid eq_refl).
    unfold bind, draw, ret. destruct (faker_datatype_uuid rng s). eauto.
  - intros v (s & s' & H) c. rewrite (generate_uuid rng Uuid eq_refl) in H.
    unfold bind, draw, ret in H. destruct (faker_datatype_uuid rng s).
    injection H as <- _. eexists. reflexivity.
Qed.

Lemma CurrencyFromString_round_trip :
  always_returns rng (CurrencyFromString env) /\ decodes rng (CurrencyFromString env).
Proof.
  split.
  - intros s. rewrite (generate_currency rng (CurrencyFromString env) eq_refl).
    unfold bind, draw, ret. destruct (faker_datatype_float rng (1 # 100) s). eauto.
  - intros v (s & s' & H) c.
    rewrite (generate_currency rng (CurrencyFromString env) eq_refl) in H.
    unfold bind, draw, ret in H. destruct (faker_datatype_float rng (1 # 100) s) as [n s1].
    injection H as <- _.
    cbn [validate CurrencyFromString]. unfold CurrencyFromString_validate.
    change (number_validate (VNumber n) c) with (success (VNumber n)).
    cbn [chain success].
    destruct (Decimal_contract n) as [d ->]. eexists. reflexivity.
Qed.

Lemma DateFromISOString_round_trip :
  always_returns rng (DateFromISOString env) /\ decodes rng (DateFromISOString env).
Proof.
  split.
  - intros s. destruct (date_named_returns (DateFromISOString env) s eq_refl)
      as (iso & _ & H).
    eauto.
  - intros v (s & s' & H) c.
    destruct (date_named_returns (DateFromISOString env) s eq_refl)
      as (iso & Hiso & H').
    rewrite H' in H. injection H as <- _.
    cbn [validate DateFromISOString]. unfold DateFromISOString_validate.
    change (string_validate (VString iso) c) with (success (VString iso)).
    cbn [chain success]. rewrite (parseISO_contract s iso Hiso).
    eexists. reflexivity.
Qed.

Lemma fields_round_trip (props : Props) :
  Forall (fun p => node_ok rng env (snd p)) props ->
  NoDup (map fst props) ->
  Forall (fun p => supported env (snd p)) props ->
  (forall s, exists fields s',
      record_map (generate rng) props s = (Returned fields, s'))
  /\ forall fields,
       Forall2 (field_generated rng) props fields ->
       forall k type, In (k, type) props -> accepts (validate type) (get fields k).
Proof.
  intros Hok Hnd Hsup.
  assert (Hboth : Forall (fun p => always_returns rng (snd p) /\ decodes rng (snd p))
                    props).
  { rewrite Forall_forall in *. intros p Hp. exact (proj1 (Hok p Hp) (Hsup p Hp)). }
  split.
  - apply record_map_returns. intros k type s Hin.
    rewrite Forall_forall in Hboth. exact (proj1 (Hboth (k, type) Hin) s).
  - intros fields Hfields. apply (fields_accept rng _ _ Hfields Hnd).
    rewrite Forall_forall in *. intros p Hp. exact (proj2 (Hboth p Hp)).
Qed.

Lemma struct_round_trip (c : codec) :
  reserved (name c) = false ->
  struct_kind c = true ->
  (forall s, exists fields s',
      record_map (generate rng) (props_or_empty (getProps c)) s = (Returned fields, s')) ->
  (forall fields,
      Forall2 (field_generated rng) (props_or_empty (getProps c)) fields ->
      accepts (validate c) (VObject fields)) ->
  always_returns rng c /\ decodes rng c.
Proof.
  intros Hn Hk Hret Hacc. split.
  - intros s. rewrite (generate_struct rng c Hn Hk).
    destruct (Hret s) as (fields & s' & H).
    exists (VObject fields), s'. erewrite bind_eq by exact H. reflexivity.
  - intros v (s & s' & H). rewrite (generate_struct rng c Hn Hk) in H.
    apply bind_returned in H as (fields & s1 & Hmap & H).
    apply ret_returned in H as [<- _].
    apply Hacc. exact (record_map_generated rng _ _ _ _ Hmap).
Qed.

Lemma every_node_ok : forall c, node_ok rng env c.
Proof.
  induction c as [n i v e|t n v|n|n|n|n type IH|n props IH|n props IH|n type IH
                 |n type predicate IH] using codec_nested_ind;
    (split; [|try (intros []; fail)]).
  - (* a node built with [new t.Type] *)
    intros [->|[->| ->]].
    + exact Uuid_round_trip.
    + exact CurrencyFromString_round_trip.
    + exact DateFromISOString_round_trip.
  - intros [].
  - (* string *)
    cbn [supported]. intros Hn. split.
    + intros s. destruct (string_leaf_returns n s Hn) as (str & s' & H). eauto.
    + intros u (s & s' & H) c.
      destruct (string_leaf_returns n s Hn) as (str & s1 & H').
      rewrite H' in H. injection H as <- _. eexists. reflexivity.
  - (* number *)
    cbn [supported]. intros Hn. split.
    + intros s. destruct (number_leaf_returns n s Hn) as (x & s' & H). eauto.
    + intros u (s & s' & H) c.
      destruct (number_leaf_returns n s Hn) as (x & s1 & H').
      rewrite H' in H. injection H as <- _. eexists. reflexivity.
  - (* boolean *)
    cbn [supported]. intros Hn. split.
    + intros s. rewrite generate_boolean_returns by exact Hn. eauto.
    + intros u (s & s' & H) c. rewrite generate_boolean_returns in H by exact Hn.
      injection H as <- _. eexists. reflexivity.
  - (* array *)
    cbn [supported]. intros [Hn Hsup]. destruct (proj1 IH Hsup) as [Hret Hdec]. split.
    + intros s.
      destruct (generate_array_returns rng n type s Hn random_contract Hret)
        as (elements & s' & H).
      eauto.
    + intros u (s & s' & H) c.
      destruct (generate_array_elements rng n type s s' u Hn H)
        as (elements & -> & Hall).
      cbn [validate].
      destruct (validate_elements_accepts (validate type) elements
                  (Forall_impl _ Hdec Hall) 0%N c) as [as_ ->].
      eexists. reflexivity.
  - (* interface *)
    intros Hsup. apply supported_interface in Hsup as [Hn [Hnd Hfields]].
    destruct (fields_round_trip props IH Hnd Hfields) as [Hret Hacc].
    apply struct_round_trip; try assumption; try reflexivity.
    intros fields Hgen c. cbn [validate].
    destruct (validate_props_accepts validate props fields c Hnd (Hacc fields Hgen))
      as [a' ->].
    eexists. reflexivity.
  - intros [Hnd Hfields].
    destruct (fields_round_trip props IH Hnd Hfields) as [Hret Hacc].
    split; [exact Hret|].
    intros fields Hgen c. cbn [validate].
    destruct (validate_props_accepts validate props fields c Hnd (Hacc fields Hgen))
      as [a' ->].
    eexists. reflexivity.
  - (* partial *)
    intros Hsup. apply supported_partial in Hsup as [Hn [Hnd Hfields]].
    destruct (fields_round_trip props IH Hnd Hfields) as [Hret Hacc].
    apply struct_round_trip; try assumption; try reflexivity.
    intros fields Hgen c. cbn [validate].
    destruct (validate_partial_props_accepts validate props fields c Hnd
                (Hacc fields Hgen)) as [a' ->].
    eexists. reflexivity.
  - intros [Hnd Hfields].
    destruct (fields_round_trip props IH Hnd Hfields) as [Hret Hacc].
    split; [exact Hret|].
    intros fields Hgen c. cbn [validate].
    destruct (validate_partial_props_accepts validate props fields c Hnd
                (Hacc fields Hgen)) as [a' ->].
    eexists. reflexivity.
  - (* exact *)
    intros Hsup. apply supported_exact in Hsup as [Hn Hbody].
    destruct (proj2 IH Hbody) as [Hret Hacc].
    apply struct_round_trip; try assumption; try reflexivity.
    intros fields Hgen c. cbn [validate].
    destruct (Hacc fields Hgen c) as [a ->].
    destruct a; eexists; reflexivity.
  - intros [].
Qed.

(** The round trip on every supported node. *)
Lemma supported_round_trips (c : codec) : supported env c -> round_trips rng c.
Proof.
  intros Hsup s. destruct (proj1 (every_node_ok c) Hsup) as [Hret Hdec].
  destruct (Hret s) as (v & s' & H).
  destruct (Hdec v (ex_intro _ s (ex_intro _ s' H)) []) as [a Ha].
  now exists v, s', a.
Qed.

End Contracts.

End RoundTrip.

(* ================================================================== *)
(** * The sample host keeps the contracts *)

Module HostFacts.
Import JS IoTs Random Route Sample StringFacts.

Lemma take_digits_app (ds : string) (c : ascii) (rest : string) :
  string_forallb is_digit ds = true ->
  is_digit c = false ->
  take_digits (ds ++ String c rest) = (ds, String c rest).
Proof.
  intros Hds Hc. induction ds as [|d ds IH]; cbn [append take_digits].
  - now rewrite Hc.
  - cbn [string_forallb] in Hds. apply andb_true_iff in Hds as [Hd Hds].
    now rewrite Hd, (IH Hds).
Qed.

Lemma field_app (sep : ascii) (ds rest : string) :
  string_forallb is_digit ds = true ->
  ds <> "" ->
  is_digit sep = false ->
  field sep (ds ++ String sep rest) = Some (number_of_digits 0 ds, rest).
Proof.
  intros Hds Hne Hsep. unfold field. rewrite take_digits_app by assumption.
  destruct ds; [contradiction|]. now rewrite Ascii.eqb_refl.
Qed.

Lemma signed_digit (c : ascii) (s : string) :
  is_digit c = true -> signed (String c s) = (1, String c s).
Proof.
  destruct c as [[] [] [] [] [] [] [] []]; try discriminate; reflexivity.
Qed.

Lemma signed_iso_year (y : Z) (tail : string) :
  exists sign rest,
    signed (iso_year y ++ tail) = (sign, rest ++ tail)
    /\ string_forallb is_digit rest = true
    /\ rest <> "".
Proof.
  unfold iso_year. destruct ((0 <=? y) && (y <=? 9999)).
  - exists 1, (pad 4 y). split; [|split; [apply pad_digits | apply pad_nonempty]].
    pose proof (pad_digits 4 y) as Hd. pose proof (pad_nonempty 4 y) as Hn.
    destruct (pad 4 y) as [|c p]; [contradiction|].
    cbn [string_forallb] in Hd. apply andb_true_iff in Hd as [Hc _].
    cbn [append]. now apply signed_digit.
  - destruct (y <? 0).
    + exists (-1), (pad 6 (Z.abs y)).
      split; [reflexivity | split; [apply pad_digits | apply pad_nonempty]].
    + exists 1, (pad 6 (Z.abs y)).
      split; [reflexivity | split; [apply pad_digits | apply pad_nonempty]].
Qed.

(** The sample parser reads what [toISOString] writes. *)
Lemma parseISO_basic_reads_toISOString (t : Z) (iso : string) :
  toISOString (TimeValue t) = Returned iso ->
  DateFns.isValid (parseISO host iso) = true.
Proof.
  intros H. cbn [toISOString] in H.
  destruct (civil_from_days (t / msPerDay)) as [[y m] dd].
  injection H as <-. cbn [host parseISO]. unfold parseISO_basic.
  match goal with
  | |- context [signed (iso_year y ++ ?tail)] =>
      destruct (signed_iso_year y tail) as (sign & rest & -> & Hrest & Hne)
  end.
  rewrite (field_app "-" rest _ Hrest Hne eq_refl).
  rewrite (field_app "-" _ _ (pad_digits 2 m) (pad_nonempty 2 m) eq_refl).
  rewrite (field_app "T" _ _ (pad_digits 2 dd) (pad_nonempty 2 dd) eq_refl).
  rewrite (field_app ":" _ _ (pad_digits 2 _) (pad_nonempty 2 _) eq_refl).
  rewrite (field_app ":" _ _ (pad_digits 2 _) (pad_nonempty 2 _) eq_refl).
  rewrite (field_app "." _ _ (pad_digits 2 _) (pad_nonempty 2 _) eq_refl).
  rewrite (field_app "Z" _ _ (pad_digits 3 _) (pad_nonempty 3 _) eq_refl).
  reflexivity.
Qed.

Lemma host_Decimal_constructs : Decimal_constructs host.
Proof. intros n. eexists. reflexivity. Qed.

Lemma seeded_dates_valid : dates_valid seeded.
Proof. intros s. reflexivity. Qed.

Lemma host_reads_seeded_dates : parseISO_reads_drawn_dates seeded host.
Proof.
  intros s iso H. cbn [seeded faker_date_past fst] in H.
  exact (parseISO_basic_reads_toISOString _ iso H).
Qed.

End HostFacts.

(* ================================================================== *)
(** * The round-trip contract and the loader *)

Module RoundTripClaims.
Import JS IoTs Random Route RoundTripFacts.

Ltac is_branded :=
  unfold branded;
  first [ left; reflexivity | right; left; reflexivity | right; right; reflexivity ].

Lemma QuotationCodec_supported (env : Env) : supported env (QuotationCodec env).
Proof.
  unfold QuotationCodec. apply supported_interface. split; [reflexivity|].
  split.
  - cbn [map fst]. repeat constructor; cbn; intuition discriminate.
  - repeat apply Forall_cons; try apply Forall_nil; cbn [snd supported];
      try is_branded.
    split; [reflexivity|]. apply supported_interface. split; [reflexivity|].
    split.
    + cbn [map fst]. repeat constructor; cbn; intuition discriminate.
    + repeat apply Forall_cons; try apply Forall_nil; cbn [snd supported];
        is_branded.
Qed.

Section Clash.

Context {S : Type} (rng : RandomSource S).

Lemma string_named_generated (c : codec) (s s' : S) (v : value) :
  name c = "DateFromStringISO" \/ name c = "Uuid" ->
  generate rng c s = (Returned v, s') ->
  exists str, v = VString str.
Proof.
  intros [Hn|Hn] H.
  - rewrite (DispatchFacts.generate_date rng c Hn) in H.
    apply ContainerFacts.bind_returned in H as (date & s1 & _ & H).
    apply ContainerFacts.bind_returned in H as (iso & s2 & _ & H).
    apply ContainerFacts.ret_returned in H as [<- _]. now exists iso.
  - rewrite (DispatchFacts.generate_uuid rng c Hn) in H.
    apply ContainerFacts.bind_returned in H as (uuid & s1 & _ & H).
    apply ContainerFacts.ret_returned in H as [<- _]. now exists uuid.
Qed.

Lemma number_named_generated (c : codec) (s s' : S) (v : value) :
  name c = "CurrencyFromString" ->
  generate rng c s = (Returned v, s') ->
  exists x, v = VNumber x.
Proof.
  intros Hn H. rewrite (DispatchFacts.generate_currency rng c Hn) in H.
  apply ContainerFacts.bind_returned in H as (float & s1 & _ & H).
  apply ContainerFacts.ret_returned in H as [<- _]. now exists float.
Qed.

Lemma reserved_named_generated (c : codec) (s s' : S) (v : value) :
  reserved (name c) = true ->
  generate rng c s = (Returned v, s') ->
  (exists str, v = VString str) \/ (exists x, v = VNumber x).
Proof.
  unfold reserved. intros Hn H.
  destruct (String.eqb_spec (name c) "DateFromStringISO") as [Hd|_].
  { left. exact (string_named_generated c s s' v (or_introl Hd) H). }
  destruct (String.eqb_spec (name c) "Uuid") as [Hu|_].
  { left. exact (string_named_generated c s s' v (or_intror Hu) H). }
  destruct (String.eqb_spec (name c) "CurrencyFromString") as [Hc|_]; [|discriminate].
  right. exact (number_named_generated c s s' v Hc H).
Qed.

(** On a name clash the decoder of the node rejects what [generate]
    returns. *)
Lemma name_clash_rejected (c : codec) (s s' : S) (v : value) :
  name_clash c = true ->
  generate rng c s = (Returned v, s') ->
  exists errors, decode c v = Failure errors.
Proof.
  intros Hclash H. destruct c; cbn [name_clash] in Hclash; try discriminate.
  - apply String.eqb_eq in Hclash.
    destruct (number_named_generated (StringType _) s s' v Hclash H) as [x ->].
    eexists. reflexivity.
  - apply orb_true_iff in Hclash.
    match type of H with
    | generate rng ?c s = _ =>
        assert (Hn : name c = "DateFromStringISO" \/ name c = "Uuid")
          by (destruct Hclash as [E|E]; apply String.eqb_eq in E; [now left | now right]);
        destruct (string_named_generated c s s' v Hn H) as [str ->]
    end.
    eexists. reflexivity.
  - match type of H with
    | generate rng ?c s = _ =>
        destruct (reserved_named_generated c s s' v Hclash H) as [[str ->]|[x ->]]
    end; eexists; reflexivity.
  - match type of H with
    | generate rng ?c s = _ =>
        destruct (reserved_named_generated c s s' v Hclash H) as [[str ->]|[x ->]]
    end; eexists; reflexivity.
  - match type of H with
    | generate rng ?c s = _ =>
        destruct (reserved_named_generated c s s' v Hclash H) as [[str ->]|[x ->]]
    end; eexists; reflexivity.
  - match type of H with
    | generate rng ?c s = _ =>
        destruct (reserved_named_generated c s s' v Hclash H) as [[str ->]|[x ->]]
    end; eexists; reflexivity.
  - match type of H with
    | generate rng ?c s = _ =>
        destruct (reserved_named_generated c s s' v Hclash H) as [[str ->]|[x ->]]
    end; eexists; reflexivity.
Qed.

End Clash.

(** C1, amended.  With [Math.random] in [0, 1), [faker.date.past] a valid
    date whose ISO string [parseISO] reads, and [new Decimal] constructing
    from every number: for every node built from string, number and boolean
    leaves, arrays, the three struct kinds and the three branded codecs, in
    which no leaf, array or struct node that [generate] dispatches on carries
    a reserved name that clashes with its type, [generate] returns a value and
    the node's own decoder accepts it.  So [loader], which does this for
    [QuotationCodec], resolves.  On a node whose name does clash, the decoder
    rejects whatever [generate] returns.  Refinement nodes are left out. *)
Theorem generated_values_decode :
  forall (S : Type) (rng : RandomSource S) (env : Env),
    random_in_unit_interval rng ->
    dates_valid rng ->
    parseISO_reads_drawn_dates rng env ->
    Decimal_constructs env ->
    (forall c : codec, supported env c -> round_trips rng c)
    /\ (forall s : S, exists quotation s', loader rng env s = (Resolved quotation, s'))
    /\ (forall (c : codec) (s s' : S) (v : value),
          name_clash c = true ->
          generate rng c s = (Returned v, s') ->
          exists errors, decode c v = Failure errors).
Proof.
  intros S rng env Hr Hd Hp Hc.
  assert (Hall : forall c, supported env c -> round_trips rng c).
  { intros c. now apply RoundTrip.supported_round_trips. }
  split; [exact Hall|]. split.
  - intros s.
    destruct (Hall _ (QuotationCodec_supported env) s) as (v & s' & a & Hg & Ha).
    exists a, s'. unfold loader. now rewrite Hg, Ha.
  - intros c s s' v. apply name_clash_rejected.
Qed.

(** The quotation schema on the seeded source and the sample host; a string
    leaf named as the uuid codec round-trips, one named as the currency codec
    does not. *)
Lemma generated_values_decode_witness :
  round_trips Sample.seeded (QuotationCodec Sample.host)
  /\ round_trips Sample.seeded (StringType "Uuid")
  /\ (exists quotation s',
        loader Sample.seeded Sample.host 1 = (Resolved quotation, s'))
  /\ (exists v s' errors,
        generate Sample.seeded (StringType "CurrencyFromString") 3 = (Returned v, s')
        /\ decode (StringType "CurrencyFromString") v = Failure errors).
Proof.
  pose proof (generated_values_decode Z Sample.seeded Sample.host
                SampleFacts.seeded_random_in_unit_interval
                HostFacts.seeded_dates_valid
                HostFacts.host_reads_seeded_dates
                HostFacts.host_Decimal_constructs) as (Hall & Hloader & Hclash).
  split; [apply Hall, QuotationCodec_supported|].
  split; [apply Hall; reflexivity|].
  split; [apply Hloader|].
  destruct (generate Sample.seeded (StringType "CurrencyFromString") 3)
    as [o s1] eqn:E.
  pose proof E as E'. vm_compute in E'. injection E' as <- <-.
  destruct (Hclash (StringType "CurrencyFromString") 3 _ _ eq_refl E) as [errors He].
  eexists _, _, errors. split; [reflexivity | exact He].
Defined.

(** C1 as stated fails on a struct node that carries a reserved name:
    [t.type({a: t.string}, "Uuid")] is built from supported kinds only, but
    [generate] returns a uuid string for it, which the struct decoder
    rejects. *)
Lemma struct_named_Uuid_does_not_round_trip :
  ~ (forall c : codec,
       supported_kinds Sample.host c -> round_trips Sample.seeded c).
Proof.
  intros H.
  assert (Hsup : supported_kinds Sample.host (InterfaceType "Uuid" [("a", t_string)])).
  { cbn. split; [|now split]. repeat constructor. intros []. }
  destruct (H _ Hsup 1) as (v & s' & a & Hg & Ha).
  vm_compute in Hg. injection Hg as <- _. discriminate Ha.
Qed.

End RoundTripClaims.

(* ================================================================== *)
(** * More on [safeRedirect]; [validateEmail]; the user helpers *)

Module AccountsFacts.
Import JS Utils Accounts UtilsFacts.

(** X1.  When the default is a local path (it begins with "/" and not with
    "//"), so is whatever [safeRedirect] returns, for every [to]; with the
    default left out this holds for every input. *)
Theorem safeRedirect_returns_local_path :
  forall (to : RedirectTo) (defaultRedirect : string),
    (begins_with "/" defaultRedirect /\ ~ begins_with "//" defaultRedirect ->
     begins_with "/" (safeRedirect to defaultRedirect)
     /\ ~ begins_with "//" (safeRedirect to defaultRedirect))
    /\ begins_with "/" (safeRedirect_default to)
    /\ ~ begins_with "//" (safeRedirect_default to).
Proof.
  assert (H : forall to d,
             begins_with "/" d /\ ~ begins_with "//" d ->
             begins_with "/" (safeRedirect to d) /\ ~ begins_with "//" (safeRedirect to d)).
  { intros to d Hd. destruct to as [| |s|f]; try exact Hd.
    rewrite safeRedirect_string.
    destruct (String.eqb s ""); cbn [orb]; [exact Hd|].
    destruct (startsWith s "/") eqn:Hone; cbn [negb orb]; [|exact Hd].
    destruct (startsWith s "//") eqn:Htwo; [exact Hd|].
    split.
    - now apply prefix_begins_with.
    - intros Hb. apply prefix_begins_with in Hb. unfold startsWith in Htwo. congruence. }
  intros to d. split; [apply H|].
  apply H. split; [now exists "" | intros [rest Hr]; discriminate].
Qed.

(** A protocol-relative default is not repaired, a local one is kept. *)
Lemma safeRedirect_returns_local_path_witness :
  begins_with "/" (safeRedirect (ToString "https://evil.example") "/login")
  /\ ~ begins_with "//" (safeRedirect (ToString "https://evil.example") "/login").
Proof.
  apply (proj1 (safeRedirect_returns_local_path (ToString "https://evil.example") "/login")).
  split; [now exists "login" | intros [rest Hr]; discriminate].
Defined.

(** X2.  [safeRedirect] is idempotent: guarding its own result with the same
    default changes nothing. *)
Theorem safeRedirect_idempotent :
  forall (to : RedirectTo) (defaultRedirect : string),
    safeRedirect (ToString (safeRedirect to defaultRedirect)) defaultRedirect
    = safeRedirect to defaultRedirect.
Proof.
  intros to d.
  assert (Hd : safeRedirect (ToString d) d = d).
  { rewrite safeRedirect_string.
    now destruct (String.eqb d "" || negb (startsWith d "/") || startsWith d "//"). }
  destruct to as [| |s|f]; try exact Hd.
  rewrite (safeRedirect_string s d).
  destruct (String.eqb s "" || negb (startsWith s "/") || startsWith s "//") eqn:E;
    [exact Hd|].
  rewrite safeRedirect_string. now rewrite E.
Qed.

(** [includes] finds the search string exactly when the string splits
    around it. *)
Lemma includes_spec (s x : string) :
  includes s x = true <-> exists p q, s = p ++ x ++ q.
Proof.
  induction s as [|c s IH]; cbn [includes].
  - rewrite orb_false_r, prefix_begins_with. split.
    + intros [q H]. now exists "", q.
    + intros (p & q & H). destruct p; [now exists q | discriminate].
  - rewrite orb_true_iff, prefix_begins_with, IH. split.
    + intros [[q H]|(p & q & H)].
      * now exists "", q.
      * exists (String c p), q. cbn. now rewrite H.
    + intros (p & q & H). destruct p as [|c' p].
      * left. now exists q.
      * right. cbn in H. injection H as _ H. now exists p, q.
Qed.

(** X3.  [validateEmail] accepts exactly the strings of more than three
    characters that contain an "@": nothing else of an address is checked,
    and no value that is not a string is accepted. *)
Theorem validateEmail_accepts :
  forall email : value,
    validateEmail email = true
    <-> exists s before after,
          email = VString s
          /\ s = before ++ "@" ++ after
          /\ (3 < String.length s)%nat.
Proof.
  intros email. unfold validateEmail. split.
  - destruct email; cbn [typeof]; try (cbn; discriminate).
    rewrite String.eqb_refl. cbn [andb]. intros H.
    apply andb_true_iff in H as [Hlen Hat].
    apply includes_spec in Hat as (p & q & Hs).
    exists s, p, q. repeat split; [exact Hs|]. apply Z.ltb_lt in Hlen. lia.
  - intros (s & p & q & -> & Hs & Hlen). cbn [typeof].
    rewrite String.eqb_refl. cbn [andb]. apply andb_true_iff. split.
    + apply Z.ltb_lt. lia.
    + apply includes_spec. now exists p, q.
Qed.

(** Four characters with an "@" pass, three do not. *)
Lemma validateEmail_accepts_witness :
  validateEmail (VString "a@bc") = true /\ validateEmail (VString "a@b") = false.
Proof.
  split.
  - apply (proj2 (validateEmail_accepts (VString "a@bc"))).
    exists "a@bc", "a", "bc". repeat split. cbn. lia.
  - reflexivity.
Defined.

(** ** The user helpers *)

(** X4.  [useMatchesData] returns the data of the first matched route with
    the id, whatever later routes with that id hold, and undefined when no
    route has the id. *)
Theorem useMatchesData_first_match :
  forall (matchingRoutes : list RouteMatch) (id_ : string),
    ((forall route, In route matchingRoutes -> id route <> id_) ->
     useMatchesData matchingRoutes id_ = VUndefined)
    /\ (forall before route after,
          matchingRoutes = (before ++ route :: after)%list ->
          id route = id_ ->
          (forall earlier, In earlier before -> id earlier <> id_) ->
          useMatchesData matchingRoutes id_ = data route).
Proof.
  intros routes i. unfold useMatchesData. split.
  - intros Hnone.
    destruct (find (fun route => String.eqb (id route) i) routes) as [r|] eqn:E;
      [|reflexivity].
    apply find_some in E as [Hin Heq]. apply String.eqb_eq in Heq.
    now destruct (Hnone r Hin).
  - intros before route after -> Hid Hbefore.
    induction before as [|r before IH]; cbn [app find].
    + apply String.eqb_eq in Hid. now rewrite Hid.
    + destruct (String.eqb_spec (id r) i) as [Heq|_].
      * now destruct (Hbefore r (or_introl eq_refl)).
      * apply IH. intros earlier Hin. apply Hbefore. now right.
Qed.

(** Two routes with the id root: the first one's data is returned. *)
Lemma useMatchesData_first_match_witness :
  useMatchesData
    [mkRouteMatch "routes/notes" VNull;
     mkRouteMatch "root" (VObject [("user", VNull)]);
     mkRouteMatch "root" VUndefined] "root"
  = VObject [("user", VNull)].
Proof.
  apply (proj2 (useMatchesData_first_match _ "root")
           [mkRouteMatch "routes/notes" VNull]
           (mkRouteMatch "root" (VObject [("user", VNull)]))
           [mkRouteMatch "root" VUndefined]).
  - reflexivity.
  - reflexivity.
  - intros earlier [<-|[]]. discriminate.
Defined.

Lemma truthy_isUser (user : value) :
  truthy (isUser user) = true <-> has_string_email user.
Proof.
  unfold isUser, has_string_email. split.
  - destruct (truthy user) eqn:Ht; [|congruence].
    cbn [truthy]. intros H. apply andb_true_iff in H as [Hobj Hemail].
    apply String.eqb_eq in Hobj. apply String.eqb_eq in Hemail.
    split; [exact Hobj|]. split; [intros ->; discriminate|].
    destruct (member user "email"); try discriminate. now exists s.
  - intros (Hobj & Hnull & email & Hemail).
    assert (Ht : truthy user = true).
    { destruct user; try discriminate; try reflexivity; congruence. }
    rewrite Ht, Hobj, Hemail. reflexivity.
Qed.

Lemma useOptionalUser_spec (matchingRoutes : list RouteMatch) (user : value) :
  useOptionalUser matchingRoutes = user /\ user <> VUndefined
  <-> member (useMatchesData matchingRoutes "root") "user" = user
      /\ has_string_email user.
Proof.
  unfold useOptionalUser.
  set (data := useMatchesData matchingRoutes "root").
  destruct (truthy (isUser (member data "user"))) eqn:Hu.
  - assert (Hd : truthy data = true).
    { apply truthy_isUser in Hu as (Hobj & _).
      destruct data; try discriminate Hobj; reflexivity. }
    rewrite Hd. cbn [negb orb]. split.
    + intros [<- _]. split; [reflexivity | now apply truthy_isUser].
    + intros [<- Hu']. split; [reflexivity|].
      destruct Hu' as (Hobj & _). intros E. rewrite E in Hobj. discriminate.
  - rewrite orb_true_r. split.
    + intros [<- H]. now destruct H.
    + intros [<- Hu']. apply truthy_isUser in Hu'. congruence.
Qed.

(** X5.  [useOptionalUser] returns a user exactly when the data of the first
    route with id root has, under [user], an object whose [email] is a string:
    it then returns that object, and undefined in every other case (no root
    route, falsy data, no user, a user without a string email). *)
Theorem useOptionalUser_returns_root_user :
  forall (matchingRoutes : list RouteMatch) (user : value),
    (useOptionalUser matchingRoutes = user /\ user <> VUndefined
     <-> member (useMatchesData matchingRoutes "root") "user" = user
         /\ has_string_email user)
    /\ (~ has_string_email (member (useMatchesData matchingRoutes "root") "user") ->
        useOptionalUser matchingRoutes = VUndefined).
Proof.
  intros routes user. split; [apply useOptionalUser_spec|].
  intros Hno.
  destruct (useOptionalUser routes) as [| | | | | | | | |] eqn:E; try reflexivity;
    exfalso; apply Hno;
    match type of E with
    | _ = ?u =>
        assert (Hne : u <> VUndefined) by discriminate;
        destruct (proj1 (useOptionalUser_spec routes u) (conj E Hne)) as [Hm Hu]
    end;
    rewrite Hm; exact Hu.
Qed.

(** A root route whose data holds a user with an email, and one whose user
    has a numeric email. *)
Lemma useOptionalUser_returns_root_user_witness :
  useOptionalUser
    [mkRouteMatch "root" (VObject [("user", VObject [("email", VString "a@b.c")])])]
  = VObject [("email", VString "a@b.c")]
  /\ useOptionalUser
       [mkRouteMatch "root" (VObject [("user", VObject [("email", VNumber (Finite 1))])])]
     = VUndefined.
Proof.
  split.
  - apply (proj2 (proj1 (useOptionalUser_returns_root_user
             [mkRouteMatch "root" (VObject [("user", VObject [("email", VString "a@b.c")])])]
             (VObject [("email", VString "a@b.c")])))).
    split; [reflexivity|].
    split; [reflexivity|]. split; [discriminate|]. now exists "a@b.c".
  - apply (proj2 (useOptionalUser_returns_root_user
             [mkRouteMatch "root" (VObject [("user", VObject [("email", VNumber (Finite 1))])])]
             VUndefined)).
    intros (_ & _ & email & H). discriminate H.
Defined.

Lemma useOptionalUser_cases (matchingRoutes : list RouteMatch) :
  useOptionalUser matchingRoutes = VUndefined
  \/ (truthy (useOptionalUser matchingRoutes) = true
      /\ has_string_email (useOptionalUser matchingRoutes)).
Proof.
  destruct (useOptionalUser matchingRoutes) as [| | | | | | | | |] eqn:E;
    [now left|..]; right;
    match type of E with
    | _ = ?u =>
        assert (Hne : u <> VUndefined) by discriminate;
        pose proof (proj1 (useOptionalUser_spec matchingRoutes u) (conj E Hne))
          as [_ Hu]
    end;
    (split; [|exact Hu]);
    destruct Hu as (Hobj & Hnull & _);
    try discriminate Hobj; try reflexivity; congruence.
Qed.

(** X6.  [useUser] throws exactly when [useOptionalUser] gives undefined;
    otherwise it returns what [useOptionalUser] gives, which is an object
    whose [email] is a string. *)
Theorem useUser_throws_without_user :
  forall matchingRoutes : list RouteMatch,
    ((exists message, useUser matchingRoutes = ThrowsError message)
     <-> useOptionalUser matchingRoutes = VUndefined)
    /\ (forall user,
          useUser matchingRoutes = Returns user ->
          user = useOptionalUser matchingRoutes /\ has_string_email user).
Proof.
  intros routes. unfold useUser.
  destruct (useOptionalUser_cases routes) as [E|[Ht Hu]].
  - rewrite E. cbn [truthy negb]. split.
    + split; [reflexivity | intros _; eexists; reflexivity].
    + discriminate.
  - rewrite Ht. cbn [negb]. split.
    + split; [intros [m Hm]; discriminate|].
      intros E. rewrite E in Ht. discriminate.
    + intros user Huser. injection Huser as <-. now split.
Qed.

(** No matched route at all: the call throws. *)
Lemma useUser_throws_without_user_witness :
  exists message, useUser [] = ThrowsError message.
Proof.
  apply (proj2 (proj1 (useUser_throws_without_user []))). reflexivity.
Defined.

End AccountsFacts.

(* ================================================================== *)
(** * The [superjson] and [redirect] responses *)

Module ResponsesFacts.
Import JS Responses.

Section Platform.

Variable valid : string -> string -> bool.
Variable normalize : string -> string.
Variable stringify : value -> string.

















End Platform.



End ResponsesFacts.

(* ================================================================== *)
(** * More on [generate]: where it returns and what refinements do *)

Module GenerateFacts.
Import JS IoTs Random Route Shapes DispatchFacts ContainerFacts RoundTripFacts.

Lemma refinement_free_fields_Forall (props : Props) :
  (fix fields (ps : Props) : Prop :=
     match ps with
     | [] => True
     | (_, type) :: rest => refinement_free type /\ fields rest
     end) props
  <-> Forall (fun p => refinement_free (snd p)) props.
Proof.
  induction props as [|[k type] props IH].
  - split; [constructor | exact (fun _ => I)].
  - rewrite Forall_cons_iff, <- IH. reflexivity.
Qed.

Lemma toISOString_valid (d : Date) :
  DateFns.isValid d = true -> exists iso, toISOString d = Returned iso.
Proof.
  destruct d as [|t]; [discriminate|]. intros _. cbn [toISOString].
  destruct (civil_from_days (t / msPerDay)) as [[y m] dd]. eexists. reflexivity.
Qed.

Section WithSource.

Context {S : Type} (rng : RandomSource S).

(** What the three short-circuits return. *)
Lemma generate_reserved (c : codec) (s : S) :
  reserved (name c) = true ->
  generate rng c s =
    (match toISOString (fst (faker_date_past rng s)) with
     | Returned iso => Returned (VString iso)
     | Threw e => Threw e
     end, snd (faker_date_past rng s))
  \/ generate rng c s =
       (Returned (VString (fst (faker_datatype_uuid rng s))),
        snd (faker_datatype_uuid rng s))
  \/ generate rng c s =
       (Returned (VNumber (fst (faker_datatype_float rng (1 # 100) s))),
        snd (faker_datatype_float rng (1 # 100) s)).
Proof.
  unfold reserved. intros H.
  destruct (String.eqb_spec (name c) "DateFromStringISO") as [Hd|_].
  { left. rewrite (generate_date rng c Hd). unfold bind, draw, lift, ret.
    destruct (faker_date_past rng s) as [d s1]. cbn [fst snd].
    now destruct (toISOString d). }
  destruct (String.eqb_spec (name c) "Uuid") as [Hu|_].
  { right; left. rewrite (generate_uuid rng c Hu). unfold bind, draw, ret.
    now destruct (faker_datatype_uuid rng s). }
  destruct (String.eqb_spec (name c) "CurrencyFromString") as [Hc|_]; [|discriminate].
  right; right. rewrite (generate_currency rng c Hc). unfold bind, draw, ret.
  now destruct (faker_datatype_float rng (1 # 100) s).
Qed.

Lemma generate_reserved_returns (c : codec) :
  dates_valid rng -> reserved (name c) = true -> always_returns rng c.
Proof.
  intros Hd Hn s. destruct (generate_reserved c s Hn) as [H|[H|H]]; rewrite H.
  - destruct (toISOString_valid _ (Hd s)) as [iso ->]. eauto.
  - eauto.
  - eauto.
Qed.

Lemma generate_no_case (c : codec) (s : S) :
  reserved (name c) = false ->
  match c with Type_ _ _ _ _ | OtherType _ _ _ => True | _ => False end ->
  generate rng c s = (Returned VUndefined, s).
Proof.
  intros Hn Hc. destruct (reserved_false _ Hn) as (Hd & Hu & Hcur).
  destruct c; try contradiction; cbn [name] in *; cbn [generate name];
    now rewrite Hd, Hu, Hcur.
Qed.

Lemma generate_struct_returns (c : codec) :
  reserved (name c) = false ->
  struct_kind c = true ->
  Forall (fun p => always_returns rng (snd p)) (props_or_empty (getProps c)) ->
  always_returns rng c.
Proof.
  intros Hn Hk Hfields s. rewrite (generate_struct rng c Hn Hk).
  destruct (record_map_returns (generate rng) (props_or_empty (getProps c))
              (fun k type t Hin =>
                 proj1 (Forall_forall _ _) Hfields (k, type) Hin t) s)
    as (fields & s' & H).
  exists (VObject fields), s'. erewrite bind_eq by exact H. reflexivity.
Qed.

Section Contracts.

Hypothesis random_contract : random_in_unit_interval rng.
Hypothesis dates_contract : dates_valid rng.

Lemma refinement_free_returns :
  forall c,
    refinement_free c ->
    always_returns rng c
    /\ Forall (fun p => always_returns rng (snd p)) (props_or_empty (getProps c)).
Proof.
  induction c as [n i v e|t n v|n|n|n|n type IH|n props IH|n props IH|n type IH
                 |n type predicate IH] using codec_nested_ind;
    intros Hfree; cbn [refinement_free] in Hfree.
  - split; [|constructor].
    destruct (reserved n) eqn:Hn; [now apply generate_reserved_returns|].
    intros s. rewrite generate_no_case by (cbn [name]; auto). eauto.
  - split; [|constructor].
    destruct (reserved n) eqn:Hn; [now apply generate_reserved_returns|].
    intros s. rewrite generate_no_case by (cbn [name]; auto). eauto.
  - split; [|constructor].
    destruct (reserved n) eqn:Hn; [now apply generate_reserved_returns|].
    intros s. rewrite generate_string_returns by exact Hn. eauto.
  - split; [|constructor].
    destruct (reserved n) eqn:Hn; [now apply generate_reserved_returns|].
    intros s. rewrite generate_number_returns by exact Hn. eauto.
  - split; [|constructor].
    destruct (reserved n) eqn:Hn; [now apply generate_reserved_returns|].
    intros s. rewrite generate_boolean_returns by exact Hn. eauto.
  - split; [|constructor].
    destruct (reserved n) eqn:Hn; [now apply generate_reserved_returns|].
    intros s.
    destruct (generate_array_returns rng n type s Hn random_contract
                (proj1 (IH Hfree))) as (elements & s' & H).
    eauto.
  - apply refinement_free_fields_Forall in Hfree.
    assert (Hfields : Forall (fun p => always_returns rng (snd p)) props).
    { rewrite Forall_forall in *. intros p Hp. exact (proj1 (IH p Hp (Hfree p Hp))). }
    split; [|exact Hfields].
    destruct (reserved n) eqn:Hn; [now apply generate_reserved_returns|].
    now apply generate_struct_returns.
  - apply refinement_free_fields_Forall in Hfree.
    assert (Hfields : Forall (fun p => always_returns rng (snd p)) props).
    { rewrite Forall_forall in *. intros p Hp. exact (proj1 (IH p Hp (Hfree p Hp))). }
    split; [|exact Hfields].
    destruct (reserved n) eqn:Hn; [now apply generate_reserved_returns|].
    now apply generate_struct_returns.
  - destruct (IH Hfree) as [_ Hfields]. split; [|exact Hfields].
    destruct (reserved n) eqn:Hn; [now apply generate_reserved_returns|].
    now apply generate_struct_returns.
  - contradiction.
Qed.

End Contracts.

(** [generate] of a node that cannot give an array gives none. *)
Lemma never_array_generated (c : codec) (s s' : S) (v : value) :
  never_array c = true ->
  generate rng c s = (Returned v, s') ->
  is_array v = false.
Proof.
  unfold never_array. intros Hc H.
  destruct (reserved (name c)) eqn:Hn.
  - destruct (generate_reserved c s Hn) as [E|[E|E]]; rewrite E in H.
    + destruct (toISOString (fst (faker_date_past rng s))); [|discriminate].
      now injection H as <- _.
    + now injection H as <- _.
    + now injection H as <- _.
  - cbn [orb] in Hc.
    destruct c; try discriminate Hc; cbn [name] in Hn.
    + rewrite generate_no_case in H by (cbn [name]; auto). now injection H as <- _.
    + rewrite generate_no_case in H by (cbn [name]; auto). now injection H as <- _.
    + rewrite generate_string_returns in H by exact Hn. now injection H as <- _.
    + rewrite generate_number_returns in H by exact Hn. now injection H as <- _.
    + rewrite generate_boolean_returns in H by exact Hn. now injection H as <- _.
    + rewrite generate_struct in H by (cbn [name struct_kind]; auto).
      apply bind_returned in H as (fields & s1 & _ & H).
      apply ret_returned in H as [<- _]. reflexivity.
    + rewrite generate_struct in H by (cbn [name struct_kind]; auto).
      apply bind_returned in H as (fields & s1 & _ & H).
      apply ret_returned in H as [<- _]. reflexivity.
    + rewrite generate_struct in H by (cbn [name struct_kind]; auto).
      apply bind_returned in H as (fields & s1 & _ & H).
      apply ret_returned in H as [<- _]. reflexivity.
Qed.

End WithSource.

End GenerateFacts.

Module GenerateMore.
Import JS IoTs Random Route Shapes DispatchFacts ContainerFacts GenerateFacts.

Section WithSource.

Context {S : Type} (rng : RandomSource S).

(** X9.  With [Math.random] in [0, 1) and valid dates from faker,
    [generate] returns, and throws nothing, on every schema that holds no
    refinement node: unsupported kinds, custom nodes and reserved names
    included. *)
Theorem generate_returns_without_refinements :
  forall c : codec,
    random_in_unit_interval rng ->
    dates_valid rng ->
    refinement_free c ->
    always_returns rng c.
Proof.
  intros c Hr Hd Hfree. exact (proj1 (refinement_free_returns rng Hr Hd c Hfree)).
Qed.

(** X10.  A refinement node (with no reserved name) around anything but an
    array or another refinement never generates a value: whatever the inner
    node returns has no [filter] method, so the call throws a TypeError in
    the state the inner generation left. *)
Theorem refinement_of_non_array_throws :
  forall (n : string) (inner : codec) (predicate : value -> bool) (s : S),
    reserved n = false ->
    never_array inner = true ->
    (forall v s', generate rng (RefinementType n inner predicate) s <> (Returned v, s'))
    /\ (forall v s1,
          generate rng inner s = (Returned v, s1) ->
          exists message,
            generate rng (RefinementType n inner predicate) s
            = (Threw (TypeError message), s1)).
Proof.
  intros n inner predicate s Hn Hinner.
  assert (Hthrow : forall v s1,
            generate rng inner s = (Returned v, s1) ->
            exists message,
              generate rng (RefinementType n inner predicate) s
              = (Threw (TypeError message), s1)).
  { intros v s1 H. pose proof (never_array_generated rng inner s s1 v Hinner H) as Hv.
    rewrite (generate_refinement rng n inner predicate Hn).
    erewrite bind_eq by exact H. unfold lift.
    destruct v; try discriminate Hv; eexists; reflexivity. }
  split; [|exact Hthrow].
  intros v s' H.
  pose proof H as H'. rewrite (generate_refinement rng n inner predicate Hn) in H'.
  apply bind_returned in H' as (candidate & s1 & Hc & _).
  destruct (Hthrow candidate s1 Hc) as [message Hm]. congruence.
Qed.

(** X11.  A refinement node around an array node (neither with a reserved
    name) generates the array of the inner node with the predicate applied
    to its elements: what is returned is the sublist of the generated
    elements that satisfy the predicate, in order.  The predicate is never
    applied to the array itself. *)
Theorem refinement_of_array_filters_elements :
  forall (n m : string) (type : codec) (predicate : value -> bool) (s s' : S) (v : value),
    reserved n = false ->
    reserved m = false ->
    generate rng (RefinementType n (ArrayType m type) predicate) s = (Returned v, s') ->
    exists elements,
      generate rng (ArrayType m type) s = (Returned (VArray elements), s')
      /\ v = VArray (filter predicate elements)
      /\ Forall (fun e => predicate e = true /\ generated_by rng type e)
           (filter predicate elements)
      /\ (List.length (filter predicate elements) <= List.length elements)%nat.
Proof.
  intros n m type predicate s s' v Hn Hm H.
  rewrite (generate_refinement rng n _ predicate Hn) in H.
  apply bind_returned in H as (candidate & s1 & Hc & H).
  destruct (generate_array_elements rng m type s s1 candidate Hm Hc)
    as (elements & -> & Hall).
  unfold lift in H. cbn [call_filter] in H. injection H as <- <-.
  exists elements. split; [exact Hc|]. split; [reflexivity|]. split.
  - apply Forall_forall. intros e He. apply filter_In in He as [Hin Hp].
    split; [exact Hp|]. rewrite Forall_forall in Hall. now apply Hall.
  - apply filter_length_le.
Qed.

(** X12.  Wrapping a struct node in [exact] does not change what is
    generated: from the same state, an exact node and the struct node it
    wraps (neither with a reserved name) generate the same object and leave
    the same state. *)
Theorem exact_generates_as_wrapped :
  forall (n : string) (inner : codec) (s : S),
    reserved n = false ->
    reserved (name inner) = false ->
    struct_kind inner = true ->
    generate rng (ExactType n inner) s = generate rng inner s.
Proof.
  intros n inner s Hn Hinner Hk.
  rewrite (generate_struct rng (ExactType n inner) Hn eq_refl).
  rewrite (generate_struct rng inner Hinner Hk). reflexivity.
Qed.

End WithSource.

(** The quotation schema has no refinement: on the seeded source it is
    generated from every state. *)
Lemma generate_returns_without_refinements_witness :
  always_returns Sample.seeded (QuotationCodec Sample.host).
Proof.
  apply (generate_returns_without_refinements Sample.seeded (QuotationCodec Sample.host)
           SampleFacts.seeded_random_in_unit_interval HostFacts.seeded_dates_valid).
  cbn. tauto.
Defined.

(** A refined struct on the seeded source. *)
Lemma refinement_of_non_array_throws_witness :
  exists message s1,
    generate Sample.seeded
      (RefinementType "WithA" (t_type [("a", t_string)]) (fun _ => true)) 5
    = (Threw (TypeError message), s1).
Proof.
  destruct (proj2 (refinement_of_non_array_throws Sample.seeded "WithA"
                     (t_type [("a", t_string)]) (fun _ => true) 5 eq_refl eq_refl)
              _ _ eq_refl) as [message H].
  eauto.
Defined.

(** Keeping the numbers of an array of numbers keeps all six of them;
    the same predicate would reject the array itself. *)
Lemma refinement_of_array_filters_elements_witness :
  exists elements,
    fst (generate Sample.seeded
           (RefinementType "Numbers" (t_array t_number)
              (fun v => match v with VNumber _ => true | _ => false end)) 5)
    = Returned (VArray elements)
    /\ List.length elements = 6%nat.
Proof.
  destruct (generate Sample.seeded
              (RefinementType "Numbers" (t_array t_number)
                 (fun v => match v with VNumber _ => true | _ => false end)) 5)
    as [o s1] eqn:E.
  pose proof E as E'. vm_compute in E'. injection E' as <- <-.
  destruct (refinement_of_array_filters_elements Sample.seeded "Numbers" "Array<number>"
              t_number (fun v => match v with VNumber _ => true | _ => false end)
              5 _ _ eq_refl eq_refl E) as (elements & _ & Hv & _).
  eexists. split; [reflexivity | reflexivity].
Defined.

Lemma exact_generates_as_wrapped_witness :
  generate Sample.seeded (ExactType "e" (t_partial [("x", t_boolean)])) 5
  = generate Sample.seeded (t_partial [("x", t_boolean)]) 5.
Proof.
  apply (exact_generates_as_wrapped Sample.seeded "e" (t_partial [("x", t_boolean)]) 5);
    reflexivity.
Defined.

End GenerateMore.

(* ================================================================== *)
(** * More on the branded codecs and the loader *)

Module CodecMore.
Import JS IoTs Random Route Shapes DateFns CodecFacts.

Lemma Uuid_decode_cases (u : value) :
  (exists s, u = VString s /\ decode Uuid u = Success u)
  \/ ((forall s, u <> VString s) /\ decode Uuid u = failure u []).
Proof.
  destruct u; try (right; split; [intros s'; discriminate | reflexivity]).
  left. now exists s.
Qed.

Lemma CurrencyFromString_decode_cases (env : Env) (u : value) :
  (exists n d, u = VNumber n /\ new_Decimal env n = Returned d
               /\ decode (CurrencyFromString env) u = Success (VDecimal d))
  \/ (decode (CurrencyFromString env) u = failure u []
      /\ forall n, u = VNumber n -> exists e, new_Decimal env n = Threw e).
Proof.
  destruct u; try (right; split; [reflexivity | intros n' Hn'; discriminate]).
  unfold decode. cbn [validate CurrencyFromString].
  unfold CurrencyFromString_validate.
  change (number_validate (VNumber n) []) with (success (VNumber n)).
  cbn [chain success].
  destruct (new_Decimal env n) as [d|e] eqn:E.
  - left. now exists n, d.
  - right. split; [reflexivity|]. intros n' Hn'. injection Hn' as <-. now exists e.
Qed.

Lemma DateFromISOString_decode_cases (env : Env) (u : value) :
  (exists s t, u = VString s /\ parseISO env s = TimeValue t
               /\ decode (DateFromISOString env) u = Success (VDate (TimeValue t)))
  \/ decode (DateFromISOString env) u = failure u [].
Proof.
  destruct u; try (right; reflexivity).
  unfold decode. cbn [validate DateFromISOString].
  unfold DateFromISOString_validate.
  change (string_validate (VString s) []) with (success (VString s)).
  cbn [chain success].
  destruct (parseISO env s) as [|t] eqn:E; cbn [isValid].
  - now right.
  - left. now exists s, t.
Qed.

(** X13.  The UUID-like codec's [is] guard and its decoder accept disjoint
    sets of values: a value that decodes is a primitive string, which the
    guard [u instanceof String] rejects, and a value the guard recognises does
    not decode.  The currency and ISO-date guards do recognise what their
    decoders return. *)
Theorem Uuid_guard_rejects_decoded_values :
  forall (env : Env) (u a : value),
    (decode Uuid u = Success a -> Uuid_is a = false)
    /\ (Uuid_is u = true -> decode Uuid u = failure u [])
    /\ (decode (CurrencyFromString env) u = Success a -> CurrencyFromString_is a = true)
    /\ (decode (DateFromISOString env) u = Success a -> DateFromISOString_is a = true).
Proof.
  intros env u a. repeat split.
  - destruct (Uuid_decode_cases u) as [(s & -> & H)|[_ H]]; rewrite H;
      [|discriminate].
    intros E. now injection E as <-.
  - destruct u; try discriminate. reflexivity.
  - destruct (CurrencyFromString_decode_cases env u) as [(n & d & _ & _ & H)|[H _]];
      rewrite H; [|discriminate].
    intros E. now injection E as <-.
  - destruct (DateFromISOString_decode_cases env u) as [(s & t & _ & _ & H)|H];
      rewrite H; [|discriminate].
    intros E. now injection E as <-.
Qed.

Lemma Uuid_guard_rejects_decoded_values_witness :
  Uuid_is (VString "41c67ea6-b0e7-467e-a494-2782265a7ea6") = false
  /\ decode Uuid (VStringObject "41c67ea6-b0e7-467e-a494-2782265a7ea6")
     = failure (VStringObject "41c67ea6-b0e7-467e-a494-2782265a7ea6") [].
Proof.
  split.
  - apply (proj1 (Uuid_guard_rejects_decoded_values Sample.host
                    (VString "41c67ea6-b0e7-467e-a494-2782265a7ea6")
                    (VString "41c67ea6-b0e7-467e-a494-2782265a7ea6"))).
    reflexivity.
  - apply (proj1 (proj2 (Uuid_guard_rejects_decoded_values Sample.host
                           (VStringObject "41c67ea6-b0e7-467e-a494-2782265a7ea6")
                           VNull))).
    reflexivity.
Defined.

(** X14.  Decoding with the currency codec succeeds exactly on a number from
    which [new Decimal] constructs a decimal without throwing, and the result
    is that decimal; on any other value, and on a number for which the
    constructor throws, it fails with one error that carries the input. *)
Theorem CurrencyFromString_decode_constructs_decimal :
  forall (env : Env) (u a : value),
    (decode (CurrencyFromString env) u = Success a
     <-> exists n d, u = VNumber n /\ new_Decimal env n = Returned d /\ a = VDecimal d)
    /\ ((forall a', decode (CurrencyFromString env) u <> Success a') ->
        decode (CurrencyFromString env) u = Failure [mkValidationError u []]).
Proof.
  intros env u a. split; [split|].
  - destruct (CurrencyFromString_decode_cases env u) as [(n & d & -> & Hd & H)|[H _]];
      rewrite H; [|discriminate].
    intros E. injection E as <-. now exists n, d.
  - intros (n & d & -> & Hd & ->).
    destruct (CurrencyFromString_decode_cases env (VNumber n))
      as [(n' & d' & Hn & Hd' & H)|[_ H]].
    + injection Hn as <-. rewrite H. congruence.
    + destruct (H n eq_refl) as [e He]. congruence.
  - intros Hno.
    destruct (CurrencyFromString_decode_cases env u) as [(n & d & _ & _ & H)|[H _]];
      [now destruct (Hno _ H) | exact H].
Qed.

Lemma CurrencyFromString_decode_constructs_decimal_witness :
  decode (CurrencyFromString Sample.host) (VNumber (Finite (6260937 # 100)))
  = Success (VDecimal (DecimalFinite false 6260937 (-2)))
  /\ decode (CurrencyFromString Sample.host) (VString "62609.37")
     = Failure [mkValidationError (VString "62609.37") []].
Proof.
  split.
  - apply (proj2 (proj1 (CurrencyFromString_decode_constructs_decimal Sample.host
                           (VNumber (Finite (6260937 # 100)))
                           (VDecimal (DecimalFinite false 6260937 (-2)))))).
    exists (Finite (6260937 # 100)), (DecimalFinite false 6260937 (-2)).
    repeat split.
  - apply (proj2 (CurrencyFromString_decode_constructs_decimal Sample.host
                    (VString "62609.37") VNull)).
    intros a' H. discriminate H.
Defined.

(** X15.  Encoding never throws on a decoded value, for each of the three
    branded codecs: the UUID-like encoder gives back the wire string, the
    currency encoder a number, and the ISO-date encoder a string of digits and
    hyphens, since its decoder never yields an Invalid Date. *)
Theorem branded_encode_after_decode :
  forall (env : Env) (u a : value),
    (decode Uuid u = Success a -> Uuid_encode a = Returned u)
    /\ (decode (CurrencyFromString env) u = Success a ->
        exists n, CurrencyFromString_encode env a = Returned (VNumber n))
    /\ (decode (DateFromISOString env) u = Success a ->
        exists s, DateFromISOString_encode env a = Returned (VString s)
                  /\ date_only s = true).
Proof.
  intros env u a. repeat split.
  - destruct (Uuid_decode_cases u) as [(s & -> & H)|[_ H]]; rewrite H;
      [|discriminate].
    intros E. now injection E as <-.
  - destruct (CurrencyFromString_decode_cases env u) as [(n & d & _ & _ & H)|[H _]];
      rewrite H; [|discriminate].
    intros E. injection E as <-. eexists. reflexivity.
  - destruct (DateFromISOString_decode_cases env u) as [(s & t & _ & _ & H)|H];
      rewrite H; [|discriminate].
    intros E. injection E as <-.
    unfold DateFromISOString_encode. rewrite format_yyyy_MM_dd.
    destruct (local_date (getTimezoneOffset env) t) as [[y m] dd].
    eexists. split; [reflexivity | apply yyyy_MM_dd_date_only].
Qed.

Lemma branded_encode_after_decode_witness :
  exists s,
    DateFromISOString_encode Sample.host (VDate (TimeValue 1651714544383))
    = Returned (VString s)
    /\ date_only s = true.
Proof.
  apply (proj2 (proj2 (branded_encode_after_decode Sample.host
                         (VString "2022-05-05T01:35:44.383Z")
                         (VDate (TimeValue 1651714544383))))).
  vm_compute. reflexivity.
Defined.

End CodecMore.

Module LoaderFacts.
Import JS IoTs Random Route Shapes DateFns DispatchFacts ContainerFacts RoundTripFacts.

Section WithSource.

Context {S : Type} (rng : RandomSource S) (env : Env).

Lemma generated_Uuid (v : value) :
  generated_by rng Uuid v -> exists id, v = VString id.
Proof.
  intros (s & s' & H). rewrite (generate_uuid rng Uuid eq_refl) in H.
  unfold bind, draw, ret in H. destruct (faker_datatype_uuid rng s) as [id s1].
  injection H as <- _. now exists id.
Qed.

Lemma generated_DateFromISOString (v : value) :
  generated_by rng (DateFromISOString env) v -> exists iso, v = VString iso.
Proof.
  intros (s & s' & H).
  apply CodecFacts.generate_DateFromISOString in H as (d & wire & _ & _ & ->).
  now exists wire.
Qed.

Lemma generated_CurrencyFromString (v : value) :
  generated_by rng (CurrencyFromString env) v -> exists n, v = VNumber n.
Proof.
  intros (s & s' & H).
  rewrite (generate_currency rng (CurrencyFromString env) eq_refl) in H.
  unfold bind, draw, ret in H.
  destruct (faker_datatype_float rng (1 # 100) s) as [n s1].
  injection H as <- _. now exists n.
Qed.

Ltac field_of H :=
  let p := fresh "p" in let f := fresh "f" in
  let Hk := fresh "Hk" in let Hg := fresh "Hg" in let Hrest := fresh "Hrest" in
  inversion H as [|p f ? ? [Hk Hg] Hrest]; subst; clear H;
  destruct f as [? ?]; cbn [fst snd] in Hk, Hg; subst.

(** What [generate] returns for one product quotation: three numbers. *)
Lemma generated_item (v : value) :
  generated_by rng (item_codec env) v ->
  exists a b c,
    v = VObject [ ("amountNetOfIof", VNumber a);
                  ("totalAmount", VNumber b);
                  ("iofAmount", VNumber c) ].
Proof.
  intros (s & s' & H). unfold item_codec, t_type in H.
  rewrite generate_struct in H by reflexivity. cbn [getProps props_or_empty] in H.
  apply bind_returned in H as (fields & s1 & Hmap & H).
  apply ret_returned in H as [<- _].
  apply record_map_generated in Hmap.
  field_of Hmap. field_of Hrest. field_of Hrest0. inversion Hrest; subst.
  apply generated_CurrencyFromString in Hg as [a ->].
  apply generated_CurrencyFromString in Hg0 as [b ->].
  apply generated_CurrencyFromString in Hg1 as [c ->].
  now exists a, b, c.
Qed.

(** Decoding one generated product quotation: three decimals, or errors. *)
Lemma item_validate (a b c : number) (ctx : Context) :
  (exists q,
      validate (item_codec env)
        (VObject [ ("amountNetOfIof", VNumber a);
                   ("totalAmount", VNumber b);
                   ("iofAmount", VNumber c) ]) ctx = Success q
      /\ product_quotation_shape q)
  \/ (exists e es,
        validate (item_codec env)
          (VObject [ ("amountNetOfIof", VNumber a);
                     ("totalAmount", VNumber b);
                     ("iofAmount", VNumber c) ]) ctx = Failure (e :: es)).
Proof.
  unfold item_codec, t_type. cbn [validate validate_props get set String.eqb
    Ascii.eqb Bool.eqb CurrencyFromString].
  unfold CurrencyFromString_validate.
  repeat match goal with
         | |- context [number_validate (VNumber ?n) ?c] =>
             change (number_validate (VNumber n) c) with (success (VNumber n))
         end.
  cbn [chain success].
  destruct (new_Decimal env a) as [da|ea]; destruct (new_Decimal env b) as [db|eb];
    destruct (new_Decimal env c) as [dc|ec];
    cbn [validate_props get set String.eqb Ascii.eqb Bool.eqb chain success failure
         of_errors app];
    try (right; eexists; eexists; reflexivity).
  left. eexists. split; [reflexivity|]. now exists da, db, dc.
Qed.

Lemma items_validate (items : list value) :
  Forall (generated_by rng (item_codec env)) items ->
  forall i ctx as_,
    validate_elements (validate (item_codec env)) items i ctx = ([], as_) ->
    Forall product_quotation_shape as_ /\ List.length as_ = List.length items.
Proof.
  induction 1 as [|v items Hv _ IH]; intros i ctx as_ H; cbn [validate_elements] in H.
  - injection H as <-. now split.
  - apply generated_item in Hv as (a & b & c & ->).
    destruct (validate_elements (validate (item_codec env)) items (i + 1)%N ctx)
      as [errors rest] eqn:Hrest.
    destruct (item_validate a b c (appendContext ctx (string_of_N i)))
      as [(q & Hq & Hshape)|(e & es & He)].
    + rewrite Hq in H. injection H as -> <-.
      destruct (IH _ _ _ Hrest) as [Hall Hlen].
      split; [now constructor | cbn [List.length]; now rewrite Hlen].
    + rewrite He in H. discriminate H.
Qed.

Lemma generated_items (v : value) :
  random_in_unit_interval rng ->
  random_is_binary64 rng ->
  generated_by rng (t_array (item_codec env)) v ->
  exists items,
    v = VArray items
    /\ (List.length items < 10)%nat
    /\ Forall (generated_by rng (item_codec env)) items.
Proof.
  intros Hr Hb (s & s' & H). unfold t_array in H.
  destruct (generate_array_returned rng ("Array<" ++ name (item_codec env) ++ ">")
              (item_codec env) s s' v eq_refl Hr H)
    as (items & -> & Hlen & Hall).
  exists items. split; [reflexivity|]. split; [|exact Hall].
  destruct (Hr s) as [H0 H1].
  pose proof (FloatFacts.count_in_range _ (Hb s) H0 H1). unfold range_at in Hlen. lia.
Qed.

(** What [generate] returns for the quotation schema. *)
Lemma generated_quotation (s s' : S) (wire : value) :
  random_in_unit_interval rng ->
  random_is_binary64 rng ->
  generate rng (QuotationCodec env) s = (Returned wire, s') ->
  exists id createdAt productComboId totalAmount validUntil items,
    wire = VObject [ ("id", VString id);
                     ("createdAt", VString createdAt);
                     ("productComboId", VString productComboId);
                     ("totalAmount", VNumber totalAmount);
                     ("validUntil", VString validUntil);
                     ("productQuotations", VArray items) ]
    /\ (List.length items < 10)%nat
    /\ Forall (generated_by rng (item_codec env)) items.
Proof.
  intros Hr Hb H. unfold QuotationCodec, t_type in H.
  rewrite generate_struct in H by reflexivity. cbn [getProps props_or_empty] in H.
  apply bind_returned in H as (fields & s1 & Hmap & H).
  apply ret_returned in H as [<- _].
  apply record_map_generated in Hmap.
  field_of Hmap. field_of Hrest. field_of Hrest0. field_of Hrest.
  field_of Hrest0. field_of Hrest. inversion Hrest0; subst.
  apply generated_Uuid in Hg as [id ->].
  apply generated_DateFromISOString in Hg0 as [createdAt ->].
  apply generated_Uuid in Hg1 as [productComboId ->].
  apply generated_CurrencyFromString in Hg2 as [totalAmount ->].
  apply generated_DateFromISOString in Hg3 as [validUntil ->].
  apply (generated_items _ Hr Hb) in Hg4 as (items & -> & Hlen & Hall).
  now exists id, createdAt, productComboId, totalAmount, validUntil, items.
Qed.

Lemma decoded_quotation
    (id createdAt productComboId validUntil : string) (totalAmount : number)
    (items : list value) (q : value) :
  (List.length items < 10)%nat ->
  Forall (generated_by rng (item_codec env)) items ->
  decode (QuotationCodec env)
    (VObject [ ("id", VString id);
               ("createdAt", VString createdAt);
               ("productComboId", VString productComboId);
               ("totalAmount", VNumber totalAmount);
               ("validUntil", VString validUntil);
               ("productQuotations", VArray items) ]) = Success q ->
  quotation_shape q.
Proof.
  intros Hlen Hall. unfold decode, QuotationCodec, t_type, t_array.
  fold (t_type [ ("amountNetOfIof", CurrencyFromString env);
                 ("totalAmount", CurrencyFromString env);
                 ("iofAmount", CurrencyFromString env) ]).
  fold (item_codec env).
  cbn [validate validate_props get set String.eqb Ascii.eqb Bool.eqb
       Uuid CurrencyFromString DateFromISOString].
  unfold Uuid_validate, CurrencyFromString_validate, DateFromISOString_validate.
  repeat match goal with
         | |- context [number_validate (VNumber ?n) ?c] =>
             change (number_validate (VNumber n) c) with (success (VNumber n))
         | |- context [string_validate (VString ?n) ?c] =>
             change (string_validate (VString n) c) with (success (VString n))
         end.
  cbn [chain success].
  destruct (parseISO env createdAt) as [|t1];
    destruct (new_Decimal env totalAmount) as [d|ex];
    destruct (parseISO env validUntil) as [|t2];
    destruct (validate_elements (validate (item_codec env)) items 0
                (appendContext [] "productQuotations")) as [[|e0 es] as_] eqn:Hitems;
    cbn [isValid success failure of_errors app];
    intros Hq; try discriminate Hq.
  injection Hq as <-.
  destruct (items_validate items Hall _ _ _ Hitems) as [Hshape Hlen'].
  exists id, productComboId, t1, t2, d, as_.
  split; [reflexivity|]. split; [lia | exact Hshape].
Qed.

End WithSource.

End LoaderFacts.

Module LoaderMore.
Import JS IoTs Random Route Shapes LoaderFacts.

(** X16.  With [Math.random] returning a binary64 number of [0, 1): whenever
    [loader] resolves, the quotation it resolves with has the six declared
    keys in order, strings for the two ids, valid dates for [createdAt] and
    [validUntil], a decimal for [totalAmount] and fewer than ten product
    quotations, each of three decimals; and with valid dates from faker whose
    ISO strings [parseISO] reads and a [Decimal] constructor that accepts
    every number, it resolves from every state. *)
Theorem loader_resolves_with_quotation :
  forall (S : Type) (rng : RandomSource S) (env : Env),
    random_in_unit_interval rng ->
    random_is_binary64 rng ->
    (forall (s s' : S) (quotation : value),
        loader rng env s = (Resolved quotation, s') -> quotation_shape quotation)
    /\ (dates_valid rng ->
        parseISO_reads_drawn_dates rng env ->
        Decimal_constructs env ->
        forall s : S,
          exists quotation s',
            loader rng env s = (Resolved quotation, s')
            /\ quotation_shape quotation).
Proof.
  intros S rng env Hr Hb.
  assert (Hshape : forall s s' quotation,
             loader rng env s = (Resolved quotation, s') -> quotation_shape quotation).
  { intros s s' quotation H. unfold loader in H.
    destruct (generate rng (QuotationCodec env) s) as [[wire|e] s1] eqn:Hg;
      [|discriminate].
    destruct (decode (QuotationCodec env) wire) as [q|errors] eqn:Hd; [|discriminate].
    injection H as <- _.
    destruct (generated_quotation rng env s s1 wire Hr Hb Hg)
      as (id & createdAt & productComboId & totalAmount & validUntil & items
          & -> & Hlen & Hall).
    exact (decoded_quotation rng env _ _ _ _ _ _ _ Hlen Hall Hd). }
  split; [exact Hshape|].
  intros Hd Hp Hc s.
  destruct (RoundTrip.supported_round_trips rng env Hr Hd Hp Hc (QuotationCodec env)
              (RoundTripClaims.QuotationCodec_supported env) s)
    as (v & s' & a & Hg & Ha).
  assert (Hl : loader rng env s = (Resolved a, s')).
  { unfold loader. now rewrite Hg, Ha. }
  exists a, s'. split; [exact Hl | exact (Hshape _ _ _ Hl)].
Qed.

(** The loader on the seeded source and the sample host. *)
Lemma loader_resolves_with_quotation_witness :
  exists quotation s',
    loader Sample.seeded Sample.host 1 = (Resolved quotation, s')
    /\ quotation_shape quotation.
Proof.
  apply (proj2 (loader_resolves_with_quotation Z Sample.seeded Sample.host
                  SampleFacts.seeded_random_in_unit_interval
                  SampleFacts.seeded_random_is_binary64)
           HostFacts.seeded_dates_valid
           HostFacts.host_reads_seeded_dates
           HostFacts.host_Decimal_constructs).
Defined.

End LoaderMore.
